(** * Capsaicin: a shallow embedding of the scan engine's decision logic

    The Go sources are embedded function by function.  A Go [int] is a
    64-bit two's-complement integer: it is modelled by [Z] and every
    arithmetic operation that can leave the range is passed through
    [GoInt.wrap].  Go maps are [gmap]s, slices are lists, byte strings are
    [string]s. *)

From Stdlib Require Import ZArith QArith List String Ascii Lia Bool Permutation Sorted
  OrderedTypeEx.
From Stdlib Require Import Floats Reals Qreals Lra.
From stdpp Require Import gmap strings list pretty.

Open Scope Z_scope.

(** ** Machine integers *)

Module GoInt.

Definition min_int : Z := - 2 ^ 63.
Definition max_int : Z := 2 ^ 63 - 1.

(** Two's-complement reduction of a mathematical integer to [int]. *)
Definition wrap (z : Z) : Z := (z + 2 ^ 63) mod 2 ^ 64 - 2 ^ 63.

Definition in_range (z : Z) : Prop := min_int <= z <= max_int.

Definition add (a b : Z) : Z := wrap (a + b).
Definition sub (a b : Z) : Z := wrap (a - b).
Definition neg (a : Z) : Z := wrap (- a).

End GoInt.

(** ** The string functions of Go's library the sources call *)

Module GoStrings.

(** [len(s)] *)
Definition len (s : string) : Z := Z.of_nat (String.length s).

(** [strings.HasPrefix] *)
Definition HasPrefix (s prefix : string) : bool := String.prefix prefix s.

(** [s[n:]] for [0 <= n <= len(s)] *)
Fixpoint drop (n : nat) (s : string) : string :=
  match n, s with
  | O, _ => s
  | S n', String _ rest => drop n' rest
  | S _, EmptyString => EmptyString
  end.

(** [s[:n]] for [0 <= n <= len(s)] *)
Fixpoint take (n : nat) (s : string) : string :=
  match n, s with
  | O, _ => EmptyString
  | S n', String c rest => String c (take n' rest)
  | S _, EmptyString => EmptyString
  end.

(** [strings.TrimPrefix] *)
Definition TrimPrefix (s prefix : string) : string :=
  if HasPrefix s prefix then drop (String.length prefix) s else s.

(** [strings.HasSuffix] *)
Definition HasSuffix (s suffix : string) : bool :=
  (String.length suffix <=? String.length s)%nat &&
  String.eqb (drop (String.length s - String.length suffix) s) suffix.

(** [strings.TrimSuffix] *)
Definition TrimSuffix (s suffix : string) : string :=
  if HasSuffix s suffix then take (String.length s - String.length suffix) s else s.

(** [strings.Index]: the offset of the first occurrence, or -1 *)
Fixpoint Index_from (fuel : nat) (off : Z) (s substr : string) : Z :=
  if String.prefix substr s then off
  else match fuel, s with
       | S fuel', String _ rest => Index_from fuel' (off + 1) rest substr
       | _, _ => -1
       end.

Definition Index (s substr : string) : Z := Index_from (String.length s) 0 s substr.

(** [strings.LastIndex]: the offset of the last occurrence, or -1 *)
Fixpoint LastIndex_from (off : Z) (s substr : string) : Z :=
  match s with
  | EmptyString => if String.prefix substr s then off else -1
  | String _ rest =>
      let later := LastIndex_from (off + 1) rest substr in
      if (0 <=? later)%Z then later
      else if String.prefix substr s then off else -1
  end.

Definition LastIndex (s substr : string) : Z := LastIndex_from 0 s substr.

(** [strings.Contains] *)
Definition Contains (s substr : string) : bool := (0 <=? Index s substr)%Z.

(** [strings.Count(s, sep)] for a one-byte separator *)
Fixpoint CountByte (s : string) (sep : ascii) : Z :=
  match s with
  | EmptyString => 0
  | String c rest => (if Ascii.eqb c sep then 1 else 0) + CountByte rest sep
  end.

(** The cut at the first occurrence of a one-byte separator. *)
Fixpoint cut (s : string) (sep : ascii) : option (string * string) :=
  match s with
  | EmptyString => None
  | String c rest =>
      if Ascii.eqb c sep then Some (EmptyString, rest)
      else match cut rest sep with
           | Some (before, after) => Some (String c before, after)
           | None => None
           end
  end.

(** [strings.SplitN(s, sep, n)] for a one-byte separator and [n > 0] *)
Fixpoint SplitN (s : string) (sep : ascii) (n : nat) : list string :=
  match n with
  | O => []
  | S O => [s]
  | S n' => match cut s sep with
            | Some (before, after) => before :: SplitN after sep n'
            | None => [s]
            end
  end.

Definition is_ascii_space (c : ascii) : bool :=
  ((9 <=? nat_of_ascii c)%nat && (nat_of_ascii c <=? 13)%nat) || (nat_of_ascii c =? 32)%nat.

(** [len(strings.Fields(s))] on ASCII text: the number of maximal runs of
    bytes that are not white space. *)
Fixpoint FieldsCountFrom (inField : bool) (s : string) : Z :=
  match s with
  | EmptyString => 0
  | String c rest =>
      if is_ascii_space c then FieldsCountFrom false rest
      else (if inField then 0 else 1) + FieldsCountFrom true rest
  end.

Definition FieldsCount (s : string) : Z := FieldsCountFrom false s.

End GoStrings.

(** ** detection/calibration.go *)

Module Calibration.

Record ResponseSignature := {
  StatusCode : Z;
  Size : Z;
  WordCount : Z;
  LineCount : Z
}.

(** [func abs(n int) int] *)
Definition abs (n : Z) : Z := if n <? 0 then GoInt.neg n else n.

(** [float64(a) / float64(s) < 0.05], read in exact arithmetic.  For
    operands below 2^53 (every length of a body held in memory) the
    conversions to binary64 are exact, the division is correctly rounded and
    rounding is monotone, so the comparison with the double nearest to 0.05
    decides the same as the comparison of the exact quotient with 1/20. *)
Definition sizeDiff_lt_threshold (a s : Z) : bool :=
  negb (Qle_bool (5 # 100) (inject_Z a / inject_Z s)).

(** [func MatchesSignature(statusCode, size int, signatures []ResponseSignature) bool] *)
Fixpoint MatchesSignature (statusCode size : Z) (signatures : list ResponseSignature) : bool :=
  match signatures with
  | [] => false
  | sig :: rest =>
      if statusCode =? StatusCode sig then
        if Size sig =? 0 then MatchesSignature statusCode size rest
        else if sizeDiff_lt_threshold (abs (GoInt.sub size (Size sig))) (Size sig) then true
        else MatchesSignature statusCode size rest
      else MatchesSignature statusCode size rest
  end.

(** The same loop with the comparison carried out on IEEE binary64 values,
    as the Go code does it.  It is evaluated at boundary inputs below to
    check the exact reading of [sizeDiff_lt_threshold]. *)
Definition float64_of_int (z : Z) : float :=
  if z <? 0 then PrimFloat.opp (PrimFloat.of_uint63 (Uint63.of_Z (- z)))
  else PrimFloat.of_uint63 (Uint63.of_Z z).

Definition sizeDiff_lt_threshold_binary64 (a s : Z) : bool :=
  PrimFloat.ltb (PrimFloat.div (float64_of_int a) (float64_of_int s))
                (PrimFloat.div (float64_of_int 1) (float64_of_int 20)).

Fixpoint MatchesSignature_binary64 (statusCode size : Z) (signatures : list ResponseSignature) : bool :=
  match signatures with
  | [] => false
  | sig :: rest =>
      if statusCode =? StatusCode sig then
        if Size sig =? 0 then MatchesSignature_binary64 statusCode size rest
        else if sizeDiff_lt_threshold_binary64 (abs (GoInt.sub size (Size sig))) (Size sig) then true
        else MatchesSignature_binary64 statusCode size rest
      else MatchesSignature_binary64 statusCode size rest
  end.

(** A size as the code receives it: the length of a body, below 2^53, the
    range on which the conversion to binary64 is exact. *)
Definition is_size (z : Z) : Prop := 0 <= z < 2 ^ 53.

(** The baseline of the specification's example, [(404, 100, 10, 5)]. *)
Definition baseline404 : ResponseSignature :=
  {| StatusCode := 404; Size := 100; WordCount := 10; LineCount := 5 |}.

(** Sizes around one twentieth of [s], for [s] up to 4000 and for some
    lengths near 2^40 and 2^52. *)
Definition threshold_grid : list (Z * Z) :=
  flat_map (fun s => [(s / 20 - 1, s); (s / 20, s); (s / 20 + 1, s)])
    (seqZ 1 4000 ++ seqZ (2 ^ 40) 40 ++ seqZ (2 ^ 52 - 40) 40).

(** What the specification asks of one signature. *)
Definition sig_matches (statusCode size : Z) (sig : ResponseSignature) : Prop :=
  StatusCode sig = statusCode /\ Size sig <> 0 /\
  (inject_Z (Z.abs (size - Size sig)) / inject_Z (Size sig) < 5 # 100)%Q.

End Calibration.

(** ** net/http values the scanner looks at *)

Module HTTP.

Record Request := {
  Method : string;
  URL : string;
  (** [req.URL.Opaque], set by the url-encode strategy only *)
  Opaque : option string;
  Header : list (string * string)
}.

Record Response := {
  StatusCode : Z;
  RespHeader : list (string * string)
}.

(** [req.Header.Set(key, value)] *)
Definition header_set (key value : string) (h : list (string * string)) : list (string * string) :=
  (key, value) :: filter (fun kv => negb (String.eqb (fst kv) key)) h.

(** [for key, value := range headers { req.Header.Set(key, value) }] *)
Definition header_set_all (kvs h : list (string * string)) : list (string * string) :=
  fold_left (fun acc kv => header_set (fst kv) (snd kv) acc) kvs h.

(** [resp.Header.Get(key)] *)
Fixpoint header_get (key : string) (h : list (string * string)) : string :=
  match h with
  | [] => EmptyString
  | (k, v) :: rest => if String.eqb k key then v else header_get key rest
  end.

End HTTP.

(** ** transport/client.go *)

Module Transport.

(** [time.Second], in nanoseconds. *)
Definition Second : Z := 1000000000.

(** [type CircuitBreaker struct].  A [time.Time] is its reading of the
    monotonic clock in nanoseconds. *)
Record CircuitBreaker := {
  failureCounts : gmap string Z;
  lastFailure : gmap string Z;
  threshold : Z;
  resetTimeout : Z
}.

(** The breaker [NewClient] builds. *)
Definition NewCircuitBreaker : CircuitBreaker :=
  {| failureCounts := ∅; lastFailure := ∅; threshold := 10; resetTimeout := 30 * Second |}.

(** [func (cb *CircuitBreaker) isOpen(host string) bool]; [now] is the
    clock reading [time.Since] takes. *)
Definition isOpen (now : Z) (host : string) (cb : CircuitBreaker) : bool * CircuitBreaker :=
  let count_reached := (threshold cb <=? default 0 (failureCounts cb !! host), cb) in
  match lastFailure cb !! host with
  | Some lastFail =>
      if resetTimeout cb <? now - lastFail then
        (false,
         {| failureCounts := delete host (failureCounts cb);
            lastFailure := delete host (lastFailure cb);
            threshold := threshold cb;
            resetTimeout := resetTimeout cb |})
      else count_reached
  | None => count_reached
  end.

(** [func (cb *CircuitBreaker) recordFailure(host string)] *)
Definition recordFailure (now : Z) (host : string) (cb : CircuitBreaker) : CircuitBreaker :=
  {| failureCounts :=
       <[host := GoInt.add (default 0 (failureCounts cb !! host)) 1]> (failureCounts cb);
     lastFailure := <[host := now]> (lastFailure cb);
     threshold := threshold cb;
     resetTimeout := resetTimeout cb |}.

(** [func (cb *CircuitBreaker) recordSuccess(host string)] *)
Definition recordSuccess (host : string) (cb : CircuitBreaker) : CircuitBreaker :=
  {| failureCounts := delete host (failureCounts cb);
     lastFailure := delete host (lastFailure cb);
     threshold := threshold cb;
     resetTimeout := resetTimeout cb |}.

(** [type Client struct]: the fields [DoContext] reads and writes.  A
    limiter is recorded by the rate it was created with. *)
Record Client := {
  limiters : gmap string Z;
  retryAttempts : Z;
  maxBodyBytes : Z;
  circuitBreaker : CircuitBreaker
}.

(** [func NewClient(timeout, rateLimit, retryAttempts, maxBodyMB int) *Client] *)
Definition NewClient (timeout rateLimit retryAttempts maxBodyMB : Z) : Client :=
  {| limiters := ∅;
     retryAttempts := retryAttempts;
     maxBodyBytes := GoInt.wrap (GoInt.wrap (maxBodyMB * 1024) * 1024);
     circuitBreaker := NewCircuitBreaker |}.

(** [func (c *Client) getRateLimiter(host string, rateLimit int) *rate.Limiter]:
    the limiter's rate, if there is one, and the updated map. *)
Definition getRateLimiter (host : string) (rateLimit : Z) (ls : gmap string Z)
  : option Z * gmap string Z :=
  if rateLimit <=? 0 then (None, ls)
  else match ls !! host with
       | Some l => (Some l, ls)
       | None => (Some rateLimit, <[host := rateLimit]> ls)
       end.

(** [int64(math.Pow(2, float64(attempt)))]: exact up to 2^62; beyond the
    range of [int64] the conversion yields the minimal integer on amd64. *)
Definition pow2_int64 (attempt : Z) : Z :=
  if attempt <? 63 then 2 ^ attempt else GoInt.min_int.

(** [func (c *Client) jitter(attempt int) time.Duration]: the exclusive
    upper bound [base] of the drawn delay, or [None] when [rng.Int63n]
    panics on a bound that is not positive. *)
Definition jitter (attempt : Z) : option Z :=
  let ceiling := 30 * Second in
  let base := GoInt.wrap (pow2_int64 attempt * Second) in
  let base := if ceiling <? base then ceiling else base in
  if base <=? 0 then None else Some base.

(** What one attempt meets on the wire. *)
Inductive Exchange :=
| DoError (err : string)
| ReadError (resp : HTTP.Response) (err : string)
| Answer (resp : HTTP.Response) (body : string).

(** The surroundings of one call of [DoContext]. *)
Record Env := {
  (** [url.Parse(req.URL.String())] and its [Host] *)
  parseHost : string -> option string;
  (** clock reading when the call enters *)
  nowAtEntry : Z;
  (** clock reading when attempt [n] has its answer *)
  nowAtAttempt : Z -> Z;
  (** [limiter.Wait(ctx)] returns without error *)
  limiterWait : bool;
  (** [ctx] is done when attempt [n] reaches its cancellation checks *)
  ctxDone : Z -> bool;
  (** what [httpClient.Do] and [readBody] meet at attempt [n] *)
  exchange : Z -> Exchange
}.

Inductive Error :=
| ErrParse
| ErrCircuitOpen (host : string)
| ErrLimiter
| ErrContext
| ErrTransport (err : string)
| ErrExhausted (attempts : Z).

(** [(resp, body, nil)], [(nil, nil, err)], or a run-time panic. *)
Inductive Outcome :=
| Return (resp : HTTP.Response) (body : string)
| Fail (err : Error)
| Panic.

(** The trace of a call: HTTP attempts issued and breaker records made. *)
Inductive Event :=
| EvAttempt (n : Z)
| EvRecordFailure (host : string)
| EvRecordSuccess (host : string).

(** [func (c *Client) readBody]: [io.LimitReader] caps the read at
    [maxBody] bytes (at none when it is not positive). *)
Definition readBody (maxBody : Z) (body : string) : string :=
  if GoStrings.len body <=? maxBody then body
  else GoStrings.take (Z.to_nat maxBody) body.

(** The [for attempt := 0; attempt <= c.retryAttempts; attempt++] loop;
    [fuel] counts the iterations the loop condition still admits. *)
Fixpoint attemptLoop (retries maxBody : Z) (env : Env) (host : string)
    (fuel : nat) (attempt : Z) (cb : CircuitBreaker) (log : list Event)
  : Outcome * CircuitBreaker * list Event :=
  match fuel with
  | O => (Fail (ErrExhausted (GoInt.add retries 1)), cb, log)
  | S fuel' =>
      match (if 0 <? attempt then jitter (attempt - 1) else Some 0) with
      | None => (Panic, cb, log)
      | Some _ =>
          if ctxDone env attempt then (Fail ErrContext, cb, log)
          else
            let log := log ++ [EvAttempt attempt] in
            match exchange env attempt with
            | DoError err | ReadError _ err =>
                if attempt =? retries then
                  (Fail (ErrTransport err),
                   recordFailure (nowAtAttempt env attempt) host cb,
                   log ++ [EvRecordFailure host])
                else attemptLoop retries maxBody env host fuel' (attempt + 1) cb log
            | Answer resp body =>
                let body := readBody maxBody body in
                if 500 <=? HTTP.StatusCode resp then
                  let cb := recordFailure (nowAtAttempt env attempt) host cb in
                  let log := log ++ [EvRecordFailure host] in
                  if attempt =? retries then (Return resp body, cb, log)
                  else attemptLoop retries maxBody env host fuel' (attempt + 1) cb log
                else
                  (Return resp body, recordSuccess host cb, log ++ [EvRecordSuccess host])
            end
      end
  end.

(** [func (c *Client) DoContext(ctx, req, rateLimit)] *)
Definition DoContext (c : Client) (env : Env) (req : HTTP.Request) (rateLimit : Z)
  : Outcome * Client * list Event :=
  match parseHost env (HTTP.URL req) with
  | None => (Fail ErrParse, c, [])
  | Some host =>
      let '(open, cb) := isOpen (nowAtEntry env) host (circuitBreaker c) in
      if open then
        (Fail (ErrCircuitOpen host),
         {| limiters := limiters c; retryAttempts := retryAttempts c;
            maxBodyBytes := maxBodyBytes c; circuitBreaker := cb |}, [])
      else
        let '(limiter, ls) := getRateLimiter host rateLimit (limiters c) in
        if match limiter with Some _ => negb (limiterWait env) | None => false end then
          (Fail ErrLimiter,
           {| limiters := ls; retryAttempts := retryAttempts c;
              maxBodyBytes := maxBodyBytes c; circuitBreaker := cb |}, [])
        else
          let '(out, cb, log) :=
            attemptLoop (retryAttempts c) (maxBodyBytes c) env host
                        (Z.to_nat (retryAttempts c + 1)) 0 cb [] in
          (out,
           {| limiters := ls; retryAttempts := retryAttempts c;
              maxBodyBytes := maxBodyBytes c; circuitBreaker := cb |}, log)
  end.

(** *** What the specification says about a call, in terms of the above *)

(** The host has no entry in the breaker. *)
Definition cleared (host : string) (cb : CircuitBreaker) : Prop :=
  failureCounts cb !! host = None /\ lastFailure cb !! host = None.

(** Two breakers differ at most in the entry of [host]. *)
Definition same_elsewhere (host : string) (cb cb' : CircuitBreaker) : Prop :=
  (forall h, h <> host ->
     failureCounts cb' !! h = failureCounts cb !! h /\
     lastFailure cb' !! h = lastFailure cb !! h) /\
  threshold cb' = threshold cb /\ resetTimeout cb' = resetTimeout cb.

(** The trace of [count] attempts from [first] on, each answered 5xx. *)
Definition failure_events (host : string) (first count : Z) : list Event :=
  flat_map (fun n => [EvAttempt n; EvRecordFailure host]) (seqZ first count).

(** The breaker after a failure was recorded at each of these attempts. *)
Definition record_failures (env : Env) (host : string) (first count : Z) (cb : CircuitBreaker)
  : CircuitBreaker :=
  fold_left (fun cb n => recordFailure (nowAtAttempt env n) host cb) (seqZ first count) cb.

Definition is_attempt (e : Event) : bool :=
  match e with EvAttempt _ => true | _ => false end.

(** The number of HTTP attempts in a trace. *)
Definition attempts_made (log : list Event) : Z :=
  Z.of_nat (length (filter is_attempt log)).

(** A server that answers every attempt with a status of 500 or more. *)
Definition always_5xx (env : Env) : Prop :=
  forall n, exists resp body, exchange env n = Answer resp body /\ 500 <= HTTP.StatusCode resp.

(** *** A scenario: a host that always answers 500 *)

Definition answer500 : HTTP.Response :=
  {| HTTP.StatusCode := 500; HTTP.RespHeader := [] |}.

Definition env500 : Env :=
  {| parseHost := fun _ => Some "example.com";
     nowAtEntry := 0;
     nowAtAttempt := fun n => n;
     limiterWait := true;
     ctxDone := fun _ => false;
     exchange := fun _ => Answer answer500 "Internal Server Error" |}.

(** A host that answers 500 twice and 200 from then on. *)
Definition env_recovering : Env :=
  {| parseHost := fun _ => Some "example.com";
     nowAtEntry := 0;
     nowAtAttempt := fun n => n;
     limiterWait := true;
     ctxDone := fun _ => false;
     exchange := fun n =>
       if n <? 2 then Answer answer500 "Internal Server Error"
       else Answer {| HTTP.StatusCode := 200; HTTP.RespHeader := [] |} "OK" |}.

Definition probe : HTTP.Request :=
  {| HTTP.Method := "GET"; HTTP.URL := "http://example.com/x";
     HTTP.Opaque := None; HTTP.Header := [] |}.

(** The client of [NewClient(10, 0, retries, 10)] after [n] calls of
    [DoContext] for [probe]. *)
Definition after_calls (retries : Z) (n : nat) : Client :=
  Nat.iter n (fun c => snd (fst (DoContext c env500 probe 0))) (NewClient 10 0 retries 10).

(** The error of an attempt that got no answer. *)
Definition exchange_error (e : Exchange) : option string :=
  match e with
  | DoError err | ReadError _ err => Some err
  | Answer _ _ => None
  end.

(** A host no attempt gets an answer from. *)
Definition never_answers (env : Env) : Prop :=
  forall n, exchange_error (exchange env n) <> None.

Definition env_unreachable : Env :=
  {| parseHost := fun _ => Some "example.com";
     nowAtEntry := 0;
     nowAtAttempt := fun n => n;
     limiterWait := true;
     ctxDone := fun _ => false;
     exchange := fun _ => DoError "connection refused" |}.

End Transport.

(** ** scanner: task.go, stats.go, bypass.go, worker.go, engine.go *)

Module Scanner.
Import GoStrings.

(** [type Task struct] *)
Record Task := {
  TargetURL : string;
  Path : string;
  Depth : Z
}.

(** [type Result struct] *)
Record Result := {
  URL : string;
  StatusCode : Z;
  Size : Z;
  WordCount : Z;
  LineCount : Z;
  Critical : bool;
  Severity : string;
  Confidence : string;
  Tags : list string;
  Method : string;
  Timestamp : string;
  Server : string;
  PoweredBy : string;
  UserAgent : string;
  SecretFound : bool;
  SecretTypes : list string;
  WAFDetected : string;
  Technologies : list string
}.

Definition set_URL (r : Result) (v : string) : Result :=
  {| URL := v; StatusCode := StatusCode r; Size := Size r; WordCount := WordCount r;
     LineCount := LineCount r; Critical := Critical r; Severity := Severity r;
     Confidence := Confidence r; Tags := Tags r; Method := Method r;
     Timestamp := Timestamp r; Server := Server r; PoweredBy := PoweredBy r;
     UserAgent := UserAgent r; SecretFound := SecretFound r; SecretTypes := SecretTypes r;
     WAFDetected := WAFDetected r; Technologies := Technologies r |}.

Definition set_Method (r : Result) (v : string) : Result :=
  {| URL := URL r; StatusCode := StatusCode r; Size := Size r; WordCount := WordCount r;
     LineCount := LineCount r; Critical := Critical r; Severity := Severity r;
     Confidence := Confidence r; Tags := Tags r; Method := v;
     Timestamp := Timestamp r; Server := Server r; PoweredBy := PoweredBy r;
     UserAgent := UserAgent r; SecretFound := SecretFound r; SecretTypes := SecretTypes r;
     WAFDetected := WAFDetected r; Technologies := Technologies r |}.

Definition set_Critical (r : Result) (v : bool) : Result :=
  {| URL := URL r; StatusCode := StatusCode r; Size := Size r; WordCount := WordCount r;
     LineCount := LineCount r; Critical := v; Severity := Severity r;
     Confidence := Confidence r; Tags := Tags r; Method := Method r;
     Timestamp := Timestamp r; Server := Server r; PoweredBy := PoweredBy r;
     UserAgent := UserAgent r; SecretFound := SecretFound r; SecretTypes := SecretTypes r;
     WAFDetected := WAFDetected r; Technologies := Technologies r |}.

(** [r.SecretFound = true; r.SecretTypes = secrets] *)
Definition set_Secrets (r : Result) (secrets : list string) : Result :=
  {| URL := URL r; StatusCode := StatusCode r; Size := Size r; WordCount := WordCount r;
     LineCount := LineCount r; Critical := Critical r; Severity := Severity r;
     Confidence := Confidence r; Tags := Tags r; Method := Method r;
     Timestamp := Timestamp r; Server := Server r; PoweredBy := PoweredBy r;
     UserAgent := UserAgent r; SecretFound := true; SecretTypes := secrets;
     WAFDetected := WAFDetected r; Technologies := Technologies r |}.

Definition set_Technologies (r : Result) (v : list string) : Result :=
  {| URL := URL r; StatusCode := StatusCode r; Size := Size r; WordCount := WordCount r;
     LineCount := LineCount r; Critical := Critical r; Severity := Severity r;
     Confidence := Confidence r; Tags := Tags r; Method := Method r;
     Timestamp := Timestamp r; Server := Server r; PoweredBy := PoweredBy r;
     UserAgent := UserAgent r; SecretFound := SecretFound r; SecretTypes := SecretTypes r;
     WAFDetected := WAFDetected r; Technologies := v |}.

Definition set_Labels (r : Result) (severity confidence : string) : Result :=
  {| URL := URL r; StatusCode := StatusCode r; Size := Size r; WordCount := WordCount r;
     LineCount := LineCount r; Critical := Critical r; Severity := severity;
     Confidence := confidence; Tags := Tags r; Method := Method r;
     Timestamp := Timestamp r; Server := Server r; PoweredBy := PoweredBy r;
     UserAgent := UserAgent r; SecretFound := SecretFound r; SecretTypes := SecretTypes r;
     WAFDetected := WAFDetected r; Technologies := Technologies r |}.

(** [config.Config]: the fields the scanner reads.  [CustomHeaders] is a Go
    map; the list gives the order one [range] over it takes. *)
Record Config := {
  Threads : Z;
  Extensions : list string;
  MaxDepth : Z;
  CustomHeaders : list (string * string);
  RateLimit : Z;
  SafeMode : bool
}.

(** [type Stats struct]: the counters ([sync/atomic] additions wrap). *)
Record Stats := {
  Total : Z;
  Processed : Z;
  Found : Z;
  Errors : Z;
  Secrets : Z;
  WAFHits : Z
}.

Definition NewStats (initialTotal : Z) : Stats :=
  {| Total := initialTotal; Processed := 0; Found := 0; Errors := 0; Secrets := 0; WAFHits := 0 |}.

Definition IncrementProcessed (s : Stats) : Stats :=
  {| Total := Total s; Processed := GoInt.add (Processed s) 1; Found := Found s;
     Errors := Errors s; Secrets := Secrets s; WAFHits := WAFHits s |}.

Definition IncrementFound (s : Stats) : Stats :=
  {| Total := Total s; Processed := Processed s; Found := GoInt.add (Found s) 1;
     Errors := Errors s; Secrets := Secrets s; WAFHits := WAFHits s |}.

Definition IncrementErrors (s : Stats) : Stats :=
  {| Total := Total s; Processed := Processed s; Found := Found s;
     Errors := GoInt.add (Errors s) 1; Secrets := Secrets s; WAFHits := WAFHits s |}.

Definition IncrementSecrets (s : Stats) : Stats :=
  {| Total := Total s; Processed := Processed s; Found := Found s;
     Errors := Errors s; Secrets := GoInt.add (Secrets s) 1; WAFHits := WAFHits s |}.

Definition IncrementWAFHits (s : Stats) : Stats :=
  {| Total := Total s; Processed := Processed s; Found := Found s;
     Errors := Errors s; Secrets := Secrets s; WAFHits := GoInt.add (WAFHits s) 1 |}.

Definition IncrementTotal (delta : Z) (s : Stats) : Stats :=
  {| Total := GoInt.add (Total s) delta; Processed := Processed s; Found := Found s;
     Errors := Errors s; Secrets := Secrets s; WAFHits := WAFHits s |}.

(** What the scanner calls and does not define in these files, over a
    world [W] that holds everything outside the program: the servers, the
    clock, the random generator and the cancellation of [ctx]. *)
Record Env (W : Type) := {
  (** [select { case <-ctx.Done(): ...; default: }] takes the first case *)
  ctxDone : W -> bool;
  (** [select { case ch <- v: ...; case <-ctx.Done(): ... }] takes the send *)
  sendWins : W -> bool;
  (** [http.NewRequestWithContext] then [client.DoContext]; [None] is an error of either *)
  roundTrip : HTTP.Request -> W -> option (HTTP.Response * string) * W;
  (** [rng.Intn(n)] *)
  randIntn : Z -> W -> Z * W;
  (** [time.Now().Format(time.RFC3339)] *)
  timestamp : W -> string;
  (** [select { case <-ctx.Done(): case <-time.After(2 * time.Second): }] *)
  cooldown : W -> W;
  (** [req.URL.String()] *)
  urlString : HTTP.Request -> string;
  (** [len(strings.Fields(body))] *)
  fieldCount : string -> Z;
  (** [detection.DetectWAF], [detection.DetectSecrets], [detection.DetectTechNames] *)
  DetectWAF : HTTP.Response -> string;
  DetectSecrets : string -> list string;
  DetectTechNames : HTTP.Response -> string -> list string;
  (** the five-argument [detection.MatchesSignature] that worker.go calls *)
  MatchesSignature : Z -> Z -> Z -> Z -> list Calibration.ResponseSignature -> bool;
  (** the labels [AssignSeverityAndConfidence] computes *)
  severityOf : Result -> string;
  confidenceOf : Result -> string
}.

Arguments ctxDone {W}.
Arguments sendWins {W}.
Arguments roundTrip {W}.
Arguments randIntn {W}.
Arguments timestamp {W}.
Arguments cooldown {W}.
Arguments urlString {W}.
Arguments fieldCount {W}.
Arguments DetectWAF {W}.
Arguments DetectSecrets {W}.
Arguments DetectTechNames {W}.
Arguments MatchesSignature {W}.
Arguments severityOf {W}.
Arguments confidenceOf {W}.

(** Modelled from the spec: [AssignSeverityAndConfidence] is called by
    worker.go and defined in none of the files; it assigns the severity and
    confidence labels of a Result just before emission and leaves the other
    fields as they are. *)
Definition AssignSeverityAndConfidence {W} (env : Env W) (r : Result) : Result :=
  set_Labels r (severityOf env r) (confidenceOf env r).

(** [strings.Count(bodyContent, "\n") + 1] *)
Definition lineCount (body : string) : Z := GoInt.add (CountByte body "010"%char) 1.

(** The [Result] that [makeRequest] and [executeBypassRequest] fill in. *)
Definition newResult {W} (env : Env W) (url method userAgent : string)
    (resp : HTTP.Response) (body : string) (w : W) : Result :=
  {| URL := url;
     StatusCode := HTTP.StatusCode resp;
     Size := len body;
     WordCount := fieldCount env body;
     LineCount := lineCount body;
     Critical := false;
     Severity := EmptyString;
     Confidence := EmptyString;
     Tags := [];
     Method := method;
     Timestamp := timestamp env w;
     Server := HTTP.header_get "Server" (HTTP.RespHeader resp);
     PoweredBy := HTTP.header_get "X-Powered-By" (HTTP.RespHeader resp);
     UserAgent := userAgent;
     SecretFound := false;
     SecretTypes := [];
     WAFDetected := DetectWAF env resp;
     Technologies := [] |}.

(** [func makeRequest(ctx, url, method, userAgent, cfg, client)] *)
Definition makeRequest {W} (env : Env W) (cfg : Config) (url method userAgent : string) (w : W)
  : option (Result * string * HTTP.Response) * W :=
  let req := {| HTTP.Method := method; HTTP.URL := url; HTTP.Opaque := None;
                HTTP.Header := HTTP.header_set_all (CustomHeaders cfg)
                                 (HTTP.header_set "User-Agent" userAgent []) |} in
  match roundTrip env req w with
  | (None, w) => (None, w)
  | (Some (resp, body), w) =>
      (Some (newResult env url method userAgent resp body w, body, resp), w)
  end.

(** [func isDirectory(result *Result) bool] *)
Definition isDirectory (result : Result) : bool :=
  if (StatusCode result =? 301) || (StatusCode result =? 302) || (StatusCode result =? 403)
  then true
  else if HasSuffix (URL result) "/" then true
  else false.

(** [func isInteresting(result *Result) bool] *)
Definition isInteresting (result : Result) : bool :=
  if (200 <=? StatusCode result) && (StatusCode result <? 400) then true
  else if (StatusCode result =? 401) || (StatusCode result =? 403) then true
  else false.

(** [func extractPath(url string) string] *)
Definition extractPath (url : string) : string :=
  match SplitN url "/"%char 4 with
  | [_; _; _; rest] => "/" +:+ rest
  | _ => "/"
  end.

(** [func extractBaseURL(rawURL string) string] *)
Definition extractBaseURL (rawURL : string) : string :=
  let idx := Index rawURL "://" in
  if idx <? 0 then rawURL
  else
    let rest := drop (Z.to_nat (idx + 3)) rawURL in
    let slashIdx := Index rest "/" in
    if slashIdx <? 0 then rawURL
    else take (Z.to_nat (idx + 3 + slashIdx)) rawURL.

(** [func isBypassSuccess(statusCode int) bool] *)
Definition isBypassSuccess (statusCode : Z) : bool :=
  (statusCode =? 200) || (statusCode =? 302) || (statusCode =? 301).

Definition is_lower (c : ascii) : bool :=
  (nat_of_ascii "a" <=? nat_of_ascii c)%nat && (nat_of_ascii c <=? nat_of_ascii "z")%nat.

Definition is_upper (c : ascii) : bool :=
  (nat_of_ascii "A" <=? nat_of_ascii c)%nat && (nat_of_ascii c <=? nat_of_ascii "Z")%nat.

Definition hex_digit (n : nat) : ascii :=
  if (n <? 10)%nat then ascii_of_nat (nat_of_ascii "0" + n)
  else ascii_of_nat (nat_of_ascii "a" + (n - 10)).

(** [fmt.Sprintf("%%%02x", ch)] for a one-byte [ch] *)
Definition percent_hex (c : ascii) : string :=
  String "%" (String (hex_digit (nat_of_ascii c / 16))
             (String (hex_digit (nat_of_ascii c mod 16)) EmptyString)).

(** The loop of [encodePathSegment] over the segment: letters are written
    as escapes, every other byte as it is. *)
Fixpoint encodeSegment (segment : string) : string :=
  match segment with
  | EmptyString => EmptyString
  | String ch rest =>
      (if is_lower ch || is_upper ch then percent_hex ch else String ch EmptyString)
      +:+ encodeSegment rest
  end.

(** [func encodePathSegment(path string) string] *)
Definition encodePathSegment (path : string) : string :=
  let lastSlash := LastIndex path "/" in
  if lastSlash <? 0 then path
  else
    let prefix := take (Z.to_nat (lastSlash + 1)) path in
    let segment := drop (Z.to_nat (lastSlash + 1)) path in
    if String.eqb segment EmptyString then path
    else prefix +:+ encodeSegment segment.

(** [func manipulateCase(path string) string] *)
Definition manipulateCase (path : string) : string :=
  let lastSlash := LastIndex path "/" in
  if (lastSlash <? 0) || (len path - 1 <=? lastSlash) then path
  else
    let prefix := take (Z.to_nat (lastSlash + 1)) path in
    let segment := drop (Z.to_nat (lastSlash + 1)) path in
    match segment with
    | String first tail =>
        if is_lower first then prefix +:+ String (ascii_of_nat (nat_of_ascii first - 32)) tail
        else if is_upper first then prefix +:+ String (ascii_of_nat (nat_of_ascii first + 32)) tail
        else path
    | EmptyString => path
    end.

(** [type BypassStrategy struct].  [Execute] builds a request and hands it
    to [executeBypassRequest]; [Build] is the first half, [None] where the
    closure returns [nil] before any request is made. *)
Record BypassStrategy := {
  Name : string;
  Build : string -> string -> Config -> option HTTP.Request
}.

Definition bypassHeaders (userAgent : string) (cfg : Config) : list (string * string) :=
  HTTP.header_set_all (CustomHeaders cfg) (HTTP.header_set "User-Agent" userAgent []).

(** [func headerBypass(name string, headers map[string]string) BypassStrategy] *)
Definition headerBypass (name : string) (headers : list (string * string)) : BypassStrategy :=
  {| Name := name;
     Build := fun targetURL userAgent cfg =>
       Some {| HTTP.Method := "GET"; HTTP.URL := targetURL; HTTP.Opaque := None;
               HTTP.Header := HTTP.header_set_all headers (bypassHeaders userAgent cfg) |} |}.

(** [func pathBypass(name, baseURL, altPath string) BypassStrategy] *)
Definition pathBypass (name baseURL altPath : string) : BypassStrategy :=
  {| Name := name;
     Build := fun _ userAgent cfg =>
       let altURL := baseURL +:+ altPath in
       Some {| HTTP.Method := "GET"; HTTP.URL := altURL; HTTP.Opaque := None;
               HTTP.Header := bypassHeaders userAgent cfg |} |}.

(** [func urlEncodeBypass(name, baseURL, path string) BypassStrategy]; the
    host of [req.URL] is what follows the scheme in [baseURL]. *)
Definition urlEncodeBypass (name baseURL path : string) : BypassStrategy :=
  {| Name := name;
     Build := fun _ userAgent cfg =>
       let encoded := encodePathSegment path in
       let altURL := baseURL +:+ encoded in
       let host := drop (Z.to_nat (Index baseURL "://" + 3)) baseURL in
       Some {| HTTP.Method := "GET"; HTTP.URL := altURL;
               HTTP.Opaque := Some ("//" +:+ host +:+ encoded);
               HTTP.Header := bypassHeaders userAgent cfg |} |}.

(** [func caseBypass(name, baseURL, path string) BypassStrategy] *)
Definition caseBypass (name baseURL path : string) : BypassStrategy :=
  {| Name := name;
     Build := fun _ userAgent cfg =>
       let manipulated := manipulateCase path in
       if String.eqb manipulated path then None
       else
         let altURL := baseURL +:+ manipulated in
         Some {| HTTP.Method := "GET"; HTTP.URL := altURL; HTTP.Opaque := None;
                 HTTP.Header := bypassHeaders userAgent cfg |} |}.

(** [func methodOverrideBypass(name, path string) BypassStrategy] *)
Definition methodOverrideBypass (name path : string) : BypassStrategy :=
  {| Name := name;
     Build := fun targetURL userAgent cfg =>
       Some {| HTTP.Method := "POST"; HTTP.URL := targetURL; HTTP.Opaque := None;
               HTTP.Header :=
                 HTTP.header_set_all (CustomHeaders cfg)
                   (HTTP.header_set "Content-Length" "0"
                     (HTTP.header_set "X-HTTP-Method" "GET"
                       (HTTP.header_set "X-Method-Override" "GET"
                         (HTTP.header_set "X-HTTP-Method-Override" "GET"
                           (HTTP.header_set "User-Agent" userAgent []))))) |} |}.

(** [func buildBypassStrategies(baseURL, path string) []BypassStrategy] *)
Definition buildBypassStrategies (baseURL path : string) : list BypassStrategy :=
  [ headerBypass "headers"
      [ ("X-Forwarded-For", "127.0.0.1");
        ("X-Forwarded-Host", "127.0.0.1");
        ("X-Original-URL", path);
        ("X-Rewrite-URL", path);
        ("X-Custom-IP-Authorization", "127.0.0.1");
        ("Client-IP", "127.0.0.1");
        ("True-Client-IP", "127.0.0.1");
        ("X-Real-IP", "127.0.0.1");
        ("X-Remote-IP", "127.0.0.1");
        ("X-Remote-Addr", "127.0.0.1");
        ("X-ProxyUser-Ip", "127.0.0.1");
        ("X-Originating-IP", "127.0.0.1") ];
    pathBypass "path-normalize" baseURL (path +:+ "/.");
    pathBypass "path-dotslash" baseURL ("/./" +:+ TrimPrefix path "/");
    pathBypass "path-double-slash" baseURL ("/" +:+ TrimPrefix path "/");
    pathBypass "path-trailing-slash" baseURL (path +:+ "/");
    pathBypass "path-semicolon" baseURL (path +:+ ";");
    pathBypass "path-semicolon-slash" baseURL (path +:+ "..;/");
    pathBypass "path-null-byte" baseURL (path +:+ "%00");
    pathBypass "path-hash" baseURL (path +:+ "%23");
    urlEncodeBypass "url-encode" baseURL path;
    caseBypass "case-upper" baseURL path;
    methodOverrideBypass "method-override" path ].

(** The request a named strategy of the catalogue makes for a denied URL. *)
Definition strategyRequest (name originalURL userAgent : string) (cfg : Config)
  : option HTTP.Request :=
  match List.find (fun s => String.eqb (Name s) name)
          (buildBypassStrategies (extractBaseURL originalURL) (extractPath originalURL)) with
  | Some s => Build s originalURL userAgent cfg
  | None => None
  end.

(** [func executeBypassRequest(req, cfg, client)]: the Result and the body *)
Definition executeBypassRequest {W} (env : Env W) (req : HTTP.Request) (w : W)
  : option (Result * string) * W :=
  match roundTrip env req w with
  | (None, w) => (None, w)
  | (Some (resp, body), w) =>
      (Some (newResult env (urlString env req) (HTTP.Method req) EmptyString resp body w, body), w)
  end.

(** [strategy.Execute(ctx, originalURL, userAgent, cfg, client)] *)
Definition Execute {W} (env : Env W) (s : BypassStrategy) (originalURL userAgent : string)
    (cfg : Config) (w : W) : option (Result * string) * W :=
  match Build s originalURL userAgent cfg with
  | Some req => executeBypassRequest env req w
  | None => (None, w)
  end.

(** [type BypassResult struct] *)
Record BypassResult := {
  BypassResult_Result : Result;
  BypassResult_Body : string;
  BypassResult_Strategy : string
}.

(** The loop of [attemptBypassStrategies] over the strategies. *)
Fixpoint tryStrategies {W} (env : Env W) (strategies : list BypassStrategy)
    (originalURL userAgent : string) (cfg : Config) (w : W) : option BypassResult * W :=
  match strategies with
  | [] => (None, w)
  | strategy :: rest =>
      if ctxDone env w then (None, w)
      else
        match Execute env strategy originalURL userAgent cfg w with
        | (Some (result, body), w) =>
            if isBypassSuccess (StatusCode result) then
              let result := set_URL result (originalURL +:+ " [BYPASS:" +:+ Name strategy +:+ "]") in
              let result := set_Method result "GET+BYPASS" in
              (Some {| BypassResult_Result := result;
                       BypassResult_Body := body;
                       BypassResult_Strategy := Name strategy |}, w)
            else tryStrategies env rest originalURL userAgent cfg w
        | (None, w) => tryStrategies env rest originalURL userAgent cfg w
        end
  end.

(** [func attemptBypassStrategies(ctx, originalURL, userAgent, cfg, client) *BypassResult] *)
Definition attemptBypassStrategies {W} (env : Env W) (originalURL userAgent : string)
    (cfg : Config) (w : W) : option BypassResult * W :=
  let path := extractPath originalURL in
  let baseURL := extractBaseURL originalURL in
  tryStrategies env (buildBypassStrategies baseURL path) originalURL userAgent cfg w.

(** [var userAgents] *)
Definition userAgents : list string :=
  [ "Mozilla/5.0 (Windows NT 10.0; Win64; x64) AppleWebKit/537.36 (KHTML, like Gecko) Chrome/120.0.0.0 Safari/537.36";
    "Mozilla/5.0 (Macintosh; Intel Mac OS X 10_15_7) AppleWebKit/537.36 (KHTML, like Gecko) Chrome/120.0.0.0 Safari/537.36";
    "Mozilla/5.0 (Windows NT 10.0; Win64; x64; rv:121.0) Gecko/20100101 Firefox/121.0";
    "Mozilla/5.0 (X11; Linux x86_64) AppleWebKit/537.36 (KHTML, like Gecko) Chrome/120.0.0.0 Safari/537.36" ].

(** [func getRandomUserAgent(rng *rand.Rand) string] *)
Definition getRandomUserAgent {W} (env : Env W) (w : W) : string * W :=
  let '(i, w) := randIntn env (Z.of_nat (length userAgents)) w in
  (nth (Z.to_nat i) userAgents EmptyString, w).

(** Which statement of the worker sent a Result on [results]. *)
Inductive Origin := Primary | MethodFuzz | Bypass.

(** What one worker holds and touches while it runs: the world, the shared
    counters, its run of errors, what it sent on [results] and on
    [newTasks], and the counter of [taskWg]. *)
Record WorkerState (W : Type) := {
  world : W;
  stats : Stats;
  consecutiveErrors : Z;
  sent : list (Origin * Result);
  pushed : list Task;
  taskWg : Z
}.

Arguments world {W}.
Arguments stats {W}.
Arguments consecutiveErrors {W}.
Arguments sent {W}.
Arguments pushed {W}.
Arguments taskWg {W}.

Definition with_world {W} (st : WorkerState W) (w : W) : WorkerState W :=
  {| world := w; stats := stats st; consecutiveErrors := consecutiveErrors st;
     sent := sent st; pushed := pushed st; taskWg := taskWg st |}.

Definition with_stats {W} (st : WorkerState W) (f : Stats -> Stats) : WorkerState W :=
  {| world := world st; stats := f (stats st); consecutiveErrors := consecutiveErrors st;
     sent := sent st; pushed := pushed st; taskWg := taskWg st |}.

Definition with_consecutiveErrors {W} (st : WorkerState W) (n : Z) : WorkerState W :=
  {| world := world st; stats := stats st; consecutiveErrors := n;
     sent := sent st; pushed := pushed st; taskWg := taskWg st |}.

(** [results <- r] *)
Definition send {W} (st : WorkerState W) (o : Origin) (r : Result) : WorkerState W :=
  {| world := world st; stats := stats st; consecutiveErrors := consecutiveErrors st;
     sent := sent st ++ [(o, r)]; pushed := pushed st; taskWg := taskWg st |}.

(** [newTasks <- t] *)
Definition push {W} (st : WorkerState W) (t : Task) : WorkerState W :=
  {| world := world st; stats := stats st; consecutiveErrors := consecutiveErrors st;
     sent := sent st; pushed := pushed st ++ [t]; taskWg := taskWg st |}.

(** [taskWg.Add(delta)]; [taskWg.Done()] is [wgAdd st (-1)] *)
Definition wgAdd {W} (st : WorkerState W) (delta : Z) : WorkerState W :=
  {| world := world st; stats := stats st; consecutiveErrors := consecutiveErrors st;
     sent := sent st; pushed := pushed st; taskWg := taskWg st + delta |}.

Definition maxConsecutiveErrors : Z := 5.

Definition alternativeMethods : list string := ["POST"; "PUT"; "DELETE"; "PATCH"].

Definition nonempty {A} (l : list A) : bool :=
  match l with [] => false | _ :: _ => true end.

(** The [for _, method := range alternativeMethods] loop of the worker. *)
Fixpoint fuzzMethods {W} (env : Env W) (cfg : Config) (url userAgent : string)
    (methods : list string) (st : WorkerState W) : WorkerState W :=
  match methods with
  | [] => st
  | method :: rest =>
      if ctxDone env (world st) then st
      else
        let '(out, w) := makeRequest env cfg url method userAgent (world st) in
        let st := with_world st w in
        match out with
        | Some (methodResult, methodBody, methodResp) =>
            if (StatusCode methodResult =? 200) || (StatusCode methodResult =? 201)
               || (StatusCode methodResult =? 204) then
              let methodResult := set_Method methodResult method in
              let methodResult := set_Critical methodResult true in
              let secrets := DetectSecrets env methodBody in
              let '(methodResult, st) :=
                if nonempty secrets
                then (set_Secrets methodResult secrets, with_stats st IncrementSecrets)
                else (methodResult, st) in
              let techs := DetectTechNames env methodResp methodBody in
              let methodResult :=
                if nonempty techs then set_Technologies methodResult techs else methodResult in
              let st := with_stats st IncrementFound in
              send st MethodFuzz (AssignSeverityAndConfidence env methodResult)
            else fuzzMethods env cfg url userAgent rest st
        | None => fuzzMethods env cfg url userAgent rest st
        end
  end.

(** The body of [if isInteresting(result) { ... }]. *)
Definition interesting {W} (env : Env W) (cfg : Config) (task : Task) (url userAgent : string)
    (result : Result) (bodyContent : string) (resp : HTTP.Response) (st : WorkerState W)
  : WorkerState W :=
  let st := with_stats st IncrementFound in
  let '(result, st) :=
    if (StatusCode result =? 200) && (0 <? len bodyContent) then
      let secrets := DetectSecrets env bodyContent in
      if nonempty secrets
      then (set_Secrets result secrets, with_stats st IncrementSecrets)
      else (result, st)
    else (result, st) in
  let techs := DetectTechNames env resp bodyContent in
  let result := if nonempty techs then set_Technologies result techs else result in
  let st :=
    if negb (SafeMode cfg) && ((StatusCode result =? 403) || (StatusCode result =? 401)) then
      let '(bypassResult, w) := attemptBypassStrategies env url userAgent cfg (world st) in
      let st := with_world st w in
      match bypassResult with
      | Some b =>
          let r := set_Critical (BypassResult_Result b) true in
          let secrets := DetectSecrets env (BypassResult_Body b) in
          let '(r, st) :=
            if nonempty secrets
            then (set_Secrets r secrets, with_stats st IncrementSecrets)
            else (r, st) in
          send st Bypass (AssignSeverityAndConfidence env r)
      | None => st
      end
    else st in
  let st :=
    if (0 <? MaxDepth cfg) && (Depth task <? MaxDepth cfg) && isDirectory result then
      let dirPath := extractPath url in
      let st := wgAdd st 1 in
      if sendWins env (world st) then
        push st {| TargetURL := TargetURL task; Path := dirPath;
                   Depth := GoInt.add (Depth task) 1 |}
      else wgAdd st (-1)
    else st in
  send st Primary (AssignSeverityAndConfidence env result).

(** The body of the worker's [for task := range tasks] loop. *)
Definition processTask {W} (env : Env W) (cfg : Config)
    (calCache : gmap string (list Calibration.ResponseSignature))
    (task : Task) (st : WorkerState W) : WorkerState W :=
  if ctxDone env (world st) then wgAdd st (-1)
  else
    let url := TrimSuffix (TargetURL task) "/" +:+ "/" +:+ TrimPrefix (Path task) "/" in
    let '(userAgent, w) := getRandomUserAgent env (world st) in
    let '(out, w) := makeRequest env cfg url "GET" userAgent w in
    let st := with_stats (with_world st w) IncrementProcessed in
    match out with
    | None =>
        let st := with_stats st IncrementErrors in
        let st := with_consecutiveErrors st (GoInt.add (consecutiveErrors st) 1) in
        let st :=
          if maxConsecutiveErrors <=? consecutiveErrors st
          then with_consecutiveErrors (with_world st (cooldown env (world st))) 0
          else st in
        wgAdd st (-1)
    | Some (result, bodyContent, resp) =>
        let st := with_consecutiveErrors st 0 in
        let signatures := default [] (calCache !! TargetURL task) in
        if MatchesSignature env (StatusCode result) (Size result) (WordCount result)
             (LineCount result) signatures
        then wgAdd st (-1)
        else
          let st :=
            if (StatusCode result =? 405) && negb (SafeMode cfg)
            then fuzzMethods env cfg url userAgent alternativeMethods st
            else st in
          let st :=
            if isInteresting result
            then interesting env cfg task url userAgent result bodyContent resp st
            else st in
          wgAdd st (-1)
    end.

(** *** engine.go *)

(** The tasks the seeding goroutine sends, in its order. *)
Definition seedTasks (targets words extensions : list string) : list Task :=
  flat_map (fun target =>
    flat_map (fun word =>
      {| TargetURL := target; Path := word; Depth := 1 |}
      :: map (fun ext => {| TargetURL := target; Path := word +:+ ext; Depth := 1 |})
             extensions) words) targets.

(** The tasks the recursion consumer sends for one directory, in its order. *)
Definition fanOut (words extensions : list string) (newTask : Task) : list Task :=
  flat_map (fun word =>
    {| TargetURL := TargetURL newTask;
       Path := TrimSuffix (Path newTask) "/" +:+ "/" +:+ word;
       Depth := Depth newTask |}
    :: map (fun ext =>
              {| TargetURL := TargetURL newTask;
                 Path := TrimSuffix (Path newTask) "/" +:+ "/" +:+ word +:+ ext;
                 Depth := Depth newTask |}) extensions) words.

(** [int64(len(targets) * len(words) * (1 + len(e.config.Extensions)))] *)
Definition initialTaskCount (targets words extensions : list string) : Z :=
  GoInt.wrap (GoInt.wrap (Z.of_nat (length targets) * Z.of_nat (length words))
              * GoInt.add 1 (Z.of_nat (length extensions))).

(** The scan in flight: the world and counters, the three channels (what
    [results] carried is already collected), the directories recursed
    into, the tasks the seeder has yet to send, each worker's run of
    errors, and the history of everything ever sent on [tasks]. *)
Record EngineState (W : Type) := {
  e_world : W;
  e_stats : Stats;
  taskChan : list Task;
  newTaskChan : list Task;
  results : list Result;
  scannedDirs : gmap string (gset string);
  toSeed : list Task;
  workerErrors : gmap nat Z;
  e_taskWg : Z;
  enqueued : list Task
}.

Arguments e_world {W}.
Arguments e_stats {W}.
Arguments taskChan {W}.
Arguments newTaskChan {W}.
Arguments results {W}.
Arguments scannedDirs {W}.
Arguments toSeed {W}.
Arguments workerErrors {W}.
Arguments e_taskWg {W}.
Arguments enqueued {W}.

(** The state when the goroutines of [RunContext] start. *)
Definition initial {W} (cfg : Config) (targets words : list string) (w : W) : EngineState W :=
  {| e_world := w;
     e_stats := NewStats (initialTaskCount targets words (Extensions cfg));
     taskChan := [];
     newTaskChan := [];
     results := [];
     scannedDirs := ∅;
     toSeed := seedTasks targets words (Extensions cfg);
     workerErrors := ∅;
     e_taskWg := initialTaskCount targets words (Extensions cfg);
     enqueued := [] |}.

(** The aggregator: [results = append(results, result)] and the WAF counter. *)
Definition collect (acc : list Result * Stats) (r : Result) : list Result * Stats :=
  (fst acc ++ [r],
   if String.eqb (WAFDetected r) EmptyString then snd acc else IncrementWAFHits (snd acc)).

(** The seeding goroutine sends its next task. *)
Definition seedStep {W} (s : EngineState W) : option (EngineState W) :=
  match toSeed s with
  | [] => None
  | task :: rest =>
      Some {| e_world := e_world s; e_stats := e_stats s;
              taskChan := taskChan s ++ [task];
              newTaskChan := newTaskChan s; results := results s;
              scannedDirs := scannedDirs s; toSeed := rest;
              workerErrors := workerErrors s; e_taskWg := e_taskWg s;
              enqueued := enqueued s ++ [task] |}
  end.

(** The seeding goroutine returns on [ctx.Done()]. *)
Definition seedCancel {W} (s : EngineState W) : EngineState W :=
  {| e_world := e_world s; e_stats := e_stats s; taskChan := taskChan s;
     newTaskChan := newTaskChan s; results := results s;
     scannedDirs := scannedDirs s; toSeed := [];
     workerErrors := workerErrors s; e_taskWg := e_taskWg s;
     enqueued := enqueued s |}.

(** Worker [i] receives the head of [tasks] and runs the loop body on it. *)
Definition workerStep {W} (env : Env W) (cfg : Config)
    (calCache : gmap string (list Calibration.ResponseSignature))
    (i : nat) (s : EngineState W) : option (EngineState W) :=
  match taskChan s with
  | [] => None
  | task :: rest =>
      let st := processTask env cfg calCache task
                  {| world := e_world s; stats := e_stats s;
                     consecutiveErrors := default 0 (workerErrors s !! i);
                     sent := []; pushed := []; taskWg := e_taskWg s |} in
      let '(rs, stats) := fold_left collect (map snd (sent st)) (results s, stats st) in
      Some {| e_world := world st; e_stats := stats;
              taskChan := rest;
              newTaskChan := newTaskChan s ++ pushed st;
              results := rs;
              scannedDirs := scannedDirs s; toSeed := toSeed s;
              workerErrors := <[i := consecutiveErrors st]> (workerErrors s);
              e_taskWg := taskWg st;
              enqueued := enqueued s |}
  end.

(** The recursion consumer receives the head of [newTasks]; [k] is the
    number of sends on [tasks] that win against [ctx.Done()] (all of them
    when [ctx] stays live). *)
Definition consumerStep {W} (env : Env W) (cfg : Config) (words : list string)
    (k : nat) (s : EngineState W) : option (EngineState W) :=
  match newTaskChan s with
  | [] => None
  | newTask :: rest =>
      if ctxDone env (e_world s) then
        Some {| e_world := e_world s; e_stats := e_stats s; taskChan := taskChan s;
                newTaskChan := rest; results := results s;
                scannedDirs := scannedDirs s; toSeed := toSeed s;
                workerErrors := workerErrors s; e_taskWg := e_taskWg s - 1;
                enqueued := enqueued s |}
      else
        let dirs := default ∅ (scannedDirs s !! TargetURL newTask) in
        if negb (bool_decide (Path newTask ∈ dirs)) && (Depth newTask <=? MaxDepth cfg) then
          let out := firstn k (fanOut words (Extensions cfg) newTask) in
          Some {| e_world := e_world s;
                  e_stats := IncrementTotal (Z.of_nat (length out)) (e_stats s);
                  taskChan := taskChan s ++ out;
                  newTaskChan := rest; results := results s;
                  scannedDirs := <[TargetURL newTask := {[Path newTask]} ∪ dirs]> (scannedDirs s);
                  toSeed := toSeed s;
                  workerErrors := workerErrors s;
                  e_taskWg := e_taskWg s + Z.of_nat (length out) - 1;
                  enqueued := enqueued s ++ out |}
        else
          Some {| e_world := e_world s; e_stats := e_stats s; taskChan := taskChan s;
                  newTaskChan := rest; results := results s;
                  scannedDirs := <[TargetURL newTask := dirs]> (scannedDirs s);
                  toSeed := toSeed s;
                  workerErrors := workerErrors s; e_taskWg := e_taskWg s - 1;
                  enqueued := enqueued s |}
  end.

(** One step of the scan: some goroutine of [RunContext] moves.  The
    recursion consumer exists only when [MaxDepth > 0]. *)
Inductive step {W} (env : Env W) (cfg : Config) (words : list string)
    (calCache : gmap string (list Calibration.ResponseSignature))
  : EngineState W -> EngineState W -> Prop :=
| step_seed s s' :
    seedStep s = Some s' -> step env cfg words calCache s s'
| step_seed_cancel s :
    ctxDone env (e_world s) = true -> step env cfg words calCache s (seedCancel s)
| step_worker i s s' :
    Z.of_nat i < Threads cfg ->
    workerStep env cfg calCache i s = Some s' -> step env cfg words calCache s s'
| step_consumer k s s' :
    0 < MaxDepth cfg ->
    consumerStep env cfg words k s = Some s' -> step env cfg words calCache s s'.

(** The states a scan of [targets] with [words] passes through. *)
Inductive reachable {W} (env : Env W) (cfg : Config) (targets words : list string)
    (calCache : gmap string (list Calibration.ResponseSignature)) (w : W)
  : EngineState W -> Prop :=
| reachable_initial : reachable env cfg targets words calCache w (initial cfg targets words w)
| reachable_step s s' :
    reachable env cfg targets words calCache w s ->
    step env cfg words calCache s s' ->
    reachable env cfg targets words calCache w s'.

(** *** What the specification says about one task, in terms of the above *)

(** What the loop body sends on [results] while it handles [task]. *)
Definition emitted {W} (env : Env W) (cfg : Config)
    (calCache : gmap string (list Calibration.ResponseSignature))
    (task : Task) (st : WorkerState W) : list (Origin * Result) :=
  skipn (length (sent st)) (sent (processTask env cfg calCache task st)).

(** What the loop body sends on [newTasks] while it handles [task]. *)
Definition newlyPushed {W} (env : Env W) (cfg : Config)
    (calCache : gmap string (list Calibration.ResponseSignature))
    (task : Task) (st : WorkerState W) : list Task :=
  skipn (length (pushed st)) (pushed (processTask env cfg calCache task st)).

Definition origin_eqb (a b : Origin) : bool :=
  match a, b with
  | Primary, Primary | MethodFuzz, MethodFuzz | Bypass, Bypass => true
  | _, _ => false
  end.

(** The number of Results of one origin among those sent. *)
Definition count_origin (o : Origin) (l : list (Origin * Result)) : nat :=
  length (filter (fun e => origin_eqb (fst e) o) l).

(** A counter after [k] atomic additions of one. *)
Definition bump (k : nat) (x : Z) : Z := Nat.iter k (fun x => GoInt.add x 1) x.

(** The calibration entry of the task's target root. *)
Definition signaturesFor (calCache : gmap string (list Calibration.ResponseSignature))
    (task : Task) : list Calibration.ResponseSignature :=
  default [] (calCache !! TargetURL task).

(** The response a Result was built from matches a calibration signature. *)
Definition matchesBaseline {W} (env : Env W) (r : Result)
    (signatures : list Calibration.ResponseSignature) : bool :=
  MatchesSignature env (StatusCode r) (Size r) (WordCount r) (LineCount r) signatures.

(** Two Results describe a response of the same status and shape. *)
Definition same_shape (r r' : Result) : Prop :=
  StatusCode r' = StatusCode r /\ Size r' = Size r /\
  WordCount r' = WordCount r /\ LineCount r' = LineCount r /\ URL r' = URL r.

(** *** Scenarios *)

(** An environment over a world with nothing in it: [ctx] stays live, the
    first user agent is drawn, and [server] answers every request. *)
Definition scenario (server : HTTP.Request -> HTTP.Response * string) : Env unit :=
  {| ctxDone := fun _ => false;
     sendWins := fun _ => true;
     roundTrip := fun req w => (Some (server req), w);
     randIntn := fun _ w => (0, w);
     timestamp := fun _ => "2025-01-01T00:00:00Z";
     cooldown := fun w => w;
     urlString := HTTP.URL;
     fieldCount := FieldsCount;
     DetectWAF := fun _ => EmptyString;
     DetectSecrets := fun _ => [];
     DetectTechNames := fun _ _ => [];
     MatchesSignature := fun statusCode size _ _ signatures =>
       Calibration.MatchesSignature statusCode size signatures;
     severityOf := fun _ => "low";
     confidenceOf := fun _ => "high" |}.

Definition answer (statusCode : Z) (body : string) : HTTP.Response * string :=
  ({| HTTP.StatusCode := statusCode; HTTP.RespHeader := [] |}, body).

(** 405 for GET, 200 for POST. *)
Definition post_only_server (req : HTTP.Request) : HTTP.Response * string :=
  if String.eqb (HTTP.Method req) "POST" then answer 200 "OK"
  else answer 405 "Method Not Allowed".

(** 403 unless [X-Forwarded-For: 127.0.0.1] is sent. *)
Definition trusting_server (req : HTTP.Request) : HTTP.Response * string :=
  if String.eqb (HTTP.header_get "X-Forwarded-For" (HTTP.Header req)) "127.0.0.1"
  then answer 200 "OK"
  else answer 403 "Forbidden".

(** 301 for the directory [/api], 200 below it, 404 elsewhere. *)
Definition directory_server (req : HTTP.Request) : HTTP.Response * string :=
  if String.eqb (HTTP.URL req) "http://example.com/api" then answer 301 "Moved"
  else if String.eqb (HTTP.URL req) "http://example.com/api/users" then answer 200 "[]"
  else answer 404 "Not Found".

Definition scenario_config (maxDepth : Z) : Config :=
  {| Threads := 2; Extensions := []; MaxDepth := maxDepth; CustomHeaders := [];
     RateLimit := 0; SafeMode := false |}.

Definition endpoint_task : Task :=
  {| TargetURL := "http://example.com"; Path := "endpoint"; Depth := 1 |}.

(** A baseline that looks like the success page: [(200, 2, 1, 1)]. *)
Definition soft_baseline : gmap string (list Calibration.ResponseSignature) :=
  {[ "http://example.com" :=
       [ {| Calibration.StatusCode := 200; Calibration.Size := 2;
            Calibration.WordCount := 1; Calibration.LineCount := 1 |} ] ]}.

Definition idle : WorkerState unit :=
  {| world := tt; stats := NewStats 1; consecutiveErrors := 0;
     sent := []; pushed := []; taskWg := 1 |}.

(** The bound the specification puts on the depth of a task in [tasks]. *)
Definition depth_ok (cfg : Config) (t : Task) : Prop :=
  1 <= Depth t /\ (0 < MaxDepth cfg -> Depth t <= MaxDepth cfg).

(** What holds of the queues in every state of a scan. *)
Definition queues_ok {W} (cfg : Config) (s : EngineState W) : Prop :=
  Forall (depth_ok cfg) (enqueued s) /\
  Forall (depth_ok cfg) (taskChan s) /\
  Forall (fun t => Depth t = 1) (toSeed s) /\
  Forall (fun t => 1 <= Depth t) (newTaskChan s).

(** A run of the seventh testable property: depth 2, the word list
    [api, users], the directory [/api]; two sends of the seeder, then
    workers and the recursion consumer in turn until the queues are empty. *)
Definition advance (f : EngineState unit -> option (EngineState unit))
    (s : EngineState unit) : EngineState unit :=
  default s (f s).

Definition recursion_words : list string := ["api"; "users"].

Definition recursion_s0 : EngineState unit :=
  initial (scenario_config 2) ["http://example.com"] recursion_words tt.
Definition recursion_s1 : EngineState unit := advance seedStep recursion_s0.
Definition recursion_s2 : EngineState unit := advance seedStep recursion_s1.
Definition recursion_s3 : EngineState unit :=
  advance (workerStep (scenario directory_server) (scenario_config 2) ∅ 0) recursion_s2.
Definition recursion_s4 : EngineState unit :=
  advance (consumerStep (scenario directory_server) (scenario_config 2) recursion_words 2)
          recursion_s3.
Definition recursion_s5 : EngineState unit :=
  advance (workerStep (scenario directory_server) (scenario_config 2) ∅ 1) recursion_s4.
Definition recursion_s6 : EngineState unit :=
  advance (workerStep (scenario directory_server) (scenario_config 2) ∅ 0) recursion_s5.
Definition recursion_s7 : EngineState unit :=
  advance (workerStep (scenario directory_server) (scenario_config 2) ∅ 1) recursion_s6.

(** *** What [manipulateCase] does to the last segment *)

(** A letter in the other case, any other byte as it is. *)
Definition swapCase (c : ascii) : ascii :=
  if is_lower c then ascii_of_nat (nat_of_ascii c - 32)
  else if is_upper c then ascii_of_nat (nat_of_ascii c + 32)
  else c.

(** A segment with the case of its first byte swapped. *)
Definition toggleFirst (segment : string) : string :=
  match segment with
  | String first tail => String (swapCase first) tail
  | EmptyString => EmptyString
  end.

(** An environment that keeps the requests made: the world is the list of
    them, [ctx] stays live, and [server] answers or fails each request. *)
Definition recording (server : HTTP.Request -> option (HTTP.Response * string))
  : Env (list HTTP.Request) :=
  {| ctxDone := fun _ => false;
     sendWins := fun _ => true;
     roundTrip := fun req w => (server req, w ++ [req]);
     randIntn := fun _ w => (0, w);
     timestamp := fun _ => "2025-01-01T00:00:00Z";
     cooldown := fun w => w;
     urlString := HTTP.URL;
     fieldCount := FieldsCount;
     DetectWAF := fun _ => EmptyString;
     DetectSecrets := fun _ => [];
     DetectTechNames := fun _ _ => [];
     MatchesSignature := fun statusCode size _ _ signatures =>
       Calibration.MatchesSignature statusCode size signatures;
     severityOf := fun _ => "low";
     confidenceOf := fun _ => "high" |}.

(** The requests a worker makes while it handles [task]. *)
Definition requestsMade (server : HTTP.Request -> option (HTTP.Response * string))
    (cfg : Config) (calCache : gmap string (list Calibration.ResponseSignature))
    (task : Task) (st : WorkerState (list HTTP.Request)) : list HTTP.Request :=
  skipn (length (world st)) (world (processTask (recording server) cfg calCache task st)).

(** The 200, 201 and 204 the fuzzing loop accepts. *)
Definition isFuzzSuccess (statusCode : Z) : bool :=
  (statusCode =? 200) || (statusCode =? 201) || (statusCode =? 204).

(** The scenario configuration in safe mode. *)
Definition safe_config : Config :=
  {| Threads := 2; Extensions := []; MaxDepth := 0; CustomHeaders := [];
     RateLimit := 0; SafeMode := true |}.

Definition idle_recording : WorkerState (list HTTP.Request) :=
  {| world := []; stats := NewStats 1; consecutiveErrors := 0;
     sent := []; pushed := []; taskWg := 1 |}.

(** *** The WaitGroup and the queues *)

(** The tasks that sit in a queue or wait to be seeded. *)
Definition outstanding {W} (s : EngineState W) : Z :=
  Z.of_nat (length (toSeed s)) + Z.of_nat (length (taskChan s))
  + Z.of_nat (length (newTaskChan s)).


(** Several steps of the scan, one after the other. *)
Inductive steps {W} (env : Env W) (cfg : Config) (words : list string)
    (calCache : gmap string (list Calibration.ResponseSignature))
  : EngineState W -> EngineState W -> Prop :=
| steps_refl s : steps env cfg words calCache s s
| steps_step s s' s'' :
    steps env cfg words calCache s s' ->
    step env cfg words calCache s' s'' ->
    steps env cfg words calCache s s''.

(** The scenario with [ctx] cancelled from the start. *)
Definition cancelled (server : HTTP.Request -> HTTP.Response * string) : Env unit :=
  {| ctxDone := fun _ => true;
     sendWins := fun _ => false;
     roundTrip := fun req w => (Some (server req), w);
     randIntn := fun _ w => (0, w);
     timestamp := fun _ => "2025-01-01T00:00:00Z";
     cooldown := fun w => w;
     urlString := HTTP.URL;
     fieldCount := FieldsCount;
     DetectWAF := fun _ => EmptyString;
     DetectSecrets := fun _ => [];
     DetectTechNames := fun _ _ => [];
     MatchesSignature := fun statusCode size _ _ signatures =>
       Calibration.MatchesSignature statusCode size signatures;
     severityOf := fun _ => "low";
     confidenceOf := fun _ => "high" |}.

End Scanner.

(** ** detection/calibration.go: the cache and the calibration run *)

Module Calibrate.
Import GoStrings Calibration.

(** [type CalibrationCache struct]: the map under its lock. *)
Definition CalibrationCache := gmap string (list ResponseSignature).

(** [func NewCalibrationCache() *CalibrationCache] *)
Definition NewCalibrationCache : CalibrationCache := ∅.

(** [func (c *CalibrationCache) Get(targetURL string) ([]ResponseSignature, bool)];
    [None] stands for [(nil, false)]. *)
Definition Get (c : CalibrationCache) (targetURL : string) : option (list ResponseSignature) :=
  c !! targetURL.

(** [func (c *CalibrationCache) Set(targetURL string, sigs []ResponseSignature)] *)
Definition Set_ (c : CalibrationCache) (targetURL : string) (sigs : list ResponseSignature)
  : CalibrationCache :=
  <[targetURL := sigs]> c.

(** What a calibration run calls and does not define, over a world [W]
    that holds the servers and the random generator. *)
Record Env (W : Type) := {
  (** [calRandIntn(n)] *)
  calRandIntn : Z -> W -> Z * W;
  (** [http.NewRequest], [client.Do] and [io.ReadAll]; [None] is an error of any of them *)
  clientDo : HTTP.Request -> W -> option (HTTP.Response * string) * W;
  (** [len(strings.Fields(body))] *)
  fieldCount : string -> Z
}.

Arguments calRandIntn {W}.
Arguments clientDo {W}.
Arguments fieldCount {W}.

(** [func fetchSignature(url string, client *http.Client, headers map[string]string) *ResponseSignature] *)
Definition fetchSignature {W} (env : Env W) (url : string) (headers : list (string * string))
    (w : W) : option ResponseSignature * W :=
  let req := {| HTTP.Method := "GET"; HTTP.URL := url; HTTP.Opaque := None;
                HTTP.Header :=
                  HTTP.header_set_all headers
                    (HTTP.header_set "User-Agent"
                       "Mozilla/5.0 (Windows NT 10.0; Win64; x64) AppleWebKit/537.36" []) |} in
  match clientDo env req w with
  | (None, w) => (None, w)
  | (Some (resp, body), w) =>
      (Some {| StatusCode := HTTP.StatusCode resp;
               Size := len body;
               WordCount := fieldCount env body;
               LineCount := GoInt.add (CountByte body "010"%char) 1 |}, w)
  end.

(** The [for _, path := range randomPaths] loop of [PerformCalibration]. *)
Fixpoint fetchAll {W} (env : Env W) (targetURL : string) (headers : list (string * string))
    (randomPaths : list string) (signatures : list ResponseSignature) (w : W)
  : list ResponseSignature * W :=
  match randomPaths with
  | [] => (signatures, w)
  | path :: rest =>
      let url := TrimSuffix targetURL "/" +:+ path in
      match fetchSignature env url headers w with
      | (Some sig, w) => fetchAll env targetURL headers rest (signatures ++ [sig]) w
      | (None, w) => fetchAll env targetURL headers rest signatures w
      end
  end.

(** [func PerformCalibration(targetURL, client, headers, cache) []ResponseSignature]:
    the signatures returned, the cache and the world afterwards. *)
Definition PerformCalibration {W} (env : Env W) (targetURL : string)
    (headers : list (string * string)) (cache : CalibrationCache) (w : W)
  : list ResponseSignature * CalibrationCache * W :=
  match Get cache targetURL with
  | Some sigs => (sigs, cache, w)
  | None =>
      let '(n1, w) := calRandIntn env 999999 w in
      let '(n2, w) := calRandIntn env 999999 w in
      let '(n3, w) := calRandIntn env 999999 w in
      let randomPaths := [ "/capsaicin_cal_" +:+ pretty n1;
                           "/nonexistent_" +:+ pretty n2;
                           "/test404_" +:+ pretty n3 ] in
      let '(signatures, w) := fetchAll env targetURL headers randomPaths [] w in
      (signatures, Set_ cache targetURL signatures, w)
  end.

(** A target none of whose calibration requests succeeds; the world counts
    the requests made. *)
Definition unreachable_target : Env Z :=
  {| calRandIntn := fun _ w => (0, w);
     clientDo := fun _ w => (None, w + 1);
     fieldCount := FieldsCount |}.

End Calibrate.

(** ** detection/secrets.go *)

Module Secrets.

(** A Go string is read here as the sequence of runes that [range] yields
    on it.  The operations below cut at ASCII separators and trim runes, so
    on well-formed UTF-8 they give the runes of what the byte-level
    operations of Go give. *)
Definition rune := Z.
Definition text := list rune.

(** The runes of an ASCII literal. *)
Definition runes (s : string) : text :=
  map (fun c => Z.of_nat (nat_of_ascii c)) (list_ascii_of_string s).

(** [unicode.IsSpace] *)
Definition IsSpace (r : rune) : bool :=
  ((9 <=? r) && (r <=? 13)) || (r =? 32) || (r =? 133) || (r =? 160) || (r =? 5760)
  || ((8192 <=? r) && (r <=? 8202)) || (r =? 8232) || (r =? 8233) || (r =? 8239)
  || (r =? 8287) || (r =? 12288).

Fixpoint dropWhile (p : rune -> bool) (s : text) : text :=
  match s with
  | [] => []
  | r :: rest => if p r then dropWhile p rest else s
  end.

(** [strings.TrimFunc]: runes satisfying [p] are cut from both ends. *)
Definition TrimFunc (p : rune -> bool) (s : text) : text :=
  rev (dropWhile p (rev (dropWhile p s))).

(** [strings.TrimSpace] *)
Definition TrimSpace (s : text) : text := TrimFunc IsSpace s.

(** [strings.Trim(s, cutset)] *)
Definition Trim (s cutset : text) : text :=
  TrimFunc (fun r => existsb (Z.eqb r) cutset) s.

(** [strings.LastIndex(s, sep)] for a one-rune separator: the position of
    its last occurrence. *)
Fixpoint LastIndexRune (s : text) (sep : rune) : option nat :=
  match s with
  | [] => None
  | r :: rest =>
      match LastIndexRune rest sep with
      | Some i => Some (S i)
      | None => if r =? sep then Some O else None
      end
  end.

Definition quote : rune := 34.
Definition apostrophe : rune := 39.

(** The separators of [extractValue], in the order of its slice literal. *)
Definition separators : list rune := [61; 58; quote; apostrophe].

(** The [for _, sep := range ...] loop of [extractValue]. *)
Fixpoint extractValueFrom (seps : list rune) (m : text) : text :=
  match seps with
  | [] => m
  | sep :: rest =>
      match LastIndexRune m sep with
      | Some idx =>
          let val := TrimSpace (skipn (S idx) m) in
          let val := Trim val [quote; apostrophe; 32] in
          if (0 <? length val)%nat then val else extractValueFrom rest m
      | None => extractValueFrom rest m
      end
  end.

(** [func extractValue(match string) string] *)
Definition extractValue (m : text) : text := extractValueFrom separators m.

(** [freq[c]++] *)
Definition tally (freq : gmap Z Z) (c : rune) : gmap Z Z :=
  <[c := default 0 (freq !! c) + 1]> freq.

(** [freq := make(map[rune]float64); for _, c := range s { freq[c]++ }] *)
Definition frequencies (s : text) : gmap Z Z := fold_left tally s ∅.



(** The product of [count ^ count] over the frequency table. *)
Definition count_power_product (s : text) : Z :=
  fold_right (fun kv acc => snd kv ^ snd kv * acc) 1 (map_to_list (frequencies s)).

(** [ShannonEntropy(s) < min] for a positive [min], decided over the
    integers.  With [n] runes and counts [c_i] the entropy is
    [log2 n - (sum of c_i * log2 c_i) / n]; it is below [a / b] exactly when
    [n ^ (b * n) < 2 ^ (a * n) * (product of c_i ^ c_i) ^ b].  The empty
    string has entropy 0. *)
Definition entropy_below (s : text) (min : Q) : bool :=
  let n := Z.of_nat (length s) in
  if n =? 0 then negb (Qle_bool min 0)
  else
    let a := Qnum min in
    let b := Z.pos (Qden min) in
    n ^ (b * n) <? 2 ^ (a * n) * count_power_product s ^ b.

(** [type Severity string] *)
Inductive Severity := SeverityCritical | SeverityHigh | SeverityMedium | SeverityLow.

(** [type SecretPattern struct]; [Pattern] is the source of the regular
    expression, [MinEntropy] is 0 where the literal leaves it out. *)
Record SecretPattern := {
  Name : string;
  Pattern : string;
  PatternSeverity : Severity;
  MinEntropy : Q;
  RequireContext : bool
}.

(** [type SecretMatch struct] *)
Record SecretMatch := {
  MatchName : string;
  MatchSeverity : Severity;
  Redacted : text
}.

Definition dq : string := String (ascii_of_nat 34) EmptyString.

(** The last entry of [Patterns]. *)
Definition GenericPassword : SecretPattern :=
  {| Name := "Generic Password";
     Pattern := "(?i)(password|passwd|pwd)[" +:+ dq +:+ "'\s:=]+([^\s" +:+ dq +:+ "']{8,})";
     PatternSeverity := SeverityMedium; MinEntropy := 3; RequireContext := false |}.

(** [var Patterns] *)
Definition Patterns : list SecretPattern :=
  [ {| Name := "AWS Access Key";
       Pattern := "AKIA[0-9A-Z]{16}";
       PatternSeverity := SeverityCritical; MinEntropy := 0; RequireContext := false |};
    {| Name := "AWS Secret Key";
       Pattern := "(?i)(aws_secret_access_key|aws_secret_key)[" +:+ dq +:+ "'\s:=]+[A-Za-z0-9/+=]{40}";
       PatternSeverity := SeverityCritical; MinEntropy := 0; RequireContext := false |};
    {| Name := "Generic API Key";
       Pattern := "(?i)(api[_-]?key|apikey|access[_-]?token|auth[_-]?token)[" +:+ dq
                  +:+ "'\s:=]+([a-zA-Z0-9_\-]{20,})";
       PatternSeverity := SeverityMedium; MinEntropy := 3; RequireContext := false |};
    {| Name := "Private Key";
       Pattern := "-----BEGIN (RSA |EC |OPENSSH |DSA )?PRIVATE KEY-----";
       PatternSeverity := SeverityCritical; MinEntropy := 0; RequireContext := false |};
    {| Name := "JWT Token";
       Pattern := "eyJ[A-Za-z0-9_-]{10,}\.[A-Za-z0-9_-]{10,}\.[A-Za-z0-9_-]{10,}";
       PatternSeverity := SeverityHigh; MinEntropy := 0; RequireContext := false |};
    {| Name := "Slack Token";
       Pattern := "xox[baprs]-[0-9]{10,13}-[0-9]{10,13}-[a-zA-Z0-9]{24,}";
       PatternSeverity := SeverityHigh; MinEntropy := 0; RequireContext := false |};
    {| Name := "Google API Key";
       Pattern := "AIza[0-9A-Za-z_-]{35}";
       PatternSeverity := SeverityHigh; MinEntropy := 0; RequireContext := false |};
    {| Name := "GitHub Token";
       Pattern := "gh[pousr]_[A-Za-z0-9_]{36,255}";
       PatternSeverity := SeverityCritical; MinEntropy := 0; RequireContext := false |};
    {| Name := "Stripe Secret Key";
       Pattern := "sk_live_[0-9a-zA-Z]{24,}";
       PatternSeverity := SeverityCritical; MinEntropy := 0; RequireContext := false |};
    {| Name := "Stripe Publishable Key";
       Pattern := "pk_live_[0-9a-zA-Z]{24,}";
       PatternSeverity := SeverityLow; MinEntropy := 0; RequireContext := false |};
    {| Name := "Heroku API Key";
       Pattern := "(?i)heroku.*[0-9a-fA-F]{8}-[0-9a-fA-F]{4}-[0-9a-fA-F]{4}-[0-9a-fA-F]{4}-[0-9a-fA-F]{12}";
       PatternSeverity := SeverityHigh; MinEntropy := 0; RequireContext := false |};
    {| Name := "Database Connection String";
       Pattern := "(?i)(postgres|mysql|mongodb|redis)://[^\s" +:+ dq +:+ "']+:[^\s" +:+ dq
                  +:+ "']+@[^\s" +:+ dq +:+ "']+";
       PatternSeverity := SeverityCritical; MinEntropy := 0; RequireContext := false |};
    {| Name := "Mailgun API Key";
       Pattern := "key-[0-9a-zA-Z]{32}";
       PatternSeverity := SeverityHigh; MinEntropy := 0; RequireContext := false |};
    {| Name := "Twilio API Key";
       Pattern := "SK[0-9a-fA-F]{32}";
       PatternSeverity := SeverityHigh; MinEntropy := 0; RequireContext := false |};
    GenericPassword ].

(** [func RedactSecret(secret string) string]; offsets count runes, which
    are the bytes of an ASCII match. *)
Definition RedactSecret (secret : text) : text :=
  let n := length secret in
  if (n <=? 8)%nat then repeat 42 n
  else firstn 4 secret ++ repeat 42 (n - 8) ++ skipn (n - 4) secret.

(** The regular-expression engine: [find pattern content] is the leftmost
    match of [regexp.MustCompile(pattern)] in [content], if there is one
    ([MatchString] tells whether, [FindString] returns it). *)
Definition Regexp := string -> text -> option text.

(** The [for _, pattern := range Patterns] loop of [DetectSecretsDetailed]:
    [secretMap] are the names recorded so far. *)
Fixpoint detectLoop (find : Regexp) (patterns : list SecretPattern) (content : text)
    (secretMap : gset string) (foundSecrets : list SecretMatch) : list SecretMatch :=
  match patterns with
  | [] => foundSecrets
  | pattern :: rest =>
      match find (Pattern pattern) content with
      | Some m =>
          if bool_decide (Name pattern ∈ secretMap)
          then detectLoop find rest content secretMap foundSecrets
          else if negb (Qle_bool (MinEntropy pattern) 0)
                  && entropy_below (extractValue m) (MinEntropy pattern)
          then detectLoop find rest content secretMap foundSecrets
          else detectLoop find rest content ({[Name pattern]} ∪ secretMap)
                 (foundSecrets ++ [ {| MatchName := Name pattern;
                                       MatchSeverity := PatternSeverity pattern;
                                       Redacted := RedactSecret m |} ])
      | None => detectLoop find rest content secretMap foundSecrets
      end
  end.

(** [func DetectSecretsDetailed(content string) []SecretMatch] *)
Definition DetectSecretsDetailed (find : Regexp) (content : text) : list SecretMatch :=
  detectLoop find Patterns content ∅ [].

(** [func DetectSecrets(content string) []string] *)
Definition DetectSecrets (find : Regexp) (content : text) : list string :=
  map MatchName (DetectSecretsDetailed find content).

(** *** The frequency table as a list of counts *)

Definition counts (s : text) : list Z := map snd (map_to_list (frequencies s)).





(** *** What the specification says, in terms of the above *)

(** The value one separator yields: what follows its last occurrence,
    trimmed of white space and then of quotes and spaces; none when the
    separator does not occur or nothing is left. *)
Definition candidate (m : text) (sep : rune) : option text :=
  match LastIndexRune m sep with
  | Some idx =>
      let val := Trim (TrimSpace (skipn (S idx) m)) [quote; apostrophe; 32] in
      if (0 <? length val)%nat then Some val else None
  | None => None
  end.




(** *** The specification's reading of the value portion *)



End Secrets.

(** ** detection/waf.go: the body check *)

Module WAF.
Import GoStrings.

Definition lower_byte (c : ascii) : ascii :=
  if (nat_of_ascii "A" <=? nat_of_ascii c)%nat && (nat_of_ascii c <=? nat_of_ascii "Z")%nat
  then ascii_of_nat (nat_of_ascii c + 32) else c.

(** [strings.ToLower] on ASCII text (the library maps the letters of other
    scripts as well). *)
Fixpoint ToLower (s : string) : string :=
  match s with
  | EmptyString => EmptyString
  | String c rest => String (lower_byte c) (ToLower rest)
  end.

(** The entries of the map literal [bodyPatterns], as the source lists them. *)
Definition bodyPatterns : list (string * string) :=
  [ ("Access Denied", "Generic WAF");
    ("Request blocked", "Generic WAF");
    ("Sorry, you have been blocked", "Cloudflare");
    ("This request has been blocked", "Generic WAF");
    ("Web Application Firewall", "Generic WAF");
    ("<title>Attention Required", "Cloudflare");
    ("<title>Just a moment", "Cloudflare");
    ("Powered by Wordfence", "Wordfence");
    ("ModSecurity", "ModSecurity");
    ("<title>403 Forbidden</title>", "Generic WAF") ].

(** The [for pattern, wafName := range bodyPatterns] loop, over the
    entries in the order the iteration visits them. *)
Fixpoint firstMatch (visited : list (string * string)) (lowerBody : string) : string :=
  match visited with
  | [] => EmptyString
  | (pattern, wafName) :: rest =>
      if Contains lowerBody (ToLower pattern) then wafName
      else firstMatch rest lowerBody
  end.

(** [func DetectWAFFromBody(body string, statusCode int) string].
    [bodyPatterns] is a Go map: a [range] over it visits the entries in an
    order the language leaves unspecified and the runtime randomises, so
    the visiting order [order] (some permutation of the entries) is an
    input of each evaluation. *)
Definition DetectWAFFromBody (order : list (string * string)) (body : string) (statusCode : Z)
  : string :=
  let lowerBody := ToLower body in
  firstMatch order lowerBody.

(** An order in which one [range] may visit the map. *)
Definition iteration_order (order : list (string * string)) : Prop :=
  Permutation order bodyPatterns.

(** *** The header check *)

(** [type WAFSignature struct] *)
Record WAFSignature := {
  Name : string;
  ServerHeader : string;
  CustomHeader : string;
  CookiePattern : string;
  BodyPattern : string;
  StatusPattern : Z
}.

Definition byServer (name serverHeader : string) : WAFSignature :=
  {| Name := name; ServerHeader := serverHeader; CustomHeader := EmptyString;
     CookiePattern := EmptyString; BodyPattern := EmptyString; StatusPattern := 0 |}.

Definition byHeader (name customHeader : string) : WAFSignature :=
  {| Name := name; ServerHeader := EmptyString; CustomHeader := customHeader;
     CookiePattern := EmptyString; BodyPattern := EmptyString; StatusPattern := 0 |}.

Definition byCookie (name cookiePattern : string) : WAFSignature :=
  {| Name := name; ServerHeader := EmptyString; CustomHeader := EmptyString;
     CookiePattern := cookiePattern; BodyPattern := EmptyString; StatusPattern := 0 |}.

(** [var WAFSignatures] *)
Definition WAFSignatures : list WAFSignature :=
  [ {| Name := "Cloudflare"; ServerHeader := "cloudflare"; CustomHeader := EmptyString;
       CookiePattern := "__cfduid"; BodyPattern := EmptyString; StatusPattern := 0 |};
    byHeader "AWS WAF" "X-Amz-Cf-Id";
    byServer "Akamai" "AkamaiGHost";
    byHeader "Imperva" "X-Iinfo";
    byCookie "F5 BigIP" "BIGipServer";
    byServer "Sucuri" "Sucuri";
    byServer "StackPath" "StackPath";
    byHeader "Wordfence" "X-Wf-";
    byServer "Barracuda" "Barracuda";
    byServer "ModSecurity" "Mod_Security";
    byCookie "Fortinet FortiWeb" "FORTIWAFSID";
    byHeader "AWS Shield" "X-Amzn-Trace-Id";
    byCookie "DenyAll" "sessioncookie";
    byHeader "Cloudfront" "X-Amz-Cf-Pop";
    byHeader "Fastly" "X-Fastly-Request-ID";
    byHeader "Varnish" "X-Varnish" ].

(** The three tests of one signature in the loop of [DetectWAF].
    [headers] are the entries of [resp.Header] in the order a [range] visits
    them, [cookies] the names of [resp.Cookies()]. *)
Definition signatureMatches (waf : WAFSignature) (headers : list (string * string))
    (cookies : list string) : bool :=
  (negb (String.eqb (ServerHeader waf) EmptyString)
   && Contains (ToLower (HTTP.header_get "Server" headers)) (ToLower (ServerHeader waf)))
  || (negb (String.eqb (CustomHeader waf) EmptyString)
      && existsb (fun header => Contains (ToLower (fst header)) (ToLower (CustomHeader waf)))
                 headers)
  || (negb (String.eqb (CookiePattern waf) EmptyString)
      && existsb (fun cookie => Contains cookie (CookiePattern waf)) cookies).

(** The [for _, waf := range WAFSignatures] loop. *)
Fixpoint firstSignature (signatures : list WAFSignature) (headers : list (string * string))
    (cookies : list string) : string :=
  match signatures with
  | [] => EmptyString
  | waf :: rest =>
      if signatureMatches waf headers cookies then Name waf
      else firstSignature rest headers cookies
  end.

(** [func DetectWAF(resp *http.Response) string], on the headers and the
    cookie names of the response. *)
Definition DetectWAF (headers : list (string * string)) (cookies : list string) : string :=
  firstSignature WAFSignatures headers cookies.

End WAF.

(** ** reporting/json.go *)

Module Reporting.
Import GoStrings.

(** [type ScanMetadata struct] *)
Record ScanMetadata := {
  StartTime : string;
  EndTime : string;
  TargetCount : Z;
  TargetsHash : string;
  TotalResults : Z;
  Version : string
}.

(** [type ScanReport struct] *)
Record ScanReport := {
  SchemaVersion : string;
  RunID : string;
  Metadata : ScanMetadata;
  Results : list Scanner.Result
}.

(** The comparison both [sort.Slice] calls are given. *)
Definition less (a b : Scanner.Result) : bool :=
  if negb (String.eqb (Scanner.URL a) (Scanner.URL b))
  then String.ltb (Scanner.URL a) (Scanner.URL b)
  else Scanner.StatusCode a <? Scanner.StatusCode b.

(** One pass of the inner loop of insertion sort: [x] moves left past the
    elements it is less than; [sorted_rev] is the part already sorted, last
    element first. *)
Fixpoint sinkLeft (x : Scanner.Result) (sorted_rev : list Scanner.Result) : list Scanner.Result :=
  match sorted_rev with
  | [] => [x]
  | p :: ps => if less x p then p :: sinkLeft x ps else x :: sorted_rev
  end.

(** [sort.Slice(sorted, less)].  The library sorts runs of at most twelve
    elements by insertion, and longer slices by a quicksort built on it; the
    result is in both cases a permutation of the input in which no element
    is [less] than its predecessor. *)
Definition sortSlice (l : list Scanner.Result) : list Scanner.Result :=
  rev (fold_left (fun sorted_rev x => sinkLeft x sorted_rev) l []).

(** [func hashStrings(ss []string) string], over the digest
    [fmt.Sprintf("%x", h.Sum(nil))] of SHA-256. *)
Definition hashStrings (sha256_hex : string -> string) (ss : list string) : string :=
  take 16 (sha256_hex (fold_left String.append ss EmptyString)).

(** The [ScanReport] value [SaveJSONReport] hands to the encoder;
    [start] and [finish] are the two readings
    [time.Now().Format(time.RFC3339)]. *)
Definition buildReport (sha256_hex : string -> string) (results : list Scanner.Result)
    (targets : list string) (runID start finish : string) : ScanReport :=
  let sorted := sortSlice results in
  {| SchemaVersion := "3.0";
     RunID := runID;
     Metadata := {| StartTime := start;
                    EndTime := finish;
                    TargetCount := Z.of_nat (length targets);
                    TargetsHash := hashStrings sha256_hex targets;
                    TotalResults := Z.of_nat (length sorted);
                    Version := "3.0.0" |};
     Results := sorted |}.

(** *** encoding/json with [SetIndent("", "  ")] *)

Definition hex4 (n : nat) : string :=
  "00" +:+ String (Scanner.hex_digit (n / 16)) (String (Scanner.hex_digit (n mod 16)) EmptyString).

(** The escape of one byte inside a JSON string (the encoder escapes HTML).
    The bytes of a rune outside ASCII are copied; the encoder also escapes
    U+2028 and U+2029 and replaces bytes that are not UTF-8. *)
Definition escapeByte (c : ascii) : string :=
  let n := nat_of_ascii c in
  if (n =? 34)%nat then String "\" (String c EmptyString)
  else if (n =? 92)%nat then String "\" (String c EmptyString)
  else if (n =? 10)%nat then "\n"
  else if (n =? 13)%nat then "\r"
  else if (n =? 9)%nat then "\t"
  else if (n <? 32)%nat || (n =? 60)%nat || (n =? 62)%nat || (n =? 38)%nat
       then "\u" +:+ hex4 n
  else String c EmptyString.

Fixpoint escape (s : string) : string :=
  match s with
  | EmptyString => EmptyString
  | String c rest => escapeByte c +:+ escape rest
  end.

Definition quoted (s : string) : string :=
  String (ascii_of_nat 34) (escape s +:+ String (ascii_of_nat 34) EmptyString).

Definition jsonString (s : string) : string := quoted s.
Definition jsonInt (z : Z) : string := pretty z.
Definition jsonBool (b : bool) : string := if b then "true" else "false".

Fixpoint indent (depth : nat) : string :=
  match depth with
  | O => EmptyString
  | S d => "  " +:+ indent d
  end.

Definition newline : string := String (ascii_of_nat 10) EmptyString.

Fixpoint joinLines (depth : nat) (items : list string) : string :=
  match items with
  | [] => EmptyString
  | [x] => indent depth +:+ x
  | x :: rest => indent depth +:+ x +:+ "," +:+ newline +:+ joinLines depth rest
  end.

(** An array at nesting [depth]. *)
Definition jsonArray (depth : nat) (items : list string) : string :=
  match items with
  | [] => "[]"
  | _ => "[" +:+ newline +:+ joinLines (S depth) items +:+ newline +:+ indent depth +:+ "]"
  end.

(** An object at nesting [depth], from its [key: value] members. *)
Definition jsonObject (depth : nat) (members : list (string * string)) : string :=
  match members with
  | [] => "{}"
  | _ => "{" +:+ newline
         +:+ joinLines (S depth) (map (fun kv => quoted (fst kv) +:+ ": " +:+ snd kv) members)
         +:+ newline +:+ indent depth +:+ "}"
  end.

(** [omitempty] on a string and on a slice of strings. *)
Definition omitemptyString (key s : string) : list (string * string) :=
  if String.eqb s EmptyString then [] else [(key, jsonString s)].

Definition omitemptyStrings (depth : nat) (key : string) (l : list string)
  : list (string * string) :=
  match l with
  | [] => []
  | _ => [(key, jsonArray depth (map jsonString l))]
  end.

(** A [scanner.Result], by the tags of its fields. *)
Definition jsonResult (depth : nat) (r : Scanner.Result) : string :=
  jsonObject depth
    ([ ("url", jsonString (Scanner.URL r));
       ("status_code", jsonInt (Scanner.StatusCode r));
       ("size", jsonInt (Scanner.Size r));
       ("word_count", jsonInt (Scanner.WordCount r));
       ("line_count", jsonInt (Scanner.LineCount r));
       ("critical", jsonBool (Scanner.Critical r));
       ("severity", jsonString (Scanner.Severity r));
       ("confidence", jsonString (Scanner.Confidence r)) ]
     ++ omitemptyStrings (S depth) "tags" (Scanner.Tags r)
     ++ [ ("method", jsonString (Scanner.Method r));
          ("timestamp", jsonString (Scanner.Timestamp r)) ]
     ++ omitemptyString "server" (Scanner.Server r)
     ++ omitemptyString "powered_by" (Scanner.PoweredBy r)
     ++ [ ("user_agent", jsonString (Scanner.UserAgent r));
          ("secret_found", jsonBool (Scanner.SecretFound r)) ]
     ++ omitemptyStrings (S depth) "secret_types" (Scanner.SecretTypes r)
     ++ omitemptyString "waf_detected" (Scanner.WAFDetected r)
     ++ omitemptyStrings (S depth) "technologies" (Scanner.Technologies r)).

Definition jsonMetadata (depth : nat) (m : ScanMetadata) : string :=
  jsonObject depth
    [ ("start_time", jsonString (StartTime m));
      ("end_time", jsonString (EndTime m));
      ("target_count", jsonInt (TargetCount m));
      ("targets_hash", jsonString (TargetsHash m));
      ("total_results", jsonInt (TotalResults m));
      ("version", jsonString (Version m)) ].

(** [encoder.Encode(report)]: the value and a newline. *)
Definition encodeReport (report : ScanReport) : string :=
  jsonObject 0
    [ ("schema_version", jsonString (SchemaVersion report));
      ("run_id", jsonString (RunID report));
      ("metadata", jsonMetadata 1 (Metadata report));
      ("results", jsonArray 1 (map (jsonResult 2) (Results report))) ]
  +:+ newline.

(** [func SaveJSONReport(results, filename, targets, runID) error]: the
    bytes written to the file when it can be created. *)
Definition SaveJSONReport (sha256_hex : string -> string) (results : list Scanner.Result)
    (targets : list string) (runID start finish : string) : string :=
  encodeReport (buildReport sha256_hex results targets runID start finish).

(** [func SaveJSON(results, filename) error]: likewise, the flat array. *)
Definition SaveJSON (results : list Scanner.Result) : string :=
  jsonArray 0 (map (jsonResult 1) (sortSlice results)) +:+ newline.

(** Ascending by URL, then by status code: [a] may stand before [b]. *)
Definition ordered (a b : Scanner.Result) : Prop :=
  String.ltb (Scanner.URL a) (Scanner.URL b) = true \/
  (Scanner.URL a = Scanner.URL b /\ Scanner.StatusCode a <= Scanner.StatusCode b).

(** [sorted_rev] lists a sorted run backwards. *)
Definition descending (l : list Scanner.Result) : Prop :=
  Sorted (fun a b => less a b = false) l.

(** The two fields the comparison looks at. *)
Definition sortKey (r : Scanner.Result) : string * Z := (Scanner.URL r, Scanner.StatusCode r).

(** A Result of the given URL and status code, as [makeRequest] fills it
    in for an empty body. *)
Definition sample (url : string) (statusCode : Z) : Scanner.Result :=
  Scanner.newResult (Scanner.scenario (fun _ => Scanner.answer statusCode EmptyString))
    url "GET" "agent" {| HTTP.StatusCode := statusCode; HTTP.RespHeader := [] |} EmptyString tt.

(** *** Counting by status *)

(** [counts[key]++] *)
Definition increment (key : string) (counts : gmap string Z) : gmap string Z :=
  <[key := GoInt.add (default 0 (counts !! key)) 1]> counts.

(** The body of the loop of [CountByStatus] for one Result. *)
Definition countResult (counts : gmap string Z) (r : Scanner.Result) : gmap string Z :=
  let statusCode := Scanner.StatusCode r in
  let counts :=
    if (200 <=? statusCode) && (statusCode <? 300) then increment "2xx" counts
    else if (300 <=? statusCode) && (statusCode <? 400) then increment "3xx" counts
    else if (400 <=? statusCode) && (statusCode <? 500) then increment "4xx" counts
    else if 500 <=? statusCode then increment "5xx" counts
    else counts in
  let counts := if Scanner.Critical r then increment "critical" counts else counts in
  let counts := if Scanner.SecretFound r then increment "secrets" counts else counts in
  if negb (String.eqb (Scanner.WAFDetected r) EmptyString) then increment "waf" counts
  else counts.

(** The keys of the map [CountByStatus] returns. *)
Definition countKeys : list string := ["2xx"; "3xx"; "4xx"; "5xx"; "critical"; "secrets"; "waf"].

(** [func CountByStatus(results []scanner.Result) map[string]int] *)
Definition CountByStatus (results : list Scanner.Result) : gmap string Z :=
  fold_left countResult results
    (list_to_map (map (fun key => (key, 0)) countKeys)).

(** The number of Results that satisfy [p]. *)
Definition countIf (p : Scanner.Result -> bool) (results : list Scanner.Result) : Z :=
  Z.of_nat (length (List.filter p results)).

(** The classes of [CountByStatus]. *)
Definition is2xx (r : Scanner.Result) : bool :=
  (200 <=? Scanner.StatusCode r) && (Scanner.StatusCode r <? 300).
Definition is3xx (r : Scanner.Result) : bool :=
  (300 <=? Scanner.StatusCode r) && (Scanner.StatusCode r <? 400).
Definition is4xx (r : Scanner.Result) : bool :=
  (400 <=? Scanner.StatusCode r) && (Scanner.StatusCode r <? 500).
Definition is5xx (r : Scanner.Result) : bool := 500 <=? Scanner.StatusCode r.
Definition hasWAF (r : Scanner.Result) : bool :=
  negb (String.eqb (Scanner.WAFDetected r) EmptyString).

(** The map with the seven keys and these values. *)
Definition countTable (n2 n3 n4 n5 critical secrets waf : Z) : gmap string Z :=
  list_to_map [ ("2xx", n2); ("3xx", n3); ("4xx", n4); ("5xx", n5);
                ("critical", critical); ("secrets", secrets); ("waf", waf) ].

(** The value under a key, as an indexing expression [counts[key]] reads it. *)
Definition countOf (counts : gmap string Z) (key : string) : Z := default 0 (counts !! key).

(** The counts [CountByStatus] has after the Results [results]. *)
Definition tableOf (results : list Scanner.Result) : gmap string Z :=
  countTable (countIf is2xx results) (countIf is3xx results) (countIf is4xx results)
             (countIf is5xx results) (countIf Scanner.Critical results)
             (countIf Scanner.SecretFound results) (countIf hasWAF results).

End Reporting.

(** * Properties *)

(** ** Machine integers *)

Module GoIntFacts.

Lemma wrap_id (z : Z) : GoInt.in_range z -> GoInt.wrap z = z.
Proof.
  unfold GoInt.in_range, GoInt.min_int, GoInt.max_int, GoInt.wrap. intros H.
  rewrite Z.mod_small; lia.
Qed.

Lemma wrap_in_range (z : Z) : GoInt.in_range (GoInt.wrap z).
Proof.
  unfold GoInt.in_range, GoInt.min_int, GoInt.max_int, GoInt.wrap.
  pose proof (Z.mod_pos_bound (z + 2 ^ 63) (2 ^ 64) ltac:(lia)). lia.
Qed.

Lemma wrap_add_wrap_l (a b : Z) : GoInt.wrap (GoInt.wrap a + b) = GoInt.wrap (a + b).
Proof.
  unfold GoInt.wrap. f_equal.
  replace ((a + 2 ^ 63) mod 2 ^ 64 - 2 ^ 63 + b + 2 ^ 63)
    with ((a + 2 ^ 63) mod 2 ^ 64 + b) by ring.
  rewrite Z.add_mod_idemp_l by lia. f_equal. ring.
Qed.

End GoIntFacts.

(** ** Strings *)

Module GoStringsFacts.
Import GoStrings.

Lemma CountByte_nonneg (s : string) (sep : ascii) : 0 <= CountByte s sep.
Proof. induction s as [|c s IH]; simpl; [lia|]. destruct (Ascii.eqb c sep); lia. Qed.

Lemma CountByte_cons_zero (c : ascii) (s : string) (sep : ascii) :
  CountByte (String c s) sep = 0 -> c <> sep /\ CountByte s sep = 0.
Proof.
  simpl. pose proof (CountByte_nonneg s sep).
  destruct (Ascii.eqb_spec c sep); [lia|]. intros. split; [assumption|lia].
Qed.

Lemma append_cons (c : ascii) (a b : string) : String c a +:+ b = String c (a +:+ b).
Proof. reflexivity. Qed.

Lemma append_nil_l (b : string) : "" +:+ b = b.
Proof. reflexivity. Qed.

Lemma append_assoc (a b c : string) : (a +:+ b) +:+ c = a +:+ (b +:+ c).
Proof.
  induction a as [|x a IH]; [reflexivity|]. rewrite !append_cons, IH. reflexivity.
Qed.

Lemma append_nil_r (a : string) : a +:+ "" = a.
Proof.
  induction a as [|x a IH]; [reflexivity|]. rewrite append_cons, IH. reflexivity.
Qed.

Lemma CountByte_append (a b : string) (sep : ascii) :
  CountByte (a +:+ b) sep = CountByte a sep + CountByte b sep.
Proof.
  induction a as [|c a IH]; [reflexivity|].
  rewrite append_cons. cbn [CountByte]. rewrite IH. lia.
Qed.

Lemma len_append (a b : string) : len (a +:+ b) = len a + len b.
Proof.
  unfold len. induction a as [|x a IH]; [rewrite append_nil_l; simpl; lia|].
  rewrite append_cons. cbn [String.length]. lia.
Qed.

Lemma drop_append (a b : string) : drop (String.length a) (a +:+ b) = b.
Proof.
  induction a as [|x a IH]; [rewrite append_nil_l; destruct b; reflexivity|].
  rewrite append_cons. exact IH.
Qed.

Lemma take_append (a b : string) : take (String.length a) (a +:+ b) = a.
Proof.
  induction a as [|x a IH]; [rewrite append_nil_l; destruct b; reflexivity|].
  rewrite append_cons. cbn [String.length take]. rewrite IH. reflexivity.
Qed.

Lemma cut_none (s : string) (sep : ascii) : CountByte s sep = 0 -> cut s sep = None.
Proof.
  induction s as [|c s IH]; [reflexivity|]. intros H.
  destruct (CountByte_cons_zero _ _ _ H) as [Hne H0]. simpl.
  destruct (Ascii.eqb_spec c sep); [contradiction|]. rewrite IH by exact H0. reflexivity.
Qed.

Lemma cut_first (a b : string) (sep : ascii) :
  CountByte a sep = 0 -> cut (a +:+ String sep b) sep = Some (a, b).
Proof.
  induction a as [|c a IH].
  - intros _. rewrite append_nil_l. cbn [cut]. rewrite Ascii.eqb_refl. reflexivity.
  - intros H. destruct (CountByte_cons_zero c a sep H) as [Hne H0].
    rewrite append_cons. cbn [cut].
    destruct (Ascii.eqb_spec c sep); [contradiction|]. rewrite IH by exact H0. reflexivity.
Qed.

Lemma prefix_slash (c : ascii) (s : string) :
  String.prefix "/" (String c s) = Ascii.eqb c "/".
Proof.
  cbn [String.prefix]. destruct (ascii_dec "/" c) as [<-|Hne].
  - destruct s; reflexivity.
  - symmetry. apply Ascii.eqb_neq. congruence.
Qed.

Lemma Index_from_slash_none (fuel : nat) (off : Z) (s : string) :
  CountByte s "/" = 0 -> Index_from fuel off s "/" = -1.
Proof.
  revert off s. induction fuel as [|fuel IH]; intros off [|c s] H; try reflexivity.
  - destruct (CountByte_cons_zero _ _ _ H) as [Hne _].
    cbn [Index_from]. rewrite prefix_slash.
    destruct (Ascii.eqb_spec c "/"); [contradiction|reflexivity].
  - destruct (CountByte_cons_zero _ _ _ H) as [Hne H0].
    cbn [Index_from]. rewrite prefix_slash.
    destruct (Ascii.eqb_spec c "/"); [contradiction|]. apply IH. exact H0.
Qed.

Lemma Index_from_slash (a t : string) (fuel : nat) (off : Z) :
  CountByte a "/" = 0 -> (String.length a <= fuel)%nat ->
  Index_from fuel off (a +:+ String "/" t) "/" = off + len a.
Proof.
  revert fuel off. induction a as [|c a IH]; intros fuel off H Hfuel.
  - rewrite append_nil_l.
    destruct fuel; cbn [Index_from]; rewrite prefix_slash; unfold len; simpl; lia.
  - destruct (CountByte_cons_zero _ _ _ H) as [Hne H0].
    destruct fuel as [|fuel]; [simpl in Hfuel; lia|].
    rewrite append_cons. cbn [Index_from]. rewrite prefix_slash.
    destruct (Ascii.eqb_spec c "/"); [contradiction|].
    rewrite IH by (simpl in Hfuel; first [exact H0 | lia]).
    unfold len. simpl String.length. lia.
Qed.

Lemma prefix_scheme_mark (c : ascii) (a t : string) :
  CountByte (String c a) "/" = 0 ->
  String.prefix "://" (String c (a +:+ String ":" (String "/" (String "/" t)))) = false.
Proof.
  intros H. destruct (CountByte_cons_zero _ _ _ H) as [_ H0].
  cbn [String.prefix]. destruct (ascii_dec ":" c); [|reflexivity].
  destruct a as [|c2 a].
  - reflexivity.
  - destruct (CountByte_cons_zero _ _ _ H0) as [Hne _].
    rewrite append_cons. cbn [String.prefix]. destruct (ascii_dec "/" c2); [congruence|reflexivity].
Qed.

Lemma Index_from_scheme_mark (a t : string) (fuel : nat) (off : Z) :
  CountByte a "/" = 0 -> (String.length a <= fuel)%nat ->
  Index_from fuel off (a +:+ String ":" (String "/" (String "/" t))) "://" = off + len a.
Proof.
  revert fuel off. induction a as [|c a IH]; intros fuel off H Hfuel.
  - rewrite append_nil_l.
    destruct fuel; cbn [Index_from]; unfold len; simpl; destruct t; simpl; lia.
  - destruct (CountByte_cons_zero _ _ _ H) as [Hne H0].
    destruct fuel as [|fuel]; [simpl in Hfuel; lia|].
    rewrite append_cons. cbn [Index_from]. rewrite (prefix_scheme_mark c a t H).
    rewrite IH by (simpl in Hfuel; first [exact H0 | lia]).
    unfold len. simpl String.length. lia.
Qed.

Lemma LastIndex_from_slash_none (off : Z) (s : string) :
  CountByte s "/" = 0 -> LastIndex_from off s "/" = -1.
Proof.
  revert off. induction s as [|c s IH]; intros off H; [reflexivity|].
  destruct (CountByte_cons_zero _ _ _ H) as [Hne H0].
  cbn [LastIndex_from]. rewrite IH by exact H0. rewrite prefix_slash.
  destruct (Ascii.eqb_spec c "/"); [contradiction|reflexivity].
Qed.

Lemma LastIndex_from_slash (pre seg : string) (off : Z) :
  0 <= off -> CountByte seg "/" = 0 ->
  LastIndex_from off (pre +:+ String "/" seg) "/" = off + len pre.
Proof.
  revert off. induction pre as [|c pre IH]; intros off Hoff H.
  - rewrite append_nil_l. cbn [LastIndex_from]. rewrite LastIndex_from_slash_none by exact H.
    rewrite prefix_slash. unfold len. simpl. lia.
  - rewrite append_cons. cbn [LastIndex_from]. rewrite IH by (first [lia | exact H]).
    pose proof (Zle_0_nat (String.length pre)).
    destruct (Z.leb_spec 0 (off + 1 + len pre)) as [_|Hneg]; [|unfold len in Hneg; lia].
    unfold len. simpl String.length. lia.
Qed.

(** A string has no slash, or a last one. *)
Lemma last_slash (s : string) :
  CountByte s "/" = 0 \/
  exists pre seg, s = pre +:+ String "/" seg /\ CountByte seg "/" = 0.
Proof.
  induction s as [|c s IH]; [left; reflexivity|].
  destruct IH as [H0|(pre & seg & -> & Hseg)].
  - destruct (Ascii.eqb_spec c "/") as [->|Hne].
    + right. exists "", s. split; [reflexivity|exact H0].
    + left. simpl. destruct (Ascii.eqb_spec c "/"); [contradiction|]. exact H0.
  - right. exists (String c pre), seg. split; [reflexivity|exact Hseg].
Qed.

End GoStringsFacts.

(** ** The baseline matcher *)

Module CalibrationFacts.
Import Calibration GoIntFacts.

Lemma abs_sub_sizes (a b : Z) :
  is_size a -> is_size b -> abs (GoInt.sub a b) = Z.abs (a - b).
Proof.
  unfold is_size, abs, GoInt.sub, GoInt.neg, GoInt.max_int. intros Ha Hb.
  rewrite (wrap_id (a - b)) by (unfold GoInt.in_range, GoInt.min_int, GoInt.max_int; lia).
  destruct (Z.ltb_spec (a - b) 0).
  - rewrite wrap_id by (unfold GoInt.in_range, GoInt.min_int, GoInt.max_int; lia). lia.
  - lia.
Qed.

Lemma sizeDiff_lt_threshold_spec (a s : Z) :
  sizeDiff_lt_threshold a s = true <-> (inject_Z a / inject_Z s < 5 # 100)%Q.
Proof.
  unfold sizeDiff_lt_threshold. rewrite negb_true_iff.
  split.
  - intros H. apply Qnot_le_lt. intros Hle. apply Qle_bool_iff in Hle. congruence.
  - intros H. destruct (Qle_bool (5 # 100) (inject_Z a / inject_Z s)) eqn:E; [|reflexivity].
    apply Qle_bool_iff in E. exfalso. exact (Qlt_not_le _ _ H E).
Qed.

(** On a positive size the quotient test is the integer test [20 * a < s]. *)
Lemma sizeDiff_lt_threshold_pos (a s : Z) :
  0 < s -> sizeDiff_lt_threshold a s = (20 * a <? s).
Proof.
  intros Hs. apply eq_true_iff_eq. rewrite sizeDiff_lt_threshold_spec, Z.ltb_lt.
  unfold Qlt, Qdiv, Qmult, Qinv, inject_Z. simpl.
  destruct s as [|p|p]; try lia. simpl. lia.
Qed.

Lemma MatchesSignature_iff (statusCode size : Z) (signatures : list ResponseSignature) :
  is_size size ->
  Forall (fun sig => is_size (Size sig)) signatures ->
  MatchesSignature statusCode size signatures = true <->
  exists sig, In sig signatures /\ sig_matches statusCode size sig.
Proof.
  intros Hsize Hall. induction Hall as [|sig rest Hsig Hrest IH]; simpl.
  - split; [discriminate | intros (sig & [] & _)].
  - rewrite (abs_sub_sizes _ _ Hsize Hsig).
    destruct (Z.eqb_spec statusCode (StatusCode sig)) as [Hst|Hst].
    + destruct (Z.eqb_spec (Size sig) 0) as [Hz|Hz].
      * rewrite IH. split.
        -- intros (s & Hin & Hm). exists s. split; [right; exact Hin | exact Hm].
        -- intros (s & [Heq|Hin] & Hm); [|exists s; split; assumption].
           subst s. destruct Hm as (_ & Hne & _). contradiction.
      * destruct (sizeDiff_lt_threshold (Z.abs (size - Size sig)) (Size sig)) eqn:E.
        -- split; [intros _|reflexivity].
           exists sig. split; [left; reflexivity|].
           split; [symmetry; exact Hst|]. split; [exact Hz|].
           apply sizeDiff_lt_threshold_spec. exact E.
        -- rewrite IH. split.
           ++ intros (s & Hin & Hm). exists s. split; [right; exact Hin | exact Hm].
           ++ intros (s & [Heq|Hin] & Hm); [|exists s; split; assumption].
              subst s. destruct Hm as (_ & _ & Hlt).
              apply sizeDiff_lt_threshold_spec in Hlt. congruence.
    + rewrite IH. split.
      * intros (s & Hin & Hm). exists s. split; [right; exact Hin | exact Hm].
      * intros (s & [Heq|Hin] & Hm); [|exists s; split; assumption].
        subst s. destruct Hm as (Hs & _). congruence.
Qed.

(** C1: for sizes that are lengths, the matcher answers true exactly when
    some signature of the list has the same status code, a size that is not
    zero, and [|size - sig.size| / sig.size < 0.05]; a list of signatures of
    size 0 matches nothing, and neither does the empty list. *)
Theorem MatchesSignature_spec (statusCode size : Z) (signatures : list ResponseSignature) :
  is_size size ->
  Forall (fun sig => is_size (Size sig)) signatures ->
  (MatchesSignature statusCode size signatures = true <->
     exists sig, In sig signatures /\ sig_matches statusCode size sig) /\
  (Forall (fun sig => Size sig = 0) signatures ->
     MatchesSignature statusCode size signatures = false) /\
  MatchesSignature statusCode size [] = false.
Proof.
  intros Hsize Hall. split; [apply MatchesSignature_iff; assumption|].
  split; [|reflexivity].
  intros Hzero. destruct (MatchesSignature statusCode size signatures) eqn:E; [|reflexivity].
  apply MatchesSignature_iff in E; [|assumption|assumption].
  destruct E as (sig & Hin & _ & Hne & _).
  rewrite Forall_forall in Hzero. apply list_elem_of_In in Hin.
  specialize (Hzero sig Hin). contradiction.
Qed.

Lemma MatchesSignature_spec_witness :
  MatchesSignature 404 102 [baseline404] = true <->
  exists sig, In sig [baseline404] /\ sig_matches 404 102 sig.
Proof.
  apply (MatchesSignature_spec 404 102 [baseline404]).
  - unfold is_size, GoInt.max_int. lia.
  - constructor; [|constructor]. unfold is_size, GoInt.max_int. simpl. lia.
Defined.

(** The cases of the specification's first testable property. *)
Example calibration_filter_cases :
  MatchesSignature 404 102 [baseline404] = true /\
  MatchesSignature 404 200 [baseline404] = false /\
  MatchesSignature 200 100 [baseline404] = false /\
  MatchesSignature 404 100 [] = false.
Proof. vm_compute. repeat split. Qed.

(** At exactly 5% the test fails, just below it succeeds. *)
Example calibration_threshold_is_strict :
  MatchesSignature 404 105 [baseline404] = false /\
  MatchesSignature 404 95 [baseline404] = false /\
  MatchesSignature 404 104 [baseline404] = true /\
  MatchesSignature 404 96 [baseline404] = true.
Proof. vm_compute. repeat split. Qed.

(** The binary64 comparison of the Go code and its exact reading agree on
    the grid around the threshold. *)
Example binary64_agrees_near_threshold :
  forallb (fun p => Bool.eqb (sizeDiff_lt_threshold (fst p) (snd p))
                             (sizeDiff_lt_threshold_binary64 (fst p) (snd p)))
          threshold_grid = true.
Proof. vm_compute. reflexivity. Qed.

Example binary64_calibration_filter_cases :
  MatchesSignature_binary64 404 102 [baseline404] = true /\
  MatchesSignature_binary64 404 200 [baseline404] = false /\
  MatchesSignature_binary64 404 105 [baseline404] = false /\
  MatchesSignature_binary64 200 100 [baseline404] = false.
Proof. vm_compute. repeat split. Qed.

(** *** Further properties of the matcher *)

Lemma MatchesSignature_app (statusCode size : Z) (a b : list ResponseSignature) :
  MatchesSignature statusCode size (a ++ b)
  = MatchesSignature statusCode size a || MatchesSignature statusCode size b.
Proof.
  induction a as [|sig a IH]; simpl; [reflexivity|].
  destruct (statusCode =? StatusCode sig); [|exact IH].
  destruct (Size sig =? 0); [exact IH|].
  destruct (sizeDiff_lt_threshold _ _); [reflexivity|exact IH].
Qed.

Lemma MatchesSignature_perm (statusCode size : Z) (l l' : list ResponseSignature) :
  Permutation l l' -> MatchesSignature statusCode size l = MatchesSignature statusCode size l'.
Proof.
  induction 1 as [|x l l' _ IH|x y l|l l' l'' _ IH1 _ IH2]; simpl.
  - reflexivity.
  - rewrite IH. reflexivity.
  - destruct (statusCode =? StatusCode x), (statusCode =? StatusCode y),
      (Size x =? 0), (Size y =? 0),
      (sizeDiff_lt_threshold (abs (GoInt.sub size (Size x))) (Size x)),
      (sizeDiff_lt_threshold (abs (GoInt.sub size (Size y))) (Size y)); reflexivity.
  - congruence.
Qed.

(** The answer of the matcher does not depend on the order of the
    signatures: a response matches a list put together from two lists, in
    any order, exactly when it matches one of the two. *)
Theorem MatchesSignature_any_order (statusCode size : Z) (a b sigs : list ResponseSignature) :
  Permutation (a ++ b) sigs ->
  MatchesSignature statusCode size sigs
  = MatchesSignature statusCode size a || MatchesSignature statusCode size b.
Proof.
  intros Hperm. rewrite <- (MatchesSignature_perm _ _ _ _ Hperm). apply MatchesSignature_app.
Qed.

Lemma MatchesSignature_any_order_witness :
  MatchesSignature 404 102
    [ {| StatusCode := 404; Size := 0; WordCount := 0; LineCount := 1 |}; baseline404 ]
  = MatchesSignature 404 102 [baseline404]
    || MatchesSignature 404 102
         [ {| StatusCode := 404; Size := 0; WordCount := 0; LineCount := 1 |} ].
Proof.
  apply (MatchesSignature_any_order 404 102 [baseline404]
           [ {| StatusCode := 404; Size := 0; WordCount := 0; LineCount := 1 |} ]).
  apply perm_swap.
Defined.

(** Against baselines of at most 20 bytes the 5% tolerance admits no
    deviation: a response matches only a signature of its own status code
    and of exactly its own size. *)
Theorem small_baselines_match_exact_sizes
    (statusCode size : Z) (signatures : list ResponseSignature) :
  is_size size ->
  Forall (fun sig => 0 <= Size sig <= 20) signatures ->
  (MatchesSignature statusCode size signatures = true <->
   exists sig, In sig signatures /\ StatusCode sig = statusCode /\
               Size sig <> 0 /\ size = Size sig).
Proof.
  intros Hsize Hall.
  assert (Hsizes : Forall (fun sig => is_size (Size sig)) signatures).
  { eapply Forall_impl; [exact Hall|]. intros sig H. unfold is_size. simpl in H. lia. }
  rewrite (MatchesSignature_iff statusCode size signatures Hsize Hsizes).
  rewrite Forall_forall in Hall.
  split; intros (sig & Hin & Hst & Hne & H); exists sig;
    (split; [exact Hin|]; split; [exact Hst|]; split; [exact Hne|]);
    pose proof (Hall sig (proj2 (list_elem_of_In _ _) Hin)) as Hb; simpl in Hb.
  - apply sizeDiff_lt_threshold_spec in H.
    rewrite sizeDiff_lt_threshold_pos in H by lia. apply Z.ltb_lt in H. lia.
  - apply sizeDiff_lt_threshold_spec.
    rewrite sizeDiff_lt_threshold_pos by lia. apply Z.ltb_lt. lia.
Qed.

Lemma small_baselines_match_exact_sizes_witness :
  MatchesSignature 404 9 [ {| StatusCode := 404; Size := 9; WordCount := 2; LineCount := 1 |} ] = true
  <-> exists sig,
        In sig [ {| StatusCode := 404; Size := 9; WordCount := 2; LineCount := 1 |} ] /\
        StatusCode sig = 404 /\ Size sig <> 0 /\ 9 = Size sig.
Proof.
  apply (small_baselines_match_exact_sizes 404 9
           [ {| StatusCode := 404; Size := 9; WordCount := 2; LineCount := 1 |} ]).
  - unfold is_size. lia.
  - constructor; [simpl; lia|constructor].
Defined.

(** A 9-byte baseline: a body one byte longer already passes the filter. *)
Example nine_byte_baseline :
  MatchesSignature 404 9 [ {| StatusCode := 404; Size := 9; WordCount := 2; LineCount := 1 |} ] = true /\
  MatchesSignature 404 10 [ {| StatusCode := 404; Size := 9; WordCount := 2; LineCount := 1 |} ] = false.
Proof. vm_compute. split; reflexivity. Qed.

(** [abs] returns the absolute value of every [int] but the least one,
    whose negation wraps around: there it returns the least [int] itself, a
    negative number. *)
Theorem abs_of_int (n : Z) :
  GoInt.in_range n ->
  abs n = (if n =? GoInt.min_int then GoInt.min_int else Z.abs n).
Proof.
  unfold GoInt.in_range, abs, GoInt.neg. intros Hn.
  destruct (Z.eqb_spec n GoInt.min_int) as [->|Hne].
  - vm_compute. reflexivity.
  - destruct (Z.ltb_spec n 0).
    + rewrite wrap_id by (unfold GoInt.in_range, GoInt.min_int, GoInt.max_int in *; lia). lia.
    + lia.
Qed.

Lemma abs_of_int_witness : abs GoInt.min_int = GoInt.min_int.
Proof.
  refine (abs_of_int GoInt.min_int _).
  unfold GoInt.in_range, GoInt.min_int, GoInt.max_int. lia.
Defined.

End CalibrationFacts.

(** ** The transport: circuit breaker and retries *)

Module TransportFacts.
Import Transport GoIntFacts.

Lemma recordSuccess_cleared host cb : cleared host (recordSuccess host cb).
Proof. split; simpl; apply lookup_delete_eq. Qed.

Lemma recordSuccess_elsewhere host cb : same_elsewhere host cb (recordSuccess host cb).
Proof.
  repeat split; simpl; try reflexivity; apply lookup_delete_ne; congruence.
Qed.

Lemma recordFailure_elsewhere now host cb : same_elsewhere host cb (recordFailure now host cb).
Proof.
  repeat split; simpl; try reflexivity; apply lookup_insert_ne; congruence.
Qed.

Lemma isOpen_cleared now host cb :
  cleared host cb -> isOpen now host cb = (threshold cb <=? 0, cb).
Proof. intros [Hc Hl]. unfold isOpen. rewrite Hl, Hc. reflexivity. Qed.

(** C5: for the breaker of [NewClient] (threshold 10, reset timeout 30 s),
    [isOpen] clears the entry of the host and answers false when the last
    failure is more than 30 s old and otherwise answers whether the count has
    reached 10; [recordFailure] adds one to the count and stamps the failure
    with the current time; [recordSuccess] removes the entry, after which
    [isOpen] answers false. *)
Theorem circuit_breaker_contract (cb : CircuitBreaker) (host : string) (now : Z) :
  threshold cb = 10 ->
  resetTimeout cb = 30 * Second ->
  (forall lastFail, lastFailure cb !! host = Some lastFail -> now - lastFail > 30 * Second ->
     isOpen now host cb = (false, recordSuccess host cb) /\
     cleared host (snd (isOpen now host cb))) /\
  ((forall lastFail, lastFailure cb !! host = Some lastFail -> now - lastFail <= 30 * Second) ->
     isOpen now host cb = (10 <=? default 0 (failureCounts cb !! host), cb)) /\
  (failureCounts (recordFailure now host cb) !! host
     = Some (GoInt.wrap (default 0 (failureCounts cb !! host) + 1)) /\
   (default 0 (failureCounts cb !! host) < GoInt.max_int ->
    GoInt.min_int <= default 0 (failureCounts cb !! host) + 1 ->
    failureCounts (recordFailure now host cb) !! host
      = Some (default 0 (failureCounts cb !! host) + 1)) /\
   lastFailure (recordFailure now host cb) !! host = Some now /\
   same_elsewhere host cb (recordFailure now host cb)) /\
  (cleared host (recordSuccess host cb) /\
   same_elsewhere host cb (recordSuccess host cb) /\
   forall later, isOpen later host (recordSuccess host cb) = (false, recordSuccess host cb)).
Proof.
  intros Hth Hto. split; [|split; [|split]].
  - intros lastFail Hl Hgt.
    assert (E : isOpen now host cb = (false, recordSuccess host cb)).
    { unfold isOpen. rewrite Hl.
      destruct (Z.ltb_spec (resetTimeout cb) (now - lastFail)); [reflexivity|lia]. }
    rewrite E. split; [reflexivity|]. apply recordSuccess_cleared.
  - intros Hle. unfold isOpen. rewrite Hth.
    destruct (lastFailure cb !! host) as [lastFail|] eqn:Hl; [|reflexivity].
    specialize (Hle lastFail eq_refl).
    destruct (Z.ltb_spec (resetTimeout cb) (now - lastFail)); [lia|reflexivity].
  - split; [|split; [|split]].
    + simpl. apply lookup_insert_eq.
    + intros Hlt Hge. simpl. rewrite lookup_insert_eq. unfold GoInt.add.
      rewrite wrap_id; [reflexivity|]. unfold GoInt.in_range. lia.
    + simpl. apply lookup_insert_eq.
    + apply recordFailure_elsewhere.
  - split; [|split].
    + apply recordSuccess_cleared.
    + apply recordSuccess_elsewhere.
    + intros later. rewrite isOpen_cleared by apply recordSuccess_cleared.
      simpl. rewrite Hth. reflexivity.
Qed.

Lemma circuit_breaker_contract_witness :
  isOpen (40 * Second) "example.com" (recordFailure 0 "example.com" NewCircuitBreaker)
  = (false, recordSuccess "example.com" (recordFailure 0 "example.com" NewCircuitBreaker)).
Proof.
  refine (proj1 (proj1 (circuit_breaker_contract
            (recordFailure 0 "example.com" NewCircuitBreaker) "example.com" (40 * Second)
            eq_refl eq_refl) 0 _ _)).
  - reflexivity.
  - unfold Second. lia.
Defined.

(** Ten failures in a row open the breaker; a success closes it again. *)
Example breaker_opens_at_ten :
  fst (isOpen 9 "example.com" (record_failures env500 "example.com" 0 9 NewCircuitBreaker)) = false /\
  fst (isOpen 10 "example.com" (record_failures env500 "example.com" 0 10 NewCircuitBreaker)) = true /\
  fst (isOpen 10 "example.com"
         (recordSuccess "example.com"
            (record_failures env500 "example.com" 0 10 NewCircuitBreaker))) = false.
Proof. vm_compute. repeat split. Qed.

Lemma jitter_defined (n : Z) : 0 <= n <= 33 -> exists base, jitter n = Some base.
Proof.
  intros Hn.
  assert (Hall : forallb (fun n => match jitter n with Some _ => true | None => false end)
                         (seqZ 0 34) = true) by (vm_compute; reflexivity).
  rewrite forallb_forall in Hall.
  specialize (Hall n). destruct (jitter n) as [b|].
  - exists b. reflexivity.
  - assert (false = true); [|discriminate]. apply Hall.
    apply list_elem_of_In, elem_of_seqZ. lia.
Qed.

Lemma attempts_made_app l1 l2 : attempts_made (l1 ++ l2) = attempts_made l1 + attempts_made l2.
Proof.
  unfold attempts_made. rewrite filter_app, length_app. lia.
Qed.

Lemma attempts_made_failure_events host first count :
  0 <= count -> attempts_made (failure_events host first count) = count.
Proof.
  intros Hc. unfold failure_events, attempts_made, seqZ.
  rewrite <- (Z2Nat.id count) at 2 by lia.
  generalize (Z.to_nat count) as k. intros k. f_equal.
  generalize 0%nat as s.
  induction k as [|k IH]; intros s; simpl; [reflexivity|].
  f_equal. apply IH.
Qed.

Lemma attemptLoop_always_5xx (retries maxBody : Z) (env : Env) (host : string) :
  retries <= 34 ->
  (forall n, ctxDone env n = false) ->
  always_5xx env ->
  forall (k : nat) (attempt : Z) (cb : CircuitBreaker) (log : list Event),
    0 <= attempt ->
    attempt + Z.of_nat k = retries ->
    exists resp body,
      exchange env retries = Answer resp body /\
      500 <= HTTP.StatusCode resp /\
      attemptLoop retries maxBody env host (S k) attempt cb log =
        (Return resp (readBody maxBody body),
         record_failures env host attempt (Z.of_nat k + 1) cb,
         log ++ failure_events host attempt (Z.of_nat k + 1)).
Proof.
  intros Hr Hctx Hsrv k.
  induction k as [|k IH]; intros attempt cb log Ha Hk.
  - assert (attempt = retries) by lia. subst attempt.
    destruct (Hsrv retries) as (resp & body & Hex & Hst).
    exists resp, body. split; [exact Hex|]. split; [exact Hst|].
    cbn [attemptLoop].
    assert (Hj : exists b, (if 0 <? retries then jitter (retries - 1) else Some 0) = Some b).
    { destruct (Z.ltb_spec 0 retries); [apply jitter_defined; lia | eauto]. }
    destruct Hj as (b & ->). rewrite Hctx, Hex.
    destruct (Z.leb_spec 500 (HTTP.StatusCode resp)); [|lia].
    rewrite Z.eqb_refl. unfold record_failures, failure_events. simpl.
    rewrite <- app_assoc. reflexivity.
  - destruct (IH (attempt + 1) (recordFailure (nowAtAttempt env attempt) host cb)
                 ((log ++ [EvAttempt attempt]) ++ [EvRecordFailure host]))
      as (resp & body & Hex & Hst & Hloop); [lia|lia|].
    exists resp, body. split; [exact Hex|]. split; [exact Hst|].
    destruct (Hsrv attempt) as (resp' & body' & Hex' & Hst').
    remember (S k) as k'. cbn [attemptLoop]. subst k'.
    assert (Hj : exists b, (if 0 <? attempt then jitter (attempt - 1) else Some 0) = Some b).
    { destruct (Z.ltb_spec 0 attempt); [apply jitter_defined; lia | eauto]. }
    destruct Hj as (b & ->). rewrite Hctx, Hex'.
    destruct (Z.leb_spec 500 (HTTP.StatusCode resp')); [|lia].
    destruct (Z.eqb_spec attempt retries); [lia|].
    rewrite Hloop. unfold record_failures, failure_events.
    rewrite (seqZ_cons attempt (Z.of_nat (S k) + 1)) by lia.
    replace (Z.pred (Z.of_nat (S k) + 1)) with (Z.of_nat k + 1) by lia.
    replace (Z.succ attempt) with (attempt + 1) by lia.
    simpl. rewrite <- !app_assoc. reflexivity.
Qed.


(** C2, as amended: when the breaker lets the call through, the limiter
    grants its token, [ctx] stays live and the retry count is between 0 and
    34, a call against a server that answers every attempt with a status of
    500 or more makes exactly [retryAttempts + 1] attempts, records a failure
    of the host after each of them, and returns the last response with its
    body and no error. *)
Theorem DoContext_always_5xx (c : Client) (env : Env) (req : HTTP.Request)
    (rateLimit : Z) (host : string) :
  parseHost env (HTTP.URL req) = Some host ->
  fst (isOpen (nowAtEntry env) host (circuitBreaker c)) = false ->
  (0 < rateLimit -> limiterWait env = true) ->
  (forall n, ctxDone env n = false) ->
  always_5xx env ->
  0 <= retryAttempts c <= 34 ->
  exists resp body c',
    exchange env (retryAttempts c) = Answer resp body /\
    500 <= HTTP.StatusCode resp /\
    DoContext c env req rateLimit =
      (Return resp (readBody (maxBodyBytes c) body), c',
       failure_events host 0 (retryAttempts c + 1)) /\
    attempts_made (failure_events host 0 (retryAttempts c + 1)) = retryAttempts c + 1 /\
    circuitBreaker c' =
      record_failures env host 0 (retryAttempts c + 1)
        (snd (isOpen (nowAtEntry env) host (circuitBreaker c))).
Proof.
  intros Hhost Hclosed Hlim Hctx Hsrv Hr.
  destruct (attemptLoop_always_5xx (retryAttempts c) (maxBodyBytes c) env host
              ltac:(lia) Hctx Hsrv (Z.to_nat (retryAttempts c)) 0
              (snd (isOpen (nowAtEntry env) host (circuitBreaker c))) [] ltac:(lia) ltac:(lia))
    as (resp & body & Hex & Hst & Hloop).
  rewrite Z2Nat.id in Hloop by lia.
  unfold DoContext. rewrite Hhost.
  destruct (isOpen (nowAtEntry env) host (circuitBreaker c)) as [open cb] eqn:Hopen.
  cbn [fst snd] in Hclosed, Hloop. subst open.
  assert (Hfuel : Z.to_nat (retryAttempts c + 1) = S (Z.to_nat (retryAttempts c))).
  { rewrite Z2Nat.inj_add by lia. simpl. lia. }
  rewrite Hfuel, Hloop.
  unfold getRateLimiter.
  destruct (Z.leb_spec rateLimit 0) as [Hrl|Hrl].
  - eexists resp, body, _. split; [exact Hex|]. split; [exact Hst|].
    split; [reflexivity|]. split; [apply attempts_made_failure_events; lia | reflexivity].
  - rewrite (Hlim Hrl).
    destruct (limiters c !! host);
      (eexists resp, body, _; split; [exact Hex|]; split; [exact Hst|];
       split; [reflexivity|]; split; [apply attempts_made_failure_events; lia | reflexivity]).
Qed.

Lemma DoContext_always_5xx_witness :
  exists resp body c',
    exchange env500 2 = Answer resp body /\
    500 <= HTTP.StatusCode resp /\
    DoContext (NewClient 10 0 2 10) env500 probe 0 =
      (Return resp (readBody (maxBodyBytes (NewClient 10 0 2 10)) body), c',
       failure_events "example.com" 0 3) /\
    attempts_made (failure_events "example.com" 0 3) = 3 /\
    circuitBreaker c' =
      record_failures env500 "example.com" 0 3
        (snd (isOpen 0 "example.com" NewCircuitBreaker)).
Proof.
  apply (DoContext_always_5xx (NewClient 10 0 2 10) env500 probe 0 "example.com").
  - reflexivity.
  - reflexivity.
  - intros _. reflexivity.
  - intros n. reflexivity.
  - intros n. exists answer500, "Internal Server Error"%string.
    split; [reflexivity|]. simpl. lia.
  - simpl. lia.
Defined.

(** The fifth call against the host that always answers 500 finds the
    breaker open: no attempt is made and an error is returned. *)
Lemma DoContext_open_breaker_no_attempt :
  always_5xx env500 /\
  retryAttempts (after_calls 2 4) = 2 /\
  fst (fst (DoContext (after_calls 2 4) env500 probe 0)) = Fail (ErrCircuitOpen "example.com") /\
  attempts_made (snd (DoContext (after_calls 2 4) env500 probe 0)) = 0.
Proof.
  split.
  - intros n. exists answer500, "Internal Server Error"%string.
    split; [reflexivity|]. simpl. lia.
  - vm_compute. repeat split.
Qed.

(** With 35 retries the bound of the thirty-sixth attempt's delay
    overflows, [rng.Int63n] is called with a negative bound and panics. *)
Example DoContext_panics_at_35_retries :
  jitter 33 = Some (30 * Second) /\
  jitter 34 = None /\
  fst (fst (DoContext (NewClient 10 0 35 10) env500 probe 0)) = Panic /\
  attempts_made (snd (DoContext (NewClient 10 0 35 10) env500 probe 0)) = 35.
Proof. vm_compute. repeat split. Qed.

(** The second testable property: two 500s, then 200, with three retries. *)
Example DoContext_recovers_after_two_failures :
  fst (DoContext (NewClient 10 0 3 10) env_recovering probe 0)
  = (Return {| HTTP.StatusCode := 200; HTTP.RespHeader := [] |} "OK",
     NewClient 10 0 3 10) /\
  attempts_made (snd (DoContext (NewClient 10 0 3 10) env_recovering probe 0)) = 3.
Proof.
  split; [|vm_compute; reflexivity].
  unfold DoContext, NewClient. cbn -[GoInt.wrap]. unfold recordSuccess, recordFailure. cbn -[GoInt.wrap].
  repeat f_equal. 
Qed.

(** *** Further properties of a call *)

Lemma attempts_made_snoc_attempt (log : list Event) (n : Z) :
  attempts_made (log ++ [EvAttempt n]) = attempts_made log + 1.
Proof. rewrite attempts_made_app. reflexivity. Qed.

Lemma attempts_made_snoc_other (log : list Event) (e : Event) :
  is_attempt e = false -> attempts_made (log ++ [e]) = attempts_made log.
Proof.
  intros H. rewrite attempts_made_app. unfold attempts_made at 2.
  rewrite filter_cons. destruct (decide (is_attempt e)) as [Ht|_].
  - rewrite H in Ht. contradiction.
  - simpl. lia.
Qed.

Lemma attempts_made_nil : attempts_made [] = 0.
Proof. reflexivity. Qed.

Lemma attemptLoop_attempts_bound (retries maxBody : Z) (env : Env) (host : string)
    (fuel : nat) (attempt : Z) (cb : CircuitBreaker) (log : list Event) :
  attempts_made (snd (attemptLoop retries maxBody env host fuel attempt cb log))
  <= attempts_made log + Z.of_nat fuel.
Proof.
  revert attempt cb log. induction fuel as [|fuel IH]; intros attempt cb log.
  - simpl. lia.
  - cbn [attemptLoop].
    destruct (if 0 <? attempt then jitter (attempt - 1) else Some 0); [|simpl; lia].
    destruct (ctxDone env attempt); [simpl; lia|].
    pose proof (attempts_made_snoc_attempt log attempt) as Hone.
    destruct (exchange env attempt) as [err|resp err|resp body].
    + destruct (attempt =? retries).
      * cbn [snd]. rewrite attempts_made_snoc_other by reflexivity. lia.
      * specialize (IH (attempt + 1) cb (log ++ [EvAttempt attempt])). lia.
    + destruct (attempt =? retries).
      * cbn [snd]. rewrite attempts_made_snoc_other by reflexivity. lia.
      * specialize (IH (attempt + 1) cb (log ++ [EvAttempt attempt])). lia.
    + destruct (500 <=? HTTP.StatusCode resp).
      * destruct (attempt =? retries).
        -- cbn [snd]. rewrite attempts_made_snoc_other by reflexivity. lia.
        -- specialize (IH (attempt + 1) (recordFailure (nowAtAttempt env attempt) host cb)
                          ((log ++ [EvAttempt attempt]) ++ [EvRecordFailure host])).
           rewrite attempts_made_snoc_other in IH by reflexivity. lia.
      * cbn [snd]. rewrite attempts_made_snoc_other by reflexivity. lia.
Qed.

(** Whatever the server, the clock and the context do, one call makes at
    most [retryAttempts + 1] HTTP attempts, and none when the retry count
    is negative. *)
Theorem DoContext_attempts_bound (c : Client) (env : Env) (req : HTTP.Request) (rateLimit : Z) :
  attempts_made (snd (DoContext c env req rateLimit)) <= Z.max 0 (retryAttempts c + 1).
Proof.
  unfold DoContext.
  destruct (parseHost env (HTTP.URL req)) as [host|];
    [|cbn [snd]; rewrite attempts_made_nil; lia].
  destruct (isOpen (nowAtEntry env) host (circuitBreaker c)) as [open cb].
  destruct open; [cbn [snd]; rewrite attempts_made_nil; lia|].
  destruct (getRateLimiter host rateLimit (limiters c)) as [limiter ls].
  destruct (match limiter with Some _ => negb (limiterWait env) | None => false end);
    [cbn [snd]; rewrite attempts_made_nil; lia|].
  pose proof (attemptLoop_attempts_bound (retryAttempts c) (maxBodyBytes c) env host
                (Z.to_nat (retryAttempts c + 1)) 0 cb []) as H.
  destruct (attemptLoop _ _ _ _ _ _ _ _) as [[out cb'] log]. cbn [snd] in *.
  rewrite attempts_made_nil in H. lia.
Qed.

Lemma attemptLoop_never_answers (retries maxBody : Z) (env : Env) (host : string) :
  retries <= 34 ->
  (forall n, ctxDone env n = false) ->
  never_answers env ->
  forall (k : nat) (attempt : Z) (cb : CircuitBreaker) (log : list Event),
    0 <= attempt ->
    attempt + Z.of_nat k = retries ->
    exists err,
      exchange_error (exchange env retries) = Some err /\
      attemptLoop retries maxBody env host (S k) attempt cb log =
        (Fail (ErrTransport err),
         recordFailure (nowAtAttempt env retries) host cb,
         (log ++ map EvAttempt (seqZ attempt (Z.of_nat k + 1))) ++ [EvRecordFailure host]).
Proof.
  intros Hr Hctx Hsrv k.
  induction k as [|k IH]; intros attempt cb log Ha Hk.
  - assert (attempt = retries) by lia. subst attempt.
    cbn [attemptLoop].
    assert (Hj : exists b, (if 0 <? retries then jitter (retries - 1) else Some 0) = Some b).
    { destruct (Z.ltb_spec 0 retries); [apply jitter_defined; lia | eauto]. }
    destruct Hj as (b & ->). rewrite Hctx, Z.eqb_refl.
    pose proof (Hsrv retries) as Hne.
    destruct (exchange env retries) as [err|resp err|resp body];
      [exists err; split; reflexivity | exists err; split; reflexivity | contradiction].
  - destruct (IH (attempt + 1) cb (log ++ [EvAttempt attempt])) as (err & Herr & Hloop); [lia|lia|].
    exists err. split; [exact Herr|].
    remember (S k) as k'. cbn [attemptLoop]. subst k'.
    assert (Hj : exists b, (if 0 <? attempt then jitter (attempt - 1) else Some 0) = Some b).
    { destruct (Z.ltb_spec 0 attempt); [apply jitter_defined; lia | eauto]. }
    destruct Hj as (b & ->). rewrite Hctx.
    destruct (Z.eqb_spec attempt retries); [lia|].
    assert (Hlog : (log ++ [EvAttempt attempt]) ++ map EvAttempt (seqZ (attempt + 1) (Z.of_nat k + 1))
                   = log ++ map EvAttempt (seqZ attempt (Z.of_nat (S k) + 1))).
    { rewrite (seqZ_cons attempt (Z.of_nat (S k) + 1)) by lia.
      replace (Z.pred (Z.of_nat (S k) + 1)) with (Z.of_nat k + 1) by lia.
      replace (Z.succ attempt) with (attempt + 1) by lia.
      simpl. rewrite <- app_assoc. reflexivity. }
    rewrite Hlog in Hloop.
    pose proof (Hsrv attempt) as Hne.
    destruct (exchange env attempt) as [e|resp e|resp body];
      [exact Hloop | exact Hloop | contradiction].
Qed.

(** When no attempt gets an answer (the connection or the read of the body
    fails each time), a call that the breaker lets through makes
    [retryAttempts + 1] attempts and returns the error of the last one; only
    that last failure is recorded for the host, so the whole call counts
    once towards the threshold of the breaker. *)
Theorem DoContext_never_answered (c : Client) (env : Env) (req : HTTP.Request)
    (rateLimit : Z) (host : string) :
  parseHost env (HTTP.URL req) = Some host ->
  fst (isOpen (nowAtEntry env) host (circuitBreaker c)) = false ->
  (0 < rateLimit -> limiterWait env = true) ->
  (forall n, ctxDone env n = false) ->
  never_answers env ->
  0 <= retryAttempts c <= 34 ->
  exists err c',
    exchange_error (exchange env (retryAttempts c)) = Some err /\
    DoContext c env req rateLimit =
      (Fail (ErrTransport err), c',
       map EvAttempt (seqZ 0 (retryAttempts c + 1)) ++ [EvRecordFailure host]) /\
    circuitBreaker c' =
      recordFailure (nowAtAttempt env (retryAttempts c)) host
        (snd (isOpen (nowAtEntry env) host (circuitBreaker c))).
Proof.
  intros Hhost Hclosed Hlim Hctx Hsrv Hr.
  destruct (attemptLoop_never_answers (retryAttempts c) (maxBodyBytes c) env host
              ltac:(lia) Hctx Hsrv (Z.to_nat (retryAttempts c)) 0
              (snd (isOpen (nowAtEntry env) host (circuitBreaker c))) [] ltac:(lia) ltac:(lia))
    as (err & Herr & Hloop).
  rewrite Z2Nat.id in Hloop by lia.
  unfold DoContext. rewrite Hhost.
  destruct (isOpen (nowAtEntry env) host (circuitBreaker c)) as [open cb] eqn:Hopen.
  cbn [fst snd] in Hclosed, Hloop. subst open.
  assert (Hfuel : Z.to_nat (retryAttempts c + 1) = S (Z.to_nat (retryAttempts c))).
  { rewrite Z2Nat.inj_add by lia. simpl. lia. }
  rewrite Hfuel, Hloop. cbn [app].
  unfold getRateLimiter.
  destruct (Z.leb_spec rateLimit 0) as [Hrl|Hrl].
  - eexists err, _. split; [exact Herr|]. split; reflexivity.
  - rewrite (Hlim Hrl).
    destruct (limiters c !! host);
      (eexists err, _; split; [exact Herr|]; split; reflexivity).
Qed.

Lemma DoContext_never_answered_witness :
  exists err c',
    exchange_error (exchange env_unreachable 2) = Some err /\
    DoContext (NewClient 10 0 2 10) env_unreachable probe 0 =
      (Fail (ErrTransport err), c',
       map EvAttempt (seqZ 0 3) ++ [EvRecordFailure "example.com"]) /\
    circuitBreaker c' =
      recordFailure 2 "example.com" (snd (isOpen 0 "example.com" NewCircuitBreaker)).
Proof.
  apply (DoContext_never_answered (NewClient 10 0 2 10) env_unreachable probe 0 "example.com").
  - reflexivity.
  - reflexivity.
  - intros _. reflexivity.
  - intros n. reflexivity.
  - intros n. discriminate.
  - simpl. lia.
Defined.

Lemma attemptLoop_return (retries maxBody : Z) (env : Env) (host : string)
    (fuel : nat) (attempt : Z) (cb : CircuitBreaker) (log : list Event)
    (resp : HTTP.Response) (body : string) (cb' : CircuitBreaker) (log' : list Event) :
  attempt + Z.of_nat fuel = retries + 1 ->
  attempts_made log = attempt ->
  attemptLoop retries maxBody env host fuel attempt cb log = (Return resp body, cb', log') ->
  (HTTP.StatusCode resp < 500 /\ cleared host cb') \/
  (500 <= HTTP.StatusCode resp /\ attempts_made log' = retries + 1 /\
   lastFailure cb' !! host = Some (nowAtAttempt env retries)).
Proof.
  revert attempt cb log. induction fuel as [|fuel IH]; intros attempt cb log Hfuel Hlog.
  - simpl. discriminate.
  - cbn [attemptLoop].
    destruct (if 0 <? attempt then jitter (attempt - 1) else Some 0); [|discriminate].
    destruct (ctxDone env attempt); [discriminate|].
    pose proof (attempts_made_snoc_attempt log attempt) as Hone.
    destruct (exchange env attempt) as [err|resp0 err|resp0 body0].
    + destruct (Z.eqb_spec attempt retries); [discriminate|].
      apply IH; lia.
    + destruct (Z.eqb_spec attempt retries); [discriminate|].
      apply IH; lia.
    + destruct (Z.leb_spec 500 (HTTP.StatusCode resp0)) as [H5|H5].
      * destruct (Z.eqb_spec attempt retries) as [->|Hne].
        -- intros H. injection H as <- _ <- <-. right.
           split; [exact H5|]. split.
           ++ rewrite attempts_made_snoc_other by reflexivity. lia.
           ++ simpl. apply lookup_insert_eq.
        -- apply IH; [lia|].
           rewrite attempts_made_snoc_other by reflexivity. lia.
      * intros H. injection H as <- _ <- _. left.
        split; [exact H5|]. split; simpl; apply lookup_delete_eq.
Qed.

(** A call returns a response in two cases only: a response below 500,
    and then the entry of the host in the breaker has been cleared,
    whatever failures were recorded before; or a response of 500 or more,
    and then every one of the [retryAttempts + 1] attempts has been made and
    the failure of the last one is on record. *)
Theorem DoContext_returns (c : Client) (env : Env) (req : HTTP.Request) (rateLimit : Z)
    (resp : HTTP.Response) (body : string) :
  fst (fst (DoContext c env req rateLimit)) = Return resp body ->
  exists host,
    parseHost env (HTTP.URL req) = Some host /\
    ((HTTP.StatusCode resp < 500 /\
      cleared host (circuitBreaker (snd (fst (DoContext c env req rateLimit))))) \/
     (500 <= HTTP.StatusCode resp /\
      attempts_made (snd (DoContext c env req rateLimit)) = retryAttempts c + 1 /\
      lastFailure (circuitBreaker (snd (fst (DoContext c env req rateLimit)))) !! host
        = Some (nowAtAttempt env (retryAttempts c)))).
Proof.
  unfold DoContext.
  destruct (parseHost env (HTTP.URL req)) as [host|]; [|discriminate].
  intros H. exists host. split; [reflexivity|]. revert H.
  destruct (isOpen (nowAtEntry env) host (circuitBreaker c)) as [open cb].
  destruct open; [discriminate|].
  destruct (getRateLimiter host rateLimit (limiters c)) as [limiter ls].
  destruct (match limiter with Some _ => negb (limiterWait env) | None => false end);
    [discriminate|].
  destruct (attemptLoop (retryAttempts c) (maxBodyBytes c) env host
              (Z.to_nat (retryAttempts c + 1)) 0 cb []) as [[out cb'] log] eqn:Hloop.
  cbn [fst snd circuitBreaker]. intros ->.
  destruct (Z.le_gt_cases 0 (retryAttempts c + 1)) as [Hr|Hr].
  - eapply attemptLoop_return; [ | | exact Hloop]; [lia|apply attempts_made_nil].
  - replace (Z.to_nat (retryAttempts c + 1)) with O in Hloop by lia.
    simpl in Hloop. discriminate Hloop.
Qed.

Lemma DoContext_returns_witness :
  exists host,
    parseHost env_recovering (HTTP.URL probe) = Some host /\
    ((HTTP.StatusCode {| HTTP.StatusCode := 200; HTTP.RespHeader := [] |} < 500 /\
      cleared host
        (circuitBreaker (snd (fst (DoContext (NewClient 10 0 3 10) env_recovering probe 0))))) \/
     (500 <= HTTP.StatusCode {| HTTP.StatusCode := 200; HTTP.RespHeader := [] |} /\
      attempts_made (snd (DoContext (NewClient 10 0 3 10) env_recovering probe 0))
        = retryAttempts (NewClient 10 0 3 10) + 1 /\
      lastFailure (circuitBreaker (snd (fst (DoContext (NewClient 10 0 3 10) env_recovering probe 0))))
        !! host
        = Some (nowAtAttempt env_recovering (retryAttempts (NewClient 10 0 3 10))))).
Proof.
  apply (DoContext_returns (NewClient 10 0 3 10) env_recovering probe 0
           {| HTTP.StatusCode := 200; HTTP.RespHeader := [] |} "OK").
  vm_compute. reflexivity.
Defined.

Lemma length_take (n : nat) (s : string) :
  String.length (GoStrings.take n s) = Nat.min n (String.length s).
Proof.
  revert s. induction n as [|n IH]; intros [|ch s]; simpl; try reflexivity.
  rewrite IH. reflexivity.
Qed.

Lemma prefix_take (n : nat) (s : string) : String.prefix (GoStrings.take n s) s = true.
Proof.
  revert s. induction n as [|n IH]; intros [|ch s]; simpl; try reflexivity.
  destruct (ascii_dec ch ch); [apply IH|contradiction].
Qed.

Lemma prefix_refl (s : string) : String.prefix s s = true.
Proof.
  induction s as [|ch s IH]; simpl; [reflexivity|].
  destruct (ascii_dec ch ch); [exact IH|contradiction].
Qed.

(** The body a call hands back is a prefix of what the server sent, never
    longer than the limit (empty when the limit is not positive), and the
    whole of it when it fits. *)
Theorem readBody_is_a_capped_prefix (maxBody : Z) (body : string) :
  GoStrings.HasPrefix body (readBody maxBody body) = true /\
  GoStrings.len (readBody maxBody body) <= Z.max 0 maxBody /\
  (GoStrings.len body <= maxBody -> readBody maxBody body = body).
Proof.
  unfold readBody, GoStrings.HasPrefix, GoStrings.len.
  destruct (Z.leb_spec (Z.of_nat (String.length body)) maxBody) as [Hle|Hgt].
  - split; [apply prefix_refl|]. split; [lia|reflexivity].
  - split; [apply prefix_take|]. split; [|lia].
    rewrite length_take. lia.
Qed.

(** For the attempts a call can reach without overflow, the bound of the
    random delay is [2 ^ attempt] seconds, capped at 30 seconds. *)
Theorem jitter_bound (attempt : Z) :
  0 <= attempt <= 33 ->
  jitter attempt = Some (Z.min (2 ^ attempt * Second) (30 * Second)).
Proof.
  intros Hn.
  assert (Hall : forallb (fun n => match jitter n with
                                   | Some b => b =? Z.min (2 ^ n * Second) (30 * Second)
                                   | None => false
                                   end) (seqZ 0 34) = true) by (vm_compute; reflexivity).
  rewrite forallb_forall in Hall.
  specialize (Hall attempt ltac:(apply list_elem_of_In, elem_of_seqZ; lia)).
  destruct (jitter attempt) as [b|]; [|discriminate].
  apply Z.eqb_eq in Hall. rewrite Hall. reflexivity.
Qed.

Lemma jitter_bound_witness : jitter 5 = Some (Z.min (2 ^ 5 * Second) (30 * Second)).
Proof. apply (jitter_bound 5). lia. Defined.

(** The limiter of a host is the one its first call created: a later call
    with another positive rate gets the same limiter back, and a call with
    a rate that is not positive gets none and creates none. *)
Theorem getRateLimiter_keeps_first_rate (host : string) (first later : Z) (ls : gmap string Z) :
  0 < first -> 0 < later -> ls !! host = None ->
  fst (getRateLimiter host first ls) = Some first /\
  getRateLimiter host later (snd (getRateLimiter host first ls))
    = (Some first, snd (getRateLimiter host first ls)) /\
  (forall rateLimit, rateLimit <= 0 -> getRateLimiter host rateLimit ls = (None, ls)).
Proof.
  intros Hf Hl Hnone. unfold getRateLimiter.
  destruct (Z.leb_spec first 0); [lia|]. rewrite Hnone. cbn [fst snd].
  destruct (Z.leb_spec later 0); [lia|]. rewrite lookup_insert_eq.
  split; [reflexivity|]. split; [reflexivity|].
  intros rateLimit Hr. destruct (Z.leb_spec rateLimit 0); [reflexivity|lia].
Qed.

Lemma getRateLimiter_keeps_first_rate_witness :
  getRateLimiter "example.com" 50 (snd (getRateLimiter "example.com" 5 ∅))
  = (Some 5, snd (getRateLimiter "example.com" 5 ∅)).
Proof.
  refine (proj1 (proj2 (getRateLimiter_keeps_first_rate "example.com" 5 50 ∅ _ _ _))).
  - lia.
  - lia.
  - apply lookup_empty.
Defined.

Lemma record_failures_fields (env : Env) (host : string) (k : nat) (first : Z) (cb : CircuitBreaker) :
  threshold (record_failures env host first (Z.of_nat k) cb) = threshold cb /\
  resetTimeout (record_failures env host first (Z.of_nat k) cb) = resetTimeout cb.
Proof.
  revert first cb. induction k as [|k IH]; intros first cb.
  - split; reflexivity.
  - unfold record_failures. rewrite (seqZ_cons first (Z.of_nat (S k))) by lia.
    replace (Z.pred (Z.of_nat (S k))) with (Z.of_nat k) by lia. cbn [fold_left].
    destruct (IH (Z.succ first) (recordFailure (nowAtAttempt env first) host cb)) as [H1 H2].
    unfold record_failures in H1, H2. rewrite H1, H2. split; reflexivity.
Qed.

Lemma record_failures_entry (env : Env) (host : string) (k : nat) (first : Z) (cb : CircuitBreaker) :
  0 <= default 0 (failureCounts cb !! host) ->
  default 0 (failureCounts cb !! host) + Z.of_nat k <= GoInt.max_int ->
  default 0 (failureCounts (record_failures env host first (Z.of_nat k) cb) !! host)
    = default 0 (failureCounts cb !! host) + Z.of_nat k /\
  ((0 < k)%nat ->
   lastFailure (record_failures env host first (Z.of_nat k) cb) !! host
     = Some (nowAtAttempt env (first + Z.of_nat k - 1))).
Proof.
  revert first cb. induction k as [|k IH]; intros first cb H0 Hmax.
  - unfold record_failures. change (seqZ first (Z.of_nat 0)) with (@nil Z). cbn [fold_left].
    split; [rewrite Z.add_0_r; reflexivity | intros H; inversion H].
  - unfold record_failures. rewrite (seqZ_cons first (Z.of_nat (S k))) by lia.
    replace (Z.pred (Z.of_nat (S k))) with (Z.of_nat k) by lia. cbn [fold_left].
    set (cb1 := recordFailure (nowAtAttempt env first) host cb).
    assert (Hc1 : default 0 (failureCounts cb1 !! host)
                  = default 0 (failureCounts cb !! host) + 1).
    { unfold cb1. simpl. rewrite lookup_insert_eq. simpl. unfold GoInt.add.
      apply wrap_id. unfold GoInt.in_range, GoInt.min_int, GoInt.max_int in *. lia. }
    destruct (IH (Z.succ first) cb1) as [Hcount Hlast]; [lia|lia|].
    unfold record_failures in Hcount, Hlast. split.
    + rewrite Hcount, Hc1. lia.
    + intros _. destruct k as [|k].
      * simpl. rewrite lookup_insert_eq. f_equal. f_equal. lia.
      * rewrite Hlast by lia. f_equal. f_equal. lia.
Qed.

(** Counting from a host with no entry, the breaker is open exactly from
    the tenth recorded failure on, as long as the last failure is no older
    than the reset timeout. *)
Theorem breaker_opens_at_the_tenth_failure (env : Env) (host : string) (cb : CircuitBreaker)
    (now k : Z) :
  cleared host cb ->
  threshold cb = 10 ->
  0 <= k <= GoInt.max_int ->
  now - nowAtAttempt env (k - 1) <= resetTimeout cb ->
  fst (isOpen now host (record_failures env host 0 k cb)) = (10 <=? k).
Proof.
  intros [Hc Hl] Hth Hk Hfresh.
  rewrite <- (Z2Nat.id k) in * by lia. set (n := Z.to_nat k) in *.
  destruct (record_failures_fields env host n 0 cb) as [Ht Hr].
  destruct (record_failures_entry env host n 0 cb) as [Hcount Hlast];
    [rewrite Hc; simpl; lia | rewrite Hc; simpl; lia |].
  rewrite Hc in Hcount. simpl in Hcount.
  unfold isOpen. rewrite Ht, Hth, Hcount.
  destruct n as [|n].
  - unfold record_failures. change (seqZ 0 (Z.of_nat 0)) with (@nil Z). cbn [fold_left].
    rewrite Hl. reflexivity.
  - rewrite Hlast by lia. rewrite Hr.
    replace (0 + Z.of_nat (S n) - 1) with (Z.of_nat (S n) - 1) by lia.
    destruct (Z.ltb_spec (resetTimeout cb) (now - nowAtAttempt env (Z.of_nat (S n) - 1)));
      [lia|reflexivity].
Qed.

Lemma breaker_opens_at_the_tenth_failure_witness :
  fst (isOpen 10 "example.com" (record_failures env500 "example.com" 0 10 NewCircuitBreaker))
  = (10 <=? 10).
Proof.
  apply (breaker_opens_at_the_tenth_failure env500 "example.com" NewCircuitBreaker 10 10).
  - split; apply lookup_empty.
  - reflexivity.
  - unfold GoInt.max_int. lia.
  - simpl. unfold Second. lia.
Defined.

End TransportFacts.

(** ** The bypass strategies *)

Module BypassFacts.
Import GoStrings Scanner.

Lemma length_append (a b : string) :
  String.length (a +:+ b) = (String.length a + String.length b)%nat.
Proof. induction a as [|c a IH]; simpl; [reflexivity|]. rewrite IH. reflexivity. Qed.

(** Putting a slash before what [TrimPrefix] leaves of a path that begins
    with a slash gives the path back. *)
Lemma slash_TrimPrefix (path : string) :
  HasPrefix path "/" = true -> "/" +:+ TrimPrefix path "/" = path.
Proof.
  unfold TrimPrefix. intros H. rewrite H.
  destruct path as [|c rest]; [vm_compute in H; discriminate H|].
  unfold HasPrefix in H. cbn [String.prefix] in H.
  destruct (ascii_dec "/" c) as [<-|]; [reflexivity|discriminate H].
Qed.

Lemma extractPath_begins_with_slash (url : string) : HasPrefix (extractPath url) "/" = true.
Proof.
  unfold extractPath.
  destruct (SplitN url "/" 4) as [|a [|b [|c [|d [|e l]]]]]; try reflexivity.
  destruct d; reflexivity.
Qed.

Lemma pathBypass_URL (name baseURL altPath targetURL userAgent : string) (cfg : Config) :
  option_map HTTP.URL (Build (pathBypass name baseURL altPath) targetURL userAgent cfg)
  = Some (baseURL +:+ altPath).
Proof. reflexivity. Qed.

(** C3, on the code: the strategy named path-double-slash requests the base
    URL followed by the original path, with its single leading slash, and
    not the base URL followed by a slash and the original path. *)
Theorem path_double_slash_requests_original_path
    (originalURL userAgent : string) (cfg : Config) :
  option_map HTTP.URL (strategyRequest "path-double-slash" originalURL userAgent cfg)
    = Some (extractBaseURL originalURL +:+ extractPath originalURL) /\
  option_map HTTP.URL (strategyRequest "path-double-slash" originalURL userAgent cfg)
    <> Some (extractBaseURL originalURL +:+ "/" +:+ extractPath originalURL).
Proof.
  assert (E : option_map HTTP.URL
                (strategyRequest "path-double-slash" originalURL userAgent cfg)
              = Some (extractBaseURL originalURL +:+ extractPath originalURL)).
  { unfold strategyRequest, buildBypassStrategies. cbn [List.find Name headerBypass pathBypass].
    cbn. rewrite slash_TrimPrefix by apply extractPath_begins_with_slash. reflexivity. }
  split; [exact E|]. rewrite E. intros H. injection H as H.
  apply (f_equal String.length) in H. rewrite !length_append in H. simpl in H. lia.
Qed.

(** The denied URL [http://example.com/admin] is requested again as it is. *)
Example path_double_slash_admin :
  option_map HTTP.URL
    (strategyRequest "path-double-slash" "http://example.com/admin" "agent" (scenario_config 0))
  = Some "http://example.com/admin".
Proof. reflexivity. Qed.

(** The sibling strategy does put its prefix before the path. *)
Example path_dotslash_admin :
  option_map HTTP.URL
    (strategyRequest "path-dotslash" "http://example.com/admin" "agent" (scenario_config 0))
  = Some "http://example.com/./admin".
Proof. reflexivity. Qed.

(** *** Taking a URL apart *)

Import GoStringsFacts.

Lemma drop_past (a b : string) (m : nat) : drop (String.length a + m) (a +:+ b) = drop m b.
Proof.
  induction a as [|x a IH]; [reflexivity|]. rewrite append_cons. exact IH.
Qed.

Lemma take_past (a b : string) (m : nat) : take (String.length a + m) (a +:+ b) = a +:+ take m b.
Proof.
  induction a as [|x a IH]; [reflexivity|].
  rewrite !append_cons. cbn [String.length Nat.add take]. rewrite IH. reflexivity.
Qed.

Lemma SplitN_step (s : string) (sep : ascii) (n : nat) :
  SplitN s sep (S (S n))
  = match cut s sep with
    | Some (before, after) => before :: SplitN after sep (S n)
    | None => [s]
    end.
Proof. reflexivity. Qed.

Lemma Index_scheme_mark (scheme t : string) :
  CountByte scheme "/" = 0 -> Index (scheme +:+ "://" +:+ t) "://" = len scheme.
Proof.
  intros H. unfold Index.
  change (scheme +:+ "://" +:+ t) with (scheme +:+ String ":" (String "/" (String "/" t))).
  rewrite Index_from_scheme_mark; [lia|exact H|]. rewrite length_append. lia.
Qed.

Lemma cut_scheme_mark (scheme t : string) :
  CountByte scheme "/" = 0 ->
  cut (scheme +:+ "://" +:+ t) "/" = Some (scheme +:+ ":", String "/" t).
Proof.
  intros H.
  replace (scheme +:+ "://" +:+ t) with ((scheme +:+ ":") +:+ String "/" (String "/" t))
    by (rewrite append_assoc; reflexivity).
  apply cut_first. rewrite CountByte_append, H. reflexivity.
Qed.

(** A URL made of a scheme, [://], a host and a path that begins with a
    slash is split into exactly these: [extractBaseURL] gives the scheme and
    the host, [extractPath] gives the path, and the two put together give the
    URL back.  A URL with no path is its own base, and its path is [/]. *)
Theorem url_is_split_at_the_path (scheme host : string) :
  CountByte scheme "/" = 0 ->
  CountByte host "/" = 0 ->
  (forall rest,
     extractBaseURL (scheme +:+ "://" +:+ host +:+ "/" +:+ rest) = scheme +:+ "://" +:+ host /\
     extractPath (scheme +:+ "://" +:+ host +:+ "/" +:+ rest) = "/" +:+ rest /\
     extractBaseURL (scheme +:+ "://" +:+ host +:+ "/" +:+ rest)
       +:+ extractPath (scheme +:+ "://" +:+ host +:+ "/" +:+ rest)
     = scheme +:+ "://" +:+ host +:+ "/" +:+ rest) /\
  extractBaseURL (scheme +:+ "://" +:+ host) = scheme +:+ "://" +:+ host /\
  extractPath (scheme +:+ "://" +:+ host) = "/".
Proof.
  intros Hscheme Hhost.
  assert (Hnat : forall k : nat, Z.to_nat (len scheme + 3 + Z.of_nat k)
                                 = (String.length scheme + (3 + k))%nat).
  { intros k. unfold len. lia. }
  split; [intros rest|].
  - assert (Hbase : extractBaseURL (scheme +:+ "://" +:+ host +:+ "/" +:+ rest)
                    = scheme +:+ "://" +:+ host).
    { unfold extractBaseURL. rewrite (Index_scheme_mark scheme _ Hscheme).
      destruct (Z.ltb_spec (len scheme) 0) as [Hneg|_]; [unfold len in Hneg; lia|].
      replace (Z.to_nat (len scheme + 3)) with (String.length scheme + 3)%nat
        by (unfold len; lia).
      rewrite drop_past.
      change (drop 3 ("://" +:+ host +:+ "/" +:+ rest)) with (host +:+ String "/" rest).
      unfold Index. rewrite Index_from_slash; [|exact Hhost|rewrite length_append; lia].
      destruct (Z.ltb_spec (0 + len host) 0) as [Hneg|_]; [unfold len in Hneg; lia|].
      replace (Z.to_nat (len scheme + 3 + (0 + len host)))
        with (String.length scheme + (3 + String.length host))%nat by (unfold len; lia).
      rewrite take_past.
      change (take (3 + String.length host) ("://" +:+ host +:+ "/" +:+ rest))
        with ("://" +:+ take (String.length host) (host +:+ "/" +:+ rest)).
      rewrite take_append. reflexivity. }
    assert (Hpath : extractPath (scheme +:+ "://" +:+ host +:+ "/" +:+ rest) = "/" +:+ rest).
    { unfold extractPath.
      rewrite SplitN_step, (cut_scheme_mark scheme _ Hscheme). cbv beta iota.
      rewrite SplitN_step. change (cut (String "/" (host +:+ "/" +:+ rest)) "/")
        with (Some (EmptyString, host +:+ String "/" rest)). cbv beta iota.
      rewrite SplitN_step, (cut_first host rest "/" Hhost). reflexivity. }
    split; [exact Hbase|]. split; [exact Hpath|].
    rewrite Hbase, Hpath, !append_assoc. reflexivity.
  - split.
    + unfold extractBaseURL. rewrite (Index_scheme_mark scheme _ Hscheme).
      destruct (Z.ltb_spec (len scheme) 0) as [Hneg|_]; [unfold len in Hneg; lia|].
      replace (Z.to_nat (len scheme + 3)) with (String.length scheme + 3)%nat
        by (unfold len; lia).
      rewrite drop_past. change (drop 3 ("://" +:+ host)) with host.
      unfold Index. rewrite Index_from_slash_none by exact Hhost. reflexivity.
    + unfold extractPath.
      rewrite SplitN_step, (cut_scheme_mark scheme _ Hscheme). cbv beta iota.
      rewrite SplitN_step. change (cut (String "/" host) "/") with (Some (EmptyString, host)).
      cbv beta iota.
      rewrite SplitN_step, (cut_none host "/" Hhost). reflexivity.
Qed.

Lemma url_is_split_at_the_path_witness :
  extractBaseURL "http://example.com/admin/users" = "http://example.com" /\
  extractPath "http://example.com/admin/users" = "/admin/users" /\
  extractBaseURL "http://example.com/admin/users" +:+ extractPath "http://example.com/admin/users"
  = "http://example.com/admin/users".
Proof.
  exact (proj1 (url_is_split_at_the_path "http" "example.com" eq_refl eq_refl) "admin/users").
Defined.

(** *** The case strategy *)

Lemma swapCase_involutive (c : ascii) : swapCase (swapCase c) = c.
Proof.
  destruct c as [b0 b1 b2 b3 b4 b5 b6 b7];
    destruct b0, b1, b2, b3, b4, b5, b6, b7; vm_compute; reflexivity.
Qed.

Lemma swapCase_slash (c : ascii) : Ascii.eqb (swapCase c) "/" = Ascii.eqb c "/".
Proof.
  destruct c as [b0 b1 b2 b3 b4 b5 b6 b7];
    destruct b0, b1, b2, b3, b4, b5, b6, b7; vm_compute; reflexivity.
Qed.

Lemma toggleFirst_involutive (segment : string) : toggleFirst (toggleFirst segment) = segment.
Proof. destruct segment as [|c tail]; simpl; [reflexivity|]. rewrite swapCase_involutive. reflexivity. Qed.

Lemma toggleFirst_no_slash (segment : string) :
  CountByte segment "/" = 0 -> CountByte (toggleFirst segment) "/" = 0.
Proof.
  destruct segment as [|c tail]; simpl; [reflexivity|]. rewrite swapCase_slash. auto.
Qed.

Lemma manipulateCase_no_slash (path : string) :
  CountByte path "/" = 0 -> manipulateCase path = path.
Proof.
  intros H. unfold manipulateCase, LastIndex.
  rewrite LastIndex_from_slash_none by exact H. reflexivity.
Qed.

Lemma manipulateCase_segment (pre segment : string) :
  CountByte segment "/" = 0 ->
  manipulateCase (pre +:+ String "/" segment) = pre +:+ String "/" (toggleFirst segment).
Proof.
  intros H. unfold manipulateCase, LastIndex.
  rewrite LastIndex_from_slash by (first [lia | exact H]).
  destruct (Z.ltb_spec (0 + len pre) 0) as [Hneg|_]; [unfold len in Hneg; lia|].
  cbn [orb]. rewrite len_append.
  destruct segment as [|c tail].
  - destruct (Z.leb_spec (len pre + len "/" - 1) (0 + len pre)) as [_|Hgt];
      [reflexivity | unfold len in Hgt; simpl in Hgt; lia].
  - destruct (Z.leb_spec (len pre + len (String "/" (String c tail)) - 1) (0 + len pre))
      as [Hle|_]; [unfold len in Hle; simpl String.length in Hle; lia|].
    replace (Z.to_nat (0 + len pre + 1)) with (String.length pre + 1)%nat by (unfold len; lia).
    rewrite drop_past, take_past.
    change (drop 1 (String "/" (String c tail))) with (String c tail).
    change (take 1 (String "/" (String c tail))) with "/".
    unfold toggleFirst, swapCase.
    destruct (is_lower c); [rewrite append_assoc; reflexivity|].
    destruct (is_upper c); [rewrite append_assoc; reflexivity|reflexivity].
Qed.

(** Swapping the case twice gives the path back, and the length never
    changes: the strategy alters at most the first byte of the last
    segment, and only its case. *)
Theorem manipulateCase_involutive (path : string) :
  manipulateCase (manipulateCase path) = path /\
  len (manipulateCase path) = len path.
Proof.
  destruct (last_slash path) as [H0|(pre & segment & -> & Hseg)].
  - rewrite (manipulateCase_no_slash path H0), (manipulateCase_no_slash path H0).
    split; reflexivity.
  - rewrite (manipulateCase_segment pre segment Hseg).
    rewrite (manipulateCase_segment pre _ (toggleFirst_no_slash segment Hseg)).
    rewrite toggleFirst_involutive. split; [reflexivity|].
    rewrite !len_append. f_equal. unfold len. destruct segment; reflexivity.
Qed.

(** *** What a bypass returns *)

Lemma tryStrategies_result {W} (env : Env W) (strategies : list BypassStrategy)
    (originalURL userAgent : string) (cfg : Config) (w : W) (b : BypassResult) :
  fst (tryStrategies env strategies originalURL userAgent cfg w) = Some b ->
  In (BypassResult_Strategy b) (map Name strategies) /\
  isBypassSuccess (StatusCode (BypassResult_Result b)) = true /\
  Method (BypassResult_Result b) = "GET+BYPASS" /\
  URL (BypassResult_Result b)
    = originalURL +:+ " [BYPASS:" +:+ BypassResult_Strategy b +:+ "]" /\
  Critical (BypassResult_Result b) = false.
Proof.
  revert w. induction strategies as [|strategy rest IH]; intros w; cbn [tryStrategies].
  - discriminate.
  - destruct (ctxDone env w); [discriminate|].
    assert (Hcrit : forall r body w', Execute env strategy originalURL userAgent cfg w
                                      = (Some (r, body), w') -> Critical r = false).
    { unfold Execute, executeBypassRequest. intros r body w'.
      destruct (Build strategy originalURL userAgent cfg) as [req|]; [|discriminate].
      destruct (roundTrip env req w) as [[[resp body0]|] w0]; [|discriminate].
      intros H. injection H as <- _ _. reflexivity. }
    destruct (Execute env strategy originalURL userAgent cfg w) as [[[result body]|] w'] eqn:E.
    + destruct (isBypassSuccess (StatusCode result)) eqn:Hok.
      * cbn [fst]. intros H. injection H as <-. cbn.
        split; [left; reflexivity|]. split; [exact Hok|].
        split; [reflexivity|]. split; [reflexivity|]. exact (Hcrit _ _ _ eq_refl).
      * intros H. destruct (IH w' H) as (Hin & Hrest). split; [right; exact Hin|exact Hrest].
    + intros H. destruct (IH w' H) as (Hin & Hrest). split; [right; exact Hin|exact Hrest].
Qed.

(** Whatever the servers answer, a Result that the bypass attempt returns
    was answered 200, 301 or 302, carries the method [GET+BYPASS] and the
    denied URL followed by the name of the strategy that got through, which
    is one of the catalogue; and when the context is already cancelled the
    attempt returns nothing and makes no request. *)
Theorem attemptBypassStrategies_result {W} (env : Env W) (originalURL userAgent : string)
    (cfg : Config) (w : W) :
  (forall b,
     fst (attemptBypassStrategies env originalURL userAgent cfg w) = Some b ->
     In (BypassResult_Strategy b)
        (map Name (buildBypassStrategies (extractBaseURL originalURL) (extractPath originalURL))) /\
     isBypassSuccess (StatusCode (BypassResult_Result b)) = true /\
     Method (BypassResult_Result b) = "GET+BYPASS" /\
     URL (BypassResult_Result b)
       = originalURL +:+ " [BYPASS:" +:+ BypassResult_Strategy b +:+ "]" /\
     Critical (BypassResult_Result b) = false) /\
  (ctxDone env w = true ->
   attemptBypassStrategies env originalURL userAgent cfg w = (None, w)).
Proof.
  split.
  - intros b. apply tryStrategies_result.
  - intros Hdone. unfold attemptBypassStrategies, buildBypassStrategies.
    cbn [tryStrategies]. rewrite Hdone. reflexivity.
Qed.

Lemma attemptBypassStrategies_result_witness :
  exists b,
    fst (attemptBypassStrategies (scenario trusting_server) "http://example.com/endpoint"
           "agent" (scenario_config 0) tt) = Some b /\
    URL (BypassResult_Result b) = "http://example.com/endpoint [BYPASS:headers]".
Proof.
  eexists. split; [vm_compute; reflexivity|].
  refine (proj1 (proj2 (proj2 (proj2
            (proj1 (attemptBypassStrategies_result (scenario trusting_server)
                      "http://example.com/endpoint" "agent" (scenario_config 0) tt) _ _))))).
  vm_compute. reflexivity.
Defined.

End BypassFacts.

(** ** The worker *)

Module ScannerFacts.
Import GoStrings Scanner GoIntFacts.


Lemma skipn_app_length {A} (l k : list A) : skipn (length l) (l ++ k) = k.
Proof. induction l; simpl; auto. Qed.

Lemma count_origin_app (o : Origin) (l k : list (Origin * Result)) :
  count_origin o (l ++ k) = (count_origin o l + count_origin o k)%nat.
Proof. unfold count_origin. rewrite filter_app, length_app. reflexivity. Qed.

Lemma count_origin_other (o : Origin) (l : list (Origin * Result)) :
  Forall (fun e => origin_eqb (fst e) o = false) l -> count_origin o l = 0%nat.
Proof.
  unfold count_origin. induction 1 as [|e l He _ IH]; [reflexivity|].
  rewrite filter_cons. destruct (decide _) as [Ht|Hf]; [|exact IH].
  rewrite He in Ht. contradiction.
Qed.

Section Worker.
Context {W : Type} (env : Env W) (cfg : Config).

Lemma same_shape_refl (r : Result) : same_shape r r.
Proof. repeat split. Qed.

Lemma same_shape_trans (r1 r2 r3 : Result) :
  same_shape r1 r2 -> same_shape r2 r3 -> same_shape r1 r3.
Proof. unfold same_shape. intros (?&?&?&?&?) (?&?&?&?&?). repeat split; congruence. Qed.

Lemma AssignSeverityAndConfidence_shape (r : Result) :
  same_shape r (AssignSeverityAndConfidence env r).
Proof. repeat split. Qed.

(** The fuzzing loop sends at most one Result, and adds one to [Found]
    exactly when it sends one. *)
Lemma fuzzMethods_effect (url userAgent : string) (methods : list string) (st : WorkerState W) :
  pushed (fuzzMethods env cfg url userAgent methods st) = pushed st /\
  taskWg (fuzzMethods env cfg url userAgent methods st) = taskWg st /\
  ((sent (fuzzMethods env cfg url userAgent methods st) = sent st /\
    Found (stats (fuzzMethods env cfg url userAgent methods st)) = Found (stats st)) \/
   (exists r,
      sent (fuzzMethods env cfg url userAgent methods st) = sent st ++ [(MethodFuzz, r)] /\
      Found (stats (fuzzMethods env cfg url userAgent methods st))
        = GoInt.add (Found (stats st)) 1 /\
      Critical r = true /\ In (Method r) methods)).
Proof.
  revert st. induction methods as [|method rest IH]; intros st; simpl.
  - auto.
  - destruct (ctxDone env (world st)); [auto|].
    destruct (makeRequest env cfg url method userAgent (world st)) as [[[[mr mb] mresp]|] w].
    + destruct ((StatusCode mr =? 200) || (StatusCode mr =? 201) || (StatusCode mr =? 204)).
      * destruct (nonempty (DetectSecrets env mb));
          destruct (nonempty (DetectTechNames env mresp mb)); cbn;
          (split; [reflexivity|]; split; [reflexivity|]; right; eexists;
           split; [reflexivity|]; split; [reflexivity|]; split; [reflexivity|]; left; reflexivity).
      * destruct (IH (with_world st w)) as (Hp & Hw & H). split; [exact Hp|]. split; [exact Hw|].
        destruct H as [[Hs Hf]|(r & Hs & Hf & Hc & Hin)]; [left; auto|].
        right. exists r. repeat split; auto.
    + destruct (IH (with_world st w)) as (Hp & Hw & H). split; [exact Hp|]. split; [exact Hw|].
      destruct H as [[Hs Hf]|(r & Hs & Hf & Hc & Hin)]; [left; auto|].
      right. exists r. repeat split; auto.
Qed.

(** The interesting branch adds one to [Found], sends the Result of a
    successful bypass if there is one, pushes at most one directory task,
    and sends the primary Result last. *)
Lemma interesting_effect (task : Task) (url userAgent : string) (result : Result)
    (bodyContent : string) (resp : HTTP.Response) (st : WorkerState W) :
  exists bypassed r newTasks,
    sent (interesting env cfg task url userAgent result bodyContent resp st)
      = sent st ++ bypassed ++ [(Primary, r)] /\
    Forall (fun e => fst e = Bypass) bypassed /\
    same_shape result r /\
    Found (stats (interesting env cfg task url userAgent result bodyContent resp st))
      = GoInt.add (Found (stats st)) 1 /\
    pushed (interesting env cfg task url userAgent result bodyContent resp st)
      = pushed st ++ newTasks /\
    (newTasks = [] \/
     (newTasks = [ {| TargetURL := TargetURL task; Path := extractPath url;
                      Depth := GoInt.add (Depth task) 1 |} ] /\
      0 < MaxDepth cfg /\ Depth task < MaxDepth cfg)).
Proof.
  unfold interesting.
  set (st1 := with_stats st IncrementFound).
  destruct (if (StatusCode result =? 200) && (0 <? len bodyContent)
            then if nonempty (DetectSecrets env bodyContent)
                 then (set_Secrets result (DetectSecrets env bodyContent),
                       with_stats st1 IncrementSecrets)
                 else (result, st1)
            else (result, st1)) as [result2 st2] eqn:E2.
  assert (H2 : same_shape result result2 /\ sent st2 = sent st /\ pushed st2 = pushed st /\
               Found (stats st2) = GoInt.add (Found (stats st)) 1).
  { destruct ((StatusCode result =? 200) && (0 <? len bodyContent));
      [destruct (nonempty (DetectSecrets env bodyContent))|];
      injection E2 as <- <-; repeat split. }
  destruct H2 as (Hshape2 & Hsent2 & Hpushed2 & Hfound2). clear E2.
  set (result3 := if nonempty (DetectTechNames env resp bodyContent)
                  then set_Technologies result2 (DetectTechNames env resp bodyContent)
                  else result2).
  assert (Hshape3 : same_shape result result3).
  { apply (same_shape_trans _ result2); [exact Hshape2|].
    unfold result3. destruct (nonempty _); repeat split. }
  clearbody result3.
  set (st3 := if negb (SafeMode cfg) && ((StatusCode result3 =? 403) || (StatusCode result3 =? 401))
              then _ else st2).
  assert (H3 : exists bypassed,
             sent st3 = sent st ++ bypassed /\ Forall (fun e => fst e = Bypass) bypassed /\
             pushed st3 = pushed st /\ Found (stats st3) = GoInt.add (Found (stats st)) 1).
  { unfold st3. destruct (negb (SafeMode cfg) && _).
    - destruct (attemptBypassStrategies env url userAgent cfg (world st2)) as [[b|] w].
      + destruct (nonempty (DetectSecrets env (BypassResult_Body b))); cbn;
          (eexists [_]; rewrite Hsent2; split; [reflexivity|];
           split; [repeat constructor|]; split; assumption).
      + exists []. rewrite app_nil_r. cbn. repeat split; auto.
    - exists []. rewrite app_nil_r. repeat split; auto. }
  destruct H3 as (bypassed & Hsent3 & Hby & Hpushed3 & Hfound3). clearbody st3.
  set (st4 := if (0 <? MaxDepth cfg) && (Depth task <? MaxDepth cfg) && isDirectory result3
              then _ else st3).
  assert (H4 : exists newTasks,
             sent st4 = sent st3 /\ stats st4 = stats st3 /\
             pushed st4 = pushed st3 ++ newTasks /\
             (newTasks = [] \/
              (newTasks = [ {| TargetURL := TargetURL task; Path := extractPath url;
                               Depth := GoInt.add (Depth task) 1 |} ] /\
               0 < MaxDepth cfg /\ Depth task < MaxDepth cfg))).
  { unfold st4.
    destruct (Z.ltb_spec 0 (MaxDepth cfg)); cbn [andb];
      [|exists []; rewrite app_nil_r; auto].
    destruct (Z.ltb_spec (Depth task) (MaxDepth cfg)); cbn [andb];
      [|exists []; rewrite app_nil_r; auto].
    destruct (isDirectory result3); [|exists []; rewrite app_nil_r; auto].
    cbn. destruct (sendWins env (world st3)); cbn.
    - eexists [_]. repeat split. right. repeat split; assumption.
    - exists []. rewrite app_nil_r. auto. }
  destruct H4 as (newTasks & Hsent4 & Hstats4 & Hpushed4 & Hnew). clearbody st4.
  exists bypassed, (AssignSeverityAndConfidence env result3), newTasks. cbn.
  rewrite Hsent4, Hsent3, Hstats4, Hfound3, Hpushed4, Hpushed3, <- app_assoc.
  repeat split; try assumption; try apply Hshape3.
Qed.

Lemma isInteresting_shape (r r' : Result) :
  same_shape r r' -> isInteresting r' = isInteresting r.
Proof. intros (Hs & _). unfold isInteresting. rewrite Hs. reflexivity. Qed.

Lemma matchesBaseline_shape (r r' : Result) (sigs : list Calibration.ResponseSignature) :
  same_shape r r' -> matchesBaseline env r' sigs = matchesBaseline env r sigs.
Proof.
  intros (Hs & Hz & Hw & Hl & _). unfold matchesBaseline. rewrite Hs, Hz, Hw, Hl. reflexivity.
Qed.

(** Everything one pass of the loop body does that the specification speaks of. *)
Lemma processTask_effect (calCache : gmap string (list Calibration.ResponseSignature))
    (task : Task) (st : WorkerState W) :
  exists fuzzed bypassed primary newTasks,
    sent (processTask env cfg calCache task st) = sent st ++ fuzzed ++ bypassed ++ primary /\
    (fuzzed = [] \/ exists r, fuzzed = [(MethodFuzz, r)] /\ Critical r = true) /\
    Forall (fun e => fst e = Bypass) bypassed /\
    (primary = [] \/
     exists r, primary = [(Primary, r)] /\
               matchesBaseline env r (signaturesFor calCache task) = false /\
               isInteresting r = true) /\
    Found (stats (processTask env cfg calCache task st))
      = bump (length fuzzed + length primary) (Found (stats st)) /\
    pushed (processTask env cfg calCache task st) = pushed st ++ newTasks /\
    (newTasks = [] \/
     exists path,
       newTasks = [ {| TargetURL := TargetURL task; Path := path;
                       Depth := GoInt.add (Depth task) 1 |} ] /\
       0 < MaxDepth cfg /\ Depth task < MaxDepth cfg).
Proof.
  unfold processTask.
  destruct (ctxDone env (world st)).
  { exists [], [], [], []. cbn. rewrite !app_nil_r. repeat split; auto. }
  destruct (getRandomUserAgent env (world st)) as [userAgent w0].
  set (url := TrimSuffix (TargetURL task) "/" +:+ "/" +:+ TrimPrefix (Path task) "/").
  destruct (makeRequest env cfg url "GET" userAgent w0) as [[[[result bodyContent] resp]|] w1].
  2:{ exists [], [], [], []. rewrite !app_nil_r.
      destruct (maxConsecutiveErrors <=? _); cbn; repeat split; auto. }
  fold (signaturesFor calCache task). fold (matchesBaseline env result (signaturesFor calCache task)).
  destruct (matchesBaseline env result (signaturesFor calCache task)) eqn:Hbase.
  { exists [], [], [], []. cbn. rewrite !app_nil_r. repeat split; auto. }
  set (st1 := with_consecutiveErrors (with_stats (with_world st w1) IncrementProcessed) 0).
  set (st2 := if (StatusCode result =? 405) && negb (SafeMode cfg)
              then fuzzMethods env cfg url userAgent alternativeMethods st1 else st1).
  assert (H2 : exists fuzzed,
             sent st2 = sent st ++ fuzzed /\
             (fuzzed = [] \/ exists r, fuzzed = [(MethodFuzz, r)] /\ Critical r = true) /\
             Found (stats st2) = bump (length fuzzed) (Found (stats st)) /\
             pushed st2 = pushed st).
  { unfold st2. destruct ((StatusCode result =? 405) && negb (SafeMode cfg)).
    - destruct (fuzzMethods_effect url userAgent alternativeMethods st1)
        as (Hp & _ & [[Hs Hf]|(r & Hs & Hf & Hc & _)]).
      + exists []. rewrite app_nil_r, Hs, Hf, Hp. repeat split; auto.
      + exists [(MethodFuzz, r)]. rewrite Hs, Hf, Hp. repeat split; eauto.
    - exists []. rewrite app_nil_r. repeat split; auto. }
  destruct H2 as (fuzzed & Hsent2 & Hfuzzed & Hfound2 & Hpushed2). clearbody st2.
  destruct (isInteresting result) eqn:Hint.
  - destruct (interesting_effect task url userAgent result bodyContent resp st2)
      as (bypassed & r & newTasks & Hs & Hby & Hshape & Hf & Hp & Hnew).
    exists fuzzed, bypassed, [(Primary, r)], newTasks. cbn [sent stats pushed wgAdd].
    rewrite Hs, Hsent2, Hf, Hfound2, Hp, Hpushed2, <- !app_assoc.
    split; [reflexivity|]. split; [exact Hfuzzed|]. split; [exact Hby|].
    split.
    { right. exists r. split; [reflexivity|].
      rewrite (matchesBaseline_shape _ _ _ Hshape), (isInteresting_shape _ _ Hshape). auto. }
    split.
    { unfold bump. rewrite Nat.add_comm. reflexivity. }
    split; [reflexivity|].
    destruct Hnew as [->|(-> & H1 & H2)]; [left; reflexivity|right; eauto].
  - exists fuzzed, [], [], []. cbn [sent stats pushed wgAdd].
    rewrite Hsent2, Hfound2, Hpushed2, !app_nil_r, Nat.add_0_r. repeat split; auto.
Qed.

(** C4, as amended: the Result a worker sends for the GET response of a
    task never matches a calibration signature of the task's target root;
    the Results of method fuzzing and of a bypass are sent without that
    check. *)
Theorem primary_result_is_not_baseline
    (calCache : gmap string (list Calibration.ResponseSignature))
    (task : Task) (st : WorkerState W) (o : Origin) (r : Result) :
  In (o, r) (emitted env cfg calCache task st) ->
  o = Primary ->
  matchesBaseline env r (signaturesFor calCache task) = false /\ isInteresting r = true.
Proof.
  intros Hin ->. unfold emitted in Hin.
  destruct (processTask_effect calCache task st)
    as (fuzzed & bypassed & primary & newTasks & Hs & Hfz & Hby & Hpr & _).
  rewrite Hs, skipn_app_length in Hin.
  apply in_app_or in Hin. destruct Hin as [Hin|Hin].
  { destruct Hfz as [->|(r' & -> & _)]; [destruct Hin|].
    destruct Hin as [Heq|[]]. discriminate Heq. }
  apply in_app_or in Hin. destruct Hin as [Hin|Hin].
  { rewrite Forall_forall in Hby. apply list_elem_of_In in Hin.
    specialize (Hby _ Hin). discriminate Hby. }
  destruct Hpr as [->|(r' & -> & Hb & Hi)]; [destruct Hin|].
  destruct Hin as [Heq|[]]. injection Heq as <-. auto.
Qed.

(** C9, as amended: handling one task adds one to [Found] for the Result
    sent by method fuzzing and one for the primary Result, and nothing
    for the Result of a bypass. *)
Theorem found_counts_fuzz_and_primary
    (calCache : gmap string (list Calibration.ResponseSignature))
    (task : Task) (st : WorkerState W) :
  Found (stats (processTask env cfg calCache task st))
  = bump (count_origin MethodFuzz (emitted env cfg calCache task st)
          + count_origin Primary (emitted env cfg calCache task st))
         (Found (stats st)).
Proof.
  unfold emitted.
  destruct (processTask_effect calCache task st)
    as (fuzzed & bypassed & primary & newTasks & Hs & Hfz & Hby & Hpr & Hf & _).
  rewrite Hs, skipn_app_length, Hf, !count_origin_app.
  assert (Hb1 : count_origin MethodFuzz bypassed = 0%nat).
  { apply count_origin_other. eapply Forall_impl; [exact Hby|].
    intros [o r] Ho. simpl in *. subst o. reflexivity. }
  assert (Hb2 : count_origin Primary bypassed = 0%nat).
  { apply count_origin_other. eapply Forall_impl; [exact Hby|].
    intros [o r] Ho. simpl in *. subst o. reflexivity. }
  rewrite Hb1, Hb2.
  assert (Hf1 : count_origin MethodFuzz fuzzed = length fuzzed
                /\ count_origin Primary fuzzed = 0%nat).
  { destruct Hfz as [->|(r & -> & _)]; split; reflexivity. }
  assert (Hp1 : count_origin Primary primary = length primary
                /\ count_origin MethodFuzz primary = 0%nat).
  { destruct Hpr as [->|(r & -> & _)]; split; reflexivity. }
  destruct Hf1 as [-> ->], Hp1 as [-> ->]. f_equal. lia.
Qed.

(** *** The Results of one task in detail *)

Lemma skipn_length_nil {A} (l : list A) : skipn (length l) l = [].
Proof. induction l; simpl; auto. Qed.

(** The fuzzing loop: what it sends was answered 200, 201 or 204 to one of
    the alternative methods and is marked critical; it pushes no task and
    leaves the WaitGroup alone. *)
Lemma fuzzMethods_detail (url userAgent : string) (methods : list string) (st : WorkerState W) :
  pushed (fuzzMethods env cfg url userAgent methods st) = pushed st /\
  taskWg (fuzzMethods env cfg url userAgent methods st) = taskWg st /\
  consecutiveErrors (fuzzMethods env cfg url userAgent methods st) = consecutiveErrors st /\
  (sent (fuzzMethods env cfg url userAgent methods st) = sent st \/
   exists r,
     sent (fuzzMethods env cfg url userAgent methods st) = sent st ++ [(MethodFuzz, r)] /\
     Critical r = true /\ In (Method r) methods /\ isFuzzSuccess (StatusCode r) = true).
Proof.
  revert st. induction methods as [|method rest IH]; intros st; simpl.
  - auto.
  - destruct (ctxDone env (world st)); [auto|].
    destruct (makeRequest env cfg url method userAgent (world st)) as [[[[mr mb] mresp]|] w].
    + destruct ((StatusCode mr =? 200) || (StatusCode mr =? 201) || (StatusCode mr =? 204)) eqn:Hok.
      * destruct (nonempty (DetectSecrets env mb));
          destruct (nonempty (DetectTechNames env mresp mb)); cbn;
          (split; [reflexivity|]; split; [reflexivity|]; split; [reflexivity|]; right; eexists;
           split; [reflexivity|]; split; [reflexivity|]; split; [left; reflexivity|exact Hok]).
      * destruct (IH (with_world st w)) as (Hp & Hw & Hc & H).
        split; [exact Hp|]. split; [exact Hw|]. split; [exact Hc|].
        destruct H as [Hs|(r & Hs & Hcr & Hin & Hst)]; [left; exact Hs|].
        right. exists r. repeat split; auto.
    + destruct (IH (with_world st w)) as (Hp & Hw & Hc & H).
      split; [exact Hp|]. split; [exact Hw|]. split; [exact Hc|].
      destruct H as [Hs|(r & Hs & Hcr & Hin & Hst)]; [left; exact Hs|].
      right. exists r. repeat split; auto.
Qed.

(** The interesting branch: the primary Result keeps the status of the
    response; a bypass Result goes before it only outside safe mode and for
    a 401 or 403, and is a critical [GET+BYPASS] answered 200, 301 or 302;
    the WaitGroup grows by the number of tasks pushed. *)
Lemma interesting_detail (task : Task) (url userAgent : string) (result : Result)
    (bodyContent : string) (resp : HTTP.Response) (st : WorkerState W) :
  exists bypassed r newTasks,
    sent (interesting env cfg task url userAgent result bodyContent resp st)
      = sent st ++ bypassed ++ [(Primary, r)] /\
    StatusCode r = StatusCode result /\
    (bypassed = [] \/
     exists b, bypassed = [(Bypass, b)] /\ SafeMode cfg = false /\
               (StatusCode result = 401 \/ StatusCode result = 403) /\
               Critical b = true /\ Method b = "GET+BYPASS" /\
               isBypassSuccess (StatusCode b) = true) /\
    pushed (interesting env cfg task url userAgent result bodyContent resp st)
      = pushed st ++ newTasks /\
    taskWg (interesting env cfg task url userAgent result bodyContent resp st)
      = taskWg st + Z.of_nat (length newTasks) /\
    consecutiveErrors (interesting env cfg task url userAgent result bodyContent resp st)
      = consecutiveErrors st.
Proof.
  unfold interesting.
  set (st1 := with_stats st IncrementFound).
  destruct (if (StatusCode result =? 200) && (0 <? len bodyContent)
            then if nonempty (DetectSecrets env bodyContent)
                 then (set_Secrets result (DetectSecrets env bodyContent),
                       with_stats st1 IncrementSecrets)
                 else (result, st1)
            else (result, st1)) as [result2 st2] eqn:E2.
  assert (H2 : StatusCode result2 = StatusCode result /\ sent st2 = sent st /\
               pushed st2 = pushed st /\ taskWg st2 = taskWg st /\
               consecutiveErrors st2 = consecutiveErrors st).
  { destruct ((StatusCode result =? 200) && (0 <? len bodyContent));
      [destruct (nonempty (DetectSecrets env bodyContent))|];
      injection E2 as <- <-; repeat split. }
  destruct H2 as (Hstatus2 & Hsent2 & Hpushed2 & Hwg2 & Hce2). clear E2.
  set (result3 := if nonempty (DetectTechNames env resp bodyContent)
                  then set_Technologies result2 (DetectTechNames env resp bodyContent)
                  else result2).
  assert (Hstatus3 : StatusCode result3 = StatusCode result).
  { unfold result3. destruct (nonempty _); exact Hstatus2. }
  clearbody result3.
  set (st3 := if negb (SafeMode cfg) && ((StatusCode result3 =? 403) || (StatusCode result3 =? 401))
              then _ else st2).
  assert (H3 : exists bypassed,
             sent st3 = sent st ++ bypassed /\
             (bypassed = [] \/
              exists b, bypassed = [(Bypass, b)] /\ SafeMode cfg = false /\
                        (StatusCode result = 401 \/ StatusCode result = 403) /\
                        Critical b = true /\ Method b = "GET+BYPASS" /\
                        isBypassSuccess (StatusCode b) = true) /\
             pushed st3 = pushed st /\ taskWg st3 = taskWg st /\
             consecutiveErrors st3 = consecutiveErrors st).
  { unfold st3.
    destruct (negb (SafeMode cfg) && ((StatusCode result3 =? 403) || (StatusCode result3 =? 401)))
      eqn:Hcond.
    - apply andb_true_iff in Hcond. destruct Hcond as [Hsafe Hdenied].
      apply negb_true_iff in Hsafe. rewrite Hstatus3 in Hdenied.
      assert (Hd : StatusCode result = 401 \/ StatusCode result = 403).
      { apply orb_true_iff in Hdenied. destruct Hdenied as [H|H]; apply Z.eqb_eq in H; auto. }
      destruct (attemptBypassStrategies env url userAgent cfg (world st2)) as [[b|] w] eqn:Hby.
      + destruct (BypassFacts.tryStrategies_result env
                    (buildBypassStrategies (extractBaseURL url) (extractPath url))
                    url userAgent cfg (world st2) b)
          as (_ & Hok & Hm & _).
        { unfold attemptBypassStrategies in Hby. rewrite Hby. reflexivity. }
        destruct (nonempty (DetectSecrets env (BypassResult_Body b))); cbn;
          (eexists [_]; rewrite Hsent2; split; [reflexivity|]; split;
           [right; eexists; split; [reflexivity|]; repeat split; auto | repeat split; auto]).
      + exists []. rewrite app_nil_r. cbn. repeat split; auto.
    - exists []. rewrite app_nil_r. repeat split; auto. }
  destruct H3 as (bypassed & Hsent3 & Hby & Hpushed3 & Hwg3 & Hce3). clearbody st3.
  set (st4 := if (0 <? MaxDepth cfg) && (Depth task <? MaxDepth cfg) && isDirectory result3
              then _ else st3).
  assert (H4 : exists newTasks,
             sent st4 = sent st3 /\ pushed st4 = pushed st3 ++ newTasks /\
             taskWg st4 = taskWg st3 + Z.of_nat (length newTasks) /\
             consecutiveErrors st4 = consecutiveErrors st3).
  { unfold st4.
    destruct ((0 <? MaxDepth cfg) && (Depth task <? MaxDepth cfg) && isDirectory result3).
    - cbn. destruct (sendWins env (world st3)); cbn.
      + eexists [_]. repeat split; cbn; lia.
      + exists []. rewrite app_nil_r. repeat split; cbn; lia.
    - exists []. rewrite app_nil_r. repeat split; cbn; lia. }
  destruct H4 as (newTasks & Hsent4 & Hpushed4 & Hwg4 & Hce4). clearbody st4.
  exists bypassed, (AssignSeverityAndConfidence env result3), newTasks. cbn.
  rewrite Hsent4, Hsent3, Hpushed4, Hpushed3, Hwg4, Hwg3, Hce4, Hce3, <- app_assoc.
  repeat split; try assumption.
Qed.

(** The shapes of what one pass of the loop body sends, with the
    accounting of the WaitGroup and of the run of errors. *)
Lemma processTask_detail (calCache : gmap string (list Calibration.ResponseSignature))
    (task : Task) (st : WorkerState W) :
  exists newTasks,
    pushed (processTask env cfg calCache task st) = pushed st ++ newTasks /\
    taskWg (processTask env cfg calCache task st) = taskWg st - 1 + Z.of_nat (length newTasks) /\
    (0 <= consecutiveErrors st < maxConsecutiveErrors ->
     0 <= consecutiveErrors (processTask env cfg calCache task st) < maxConsecutiveErrors) /\
    (sent (processTask env cfg calCache task st) = sent st \/
     (exists r,
        sent (processTask env cfg calCache task st) = sent st ++ [(MethodFuzz, r)] /\
        SafeMode cfg = false /\ Critical r = true /\ In (Method r) alternativeMethods /\
        isFuzzSuccess (StatusCode r) = true) \/
     (exists r,
        sent (processTask env cfg calCache task st) = sent st ++ [(Primary, r)] /\
        isInteresting r = true) \/
     (exists b r,
        sent (processTask env cfg calCache task st) = sent st ++ [(Bypass, b); (Primary, r)] /\
        SafeMode cfg = false /\ (StatusCode r = 401 \/ StatusCode r = 403) /\
        Critical b = true /\ Method b = "GET+BYPASS" /\
        isBypassSuccess (StatusCode b) = true)).
Proof.
  unfold processTask.
  destruct (ctxDone env (world st)).
  { exists []. cbn. rewrite app_nil_r. repeat split; auto; lia. }
  destruct (getRandomUserAgent env (world st)) as [userAgent w0].
  set (url := TrimSuffix (TargetURL task) "/" +:+ "/" +:+ TrimPrefix (Path task) "/").
  destruct (makeRequest env cfg url "GET" userAgent w0) as [[[[result bodyContent] resp]|] w1].
  2:{ exists []. rewrite app_nil_r. cbn [with_stats with_world with_consecutiveErrors consecutiveErrors].
      destruct (Z.leb_spec maxConsecutiveErrors (GoInt.add (consecutiveErrors st) 1)) as [Hle|Hlt];
        cbn; (split; [reflexivity|]; split; [lia|]; split; [|left; reflexivity]).
      - unfold maxConsecutiveErrors. lia.
      - intros Hce. unfold maxConsecutiveErrors in *. unfold GoInt.add in *.
        rewrite wrap_id in * by (unfold GoInt.in_range, GoInt.min_int, GoInt.max_int; lia). lia. }
  destruct (MatchesSignature env (StatusCode result) (Size result) (WordCount result)
              (LineCount result) (default [] (calCache !! TargetURL task))).
  { exists []. cbn. rewrite app_nil_r. unfold maxConsecutiveErrors.
    repeat split; auto; lia. }
  set (st1 := with_consecutiveErrors (with_stats (with_world st w1) IncrementProcessed) 0).
  destruct ((StatusCode result =? 405) && negb (SafeMode cfg)) eqn:H405.
  - apply andb_true_iff in H405. destruct H405 as [Hst Hsafe].
    apply Z.eqb_eq in Hst. apply negb_true_iff in Hsafe.
    assert (Hni : isInteresting result = false).
    { unfold isInteresting. rewrite Hst. reflexivity. }
    rewrite Hni.
    destruct (fuzzMethods_detail url userAgent alternativeMethods st1)
      as (Hp & Hw & Hc & Hs).
    exists []. rewrite app_nil_r. cbn [pushed taskWg sent consecutiveErrors wgAdd].
    rewrite Hp, Hw, Hc.
    split; [reflexivity|]. split; [cbn; lia|].
    split; [intros _; cbn; unfold maxConsecutiveErrors; lia|].
    destruct Hs as [Hs|(r & Hs & Hcr & Hin & Hok)].
    + left. rewrite Hs. reflexivity.
    + right. left. exists r. rewrite Hs. repeat split; auto.
  - destruct (isInteresting result) eqn:Hint.
    + destruct (interesting_detail task url userAgent result bodyContent resp st1)
        as (bypassed & r & newTasks & Hs & Hstatus & Hby & Hp & Hw & Hc).
      exists newTasks. cbn [pushed taskWg sent consecutiveErrors wgAdd].
      rewrite Hp, Hw, Hc, Hs. cbn.
      split; [reflexivity|]. split; [lia|]. split; [unfold maxConsecutiveErrors; lia|].
      right. right.
      assert (Hr : isInteresting r = true).
      { unfold isInteresting in *. rewrite Hstatus. exact Hint. }
      destruct Hby as [->|(b & -> & Hsafe & Hd & Hcr & Hm & Hok)].
      * left. exists r. split; [reflexivity|exact Hr].
      * right. exists b, r. rewrite Hstatus. repeat split; auto.
    + exists []. cbn. rewrite app_nil_r.
      split; [reflexivity|]. split; [lia|]. split; [unfold maxConsecutiveErrors; lia|].
      left. reflexivity.
Qed.

(** One task gives rise to at most two Results, in one of four shapes:
    none; one Result of method fuzzing, never together with a primary
    Result; one primary Result; or a bypass Result followed by the primary
    Result of a 401 or 403.  Fuzz and bypass Results are critical and appear
    only outside safe mode. *)
Theorem task_results_shape (calCache : gmap string (list Calibration.ResponseSignature))
    (task : Task) (st : WorkerState W) :
  emitted env cfg calCache task st = [] \/
  (exists r,
     emitted env cfg calCache task st = [(MethodFuzz, r)] /\
     SafeMode cfg = false /\ Critical r = true /\ In (Method r) alternativeMethods /\
     isFuzzSuccess (StatusCode r) = true) \/
  (exists r,
     emitted env cfg calCache task st = [(Primary, r)] /\ isInteresting r = true) \/
  (exists b r,
     emitted env cfg calCache task st = [(Bypass, b); (Primary, r)] /\
     SafeMode cfg = false /\ (StatusCode r = 401 \/ StatusCode r = 403) /\
     Critical b = true /\ Method b = "GET+BYPASS" /\
     isBypassSuccess (StatusCode b) = true).
Proof.
  unfold emitted.
  destruct (processTask_detail calCache task st) as (_ & _ & _ & _ & H).
  destruct H as [Hs|[(r & Hs & H)|[(r & Hs & H)|(b & r & Hs & H)]]]; rewrite Hs.
  - left. apply skipn_length_nil.
  - right. left. exists r. rewrite skipn_app_length. auto.
  - right. right. left. exists r. rewrite skipn_app_length. auto.
  - right. right. right. exists b, r. rewrite skipn_app_length. auto.
Qed.

(** The WaitGroup of the scan is kept in balance by every pass of the loop
    body: the task handled is marked done exactly once, on every path, and
    one is added for each directory task pushed on [newTasks]. *)
Theorem processTask_balances_the_WaitGroup
    (calCache : gmap string (list Calibration.ResponseSignature))
    (task : Task) (st : WorkerState W) :
  taskWg (processTask env cfg calCache task st)
  = taskWg st - 1 + Z.of_nat (length (newlyPushed env cfg calCache task st)) /\
  (length (newlyPushed env cfg calCache task st) <= 1)%nat.
Proof.
  unfold newlyPushed.
  destruct (processTask_detail calCache task st) as (newTasks & Hp & Hw & _).
  rewrite Hp, skipn_app_length. split; [exact Hw|].
  destruct (processTask_effect calCache task st)
    as (_ & _ & _ & newTasks' & _ & _ & _ & _ & _ & Hp' & Hnew).
  rewrite Hp in Hp'. apply app_inv_head in Hp'. subst newTasks'.
  destruct Hnew as [->|(path & -> & _)]; simpl; lia.
Qed.

(** A worker's run of consecutive errors stays below five: the fifth
    failed request in a row makes the worker pause and start counting
    again, and any answered request resets the count. *)
Theorem consecutiveErrors_stay_below_five
    (calCache : gmap string (list Calibration.ResponseSignature))
    (task : Task) (st : WorkerState W) :
  0 <= consecutiveErrors st < maxConsecutiveErrors ->
  0 <= consecutiveErrors (processTask env cfg calCache task st) < maxConsecutiveErrors.
Proof.
  destruct (processTask_detail calCache task st) as (_ & _ & _ & H & _). exact H.
Qed.

(** In safe mode a task sends at most its primary Result: no Result of
    method fuzzing and none of a bypass. *)
Theorem safe_mode_sends_primary_only
    (calCache : gmap string (list Calibration.ResponseSignature))
    (task : Task) (st : WorkerState W) :
  SafeMode cfg = true ->
  emitted env cfg calCache task st = [] \/
  exists r, emitted env cfg calCache task st = [(Primary, r)] /\ isInteresting r = true.
Proof.
  intros Hsafe. unfold emitted.
  destruct (processTask_detail calCache task st) as (_ & _ & _ & _ & H).
  destruct H as [Hs|[(r & Hs & H & _)|[(r & Hs & H)|(b & r & Hs & H & _)]]]; try congruence.
  - left. rewrite Hs. apply skipn_length_nil.
  - right. exists r. rewrite Hs, skipn_app_length. auto.
Qed.

End Worker.

Lemma consecutiveErrors_stay_below_five_witness :
  0 <= consecutiveErrors (processTask (scenario trusting_server) (scenario_config 0) ∅
                            endpoint_task idle) < maxConsecutiveErrors.
Proof.
  apply (consecutiveErrors_stay_below_five (scenario trusting_server) (scenario_config 0) ∅
           endpoint_task idle).
  unfold maxConsecutiveErrors. simpl. lia.
Defined.

Lemma safe_mode_sends_primary_only_witness :
  emitted (scenario trusting_server) safe_config ∅ endpoint_task idle = [] \/
  exists r, emitted (scenario trusting_server) safe_config ∅ endpoint_task idle = [(Primary, r)] /\
            isInteresting r = true.
Proof.
  apply (safe_mode_sends_primary_only (scenario trusting_server) safe_config ∅ endpoint_task idle).
  reflexivity.
Defined.

(** In safe mode a 403 is reported as it is, where the same server gives a
    bypass away to a scan outside safe mode. *)
Example safe_mode_reports_the_403 :
  map (fun e => (fst e, StatusCode (snd e)))
      (emitted (scenario trusting_server) safe_config ∅ endpoint_task idle)
  = [(Primary, 403)].
Proof. vm_compute. reflexivity. Qed.



(** Outside safe mode the same 403 costs the GET and the first bypass
    request, which the server lets through. *)
Example bypass_costs_requests :
  map HTTP.Method
      (requestsMade (fun req => Some (trusting_server req)) (scenario_config 0) ∅ endpoint_task
                    idle_recording)
  = ["GET"; "GET"].
Proof. vm_compute. reflexivity. Qed.

(** A Result of method fuzzing whose response is the baseline itself. *)
Lemma fuzz_result_matches_baseline :
  exists r,
    In (MethodFuzz, r)
       (emitted (scenario post_only_server) (scenario_config 0) soft_baseline
                endpoint_task idle) /\
    matchesBaseline (scenario post_only_server) r
                    (signaturesFor soft_baseline endpoint_task) = true.
Proof. eexists. split; [left; reflexivity|]. vm_compute. reflexivity. Qed.

(** The same for the Result of a bypass. *)
Example bypass_result_matches_baseline :
  exists r,
    In (Bypass, r)
       (emitted (scenario trusting_server) (scenario_config 0) soft_baseline
                endpoint_task idle) /\
    matchesBaseline (scenario trusting_server) r
                    (signaturesFor soft_baseline endpoint_task) = true.
Proof. eexists. split; [left; reflexivity|]. vm_compute. reflexivity. Qed.

Lemma primary_result_is_not_baseline_witness :
  exists r,
    In (Primary, r)
       (emitted (scenario trusting_server) (scenario_config 0) soft_baseline
                endpoint_task idle) /\
    matchesBaseline (scenario trusting_server) r
                    (signaturesFor soft_baseline endpoint_task) = false.
Proof.
  eexists. split; [right; left; reflexivity|].
  refine (proj1 (primary_result_is_not_baseline (scenario trusting_server) (scenario_config 0)
                   soft_baseline endpoint_task idle Primary _ _ eq_refl)).
  right. left. reflexivity.
Defined.

(** The fifth and sixth testable properties. *)
Example bypass_first_success_wins :
  map (fun e => (fst e, URL (snd e), Method (snd e), Critical (snd e)))
      (emitted (scenario trusting_server) (scenario_config 0) ∅ endpoint_task idle)
  = [ (Bypass, "http://example.com/endpoint [BYPASS:headers]", "GET+BYPASS", true);
      (Primary, "http://example.com/endpoint", "GET", false) ].
Proof. vm_compute. reflexivity. Qed.

Example method_fuzz_emits_post :
  map (fun e => (fst e, URL (snd e), Method (snd e), Critical (snd e)))
      (emitted (scenario post_only_server) (scenario_config 0) ∅ endpoint_task idle)
  = [ (MethodFuzz, "http://example.com/endpoint", "POST", true) ].
Proof. vm_compute. reflexivity. Qed.

(** A 405 answered by POST: the only Result sent is that of method
    fuzzing, and [Found] goes from 0 to 1. *)
Lemma fuzz_emission_increments_found :
  count_origin MethodFuzz
    (emitted (scenario post_only_server) (scenario_config 0) ∅ endpoint_task idle) = 1%nat /\
  count_origin Primary
    (emitted (scenario post_only_server) (scenario_config 0) ∅ endpoint_task idle) = 0%nat /\
  Found (stats idle) = 0 /\
  Found (stats (processTask (scenario post_only_server) (scenario_config 0) ∅
                            endpoint_task idle)) = 1.
Proof. vm_compute. repeat split. Qed.

End ScannerFacts.

(** ** The task graph *)

Module EngineFacts.
Import GoStrings Scanner GoIntFacts ScannerFacts.

Lemma seedTasks_depth (targets words extensions : list string) :
  Forall (fun t => Depth t = 1) (seedTasks targets words extensions).
Proof.
  unfold seedTasks. rewrite List.Forall_forall. intros t Hin.
  apply in_flat_map in Hin. destruct Hin as (target & _ & Hin).
  apply in_flat_map in Hin. destruct Hin as (word & _ & [<-|Hin]); [reflexivity|].
  apply in_map_iff in Hin. destruct Hin as (ext & <- & _). reflexivity.
Qed.

Lemma fanOut_depth (words extensions : list string) (newTask : Task) :
  Forall (fun t => Depth t = Depth newTask) (fanOut words extensions newTask).
Proof.
  unfold fanOut. rewrite List.Forall_forall. intros t Hin.
  apply in_flat_map in Hin. destruct Hin as (word & _ & [<-|Hin]); [reflexivity|].
  apply in_map_iff in Hin. destruct Hin as (ext & <- & _). reflexivity.
Qed.

Lemma Forall_firstn {A} (P : A -> Prop) (k : nat) (l : list A) :
  Forall P l -> Forall P (firstn k l).
Proof.
  intros H. revert k. induction H as [|x l Hx _ IH]; intros [|k]; simpl; constructor; auto.
Qed.

Section Engine.
Context {W : Type} (env : Env W) (cfg : Config) (words : list string)
        (calCache : gmap string (list Calibration.ResponseSignature)).
Hypothesis MaxDepth_is_int : GoInt.in_range (MaxDepth cfg).

Lemma depth_ok_seed (t : Task) : Depth t = 1 -> depth_ok cfg t.
Proof. intros H. unfold depth_ok. rewrite H. lia. Qed.

(** The directory task a worker pushes is one level below its task. *)
Lemma newlyPushed_depth (task : Task) (st : WorkerState W) (t : Task) :
  depth_ok cfg task ->
  In t (newlyPushed env cfg calCache task st) ->
  0 < MaxDepth cfg /\ Depth task < MaxDepth cfg /\ Depth t = Depth task + 1.
Proof.
  intros [Hlo _] Hin. unfold newlyPushed in Hin.
  destruct (processTask_effect env cfg calCache task st)
    as (_ & _ & _ & newTasks & _ & _ & _ & _ & _ & Hp & Hnew).
  rewrite Hp, skipn_app_length in Hin.
  destruct Hnew as [->|(path & -> & H0 & Hlt)]; [destruct Hin|].
  destruct Hin as [<-|[]]. simpl. split; [exact H0|]. split; [exact Hlt|].
  unfold GoInt.add. apply wrap_id.
  unfold GoInt.in_range, GoInt.min_int, GoInt.max_int in *. lia.
Qed.

Lemma step_keeps_queues_ok (s s' : EngineState W) :
  queues_ok cfg s -> step env cfg words calCache s s' -> queues_ok cfg s'.
Proof.
  intros (Henq & Htasks & Hseed & Hnew) Hstep.
  destruct Hstep as [s s' Hs | s Hc | i s s' Hi Hs | k s s' Hd Hs].
  - unfold seedStep in Hs. destruct (toSeed s) as [|task rest] eqn:E; [discriminate|].
    injection Hs as <-. inversion Hseed as [|? ? H1 Hrest]; subst.
    unfold queues_ok; simpl. repeat split; auto.
    + apply Forall_app; split; [assumption|]. constructor; [|constructor].
      apply depth_ok_seed; assumption.
    + apply Forall_app; split; [assumption|]. constructor; [|constructor].
      apply depth_ok_seed; assumption.
  - unfold queues_ok; simpl. repeat split; auto.
  - unfold workerStep in Hs. destruct (taskChan s) as [|task rest] eqn:E; [discriminate|].
    destruct (fold_left collect _ _) as [rs stats'].
    injection Hs as <-. inversion Htasks as [|? ? Htask Hrest]; subst.
    unfold queues_ok; simpl. repeat split; auto.
    apply Forall_app; split; [assumption|].
    rewrite List.Forall_forall. intros t Hin.
    set (st0 := {| world := e_world s; stats := e_stats s;
                   consecutiveErrors := default 0 (workerErrors s !! i);
                   sent := []; pushed := []; taskWg := e_taskWg s |}) in *.
    destruct (newlyPushed_depth task st0 t Htask) as (_ & _ & Hd).
    { unfold newlyPushed. exact Hin. }
    destruct Htask as [Hlo _]. lia.
  - unfold consumerStep in Hs. destruct (newTaskChan s) as [|newTask rest] eqn:E; [discriminate|].
    inversion Hnew as [|? ? Hnt Hrest]; subst.
    destruct (ctxDone env (e_world s)).
    { injection Hs as <-. unfold queues_ok; simpl. repeat split; auto. }
    destruct (negb _ && (Depth newTask <=? MaxDepth cfg)) eqn:Hguard.
    + injection Hs as <-. apply andb_true_iff in Hguard. destruct Hguard as [_ Hle].
      apply Z.leb_le in Hle.
      assert (Hout : Forall (depth_ok cfg)
                       (firstn k (fanOut words (Extensions cfg) newTask))).
      { apply Forall_firstn. eapply Forall_impl; [apply fanOut_depth|].
        intros t Ht. simpl in Ht. unfold depth_ok. rewrite Ht. lia. }
      unfold queues_ok; simpl. repeat split; auto; apply Forall_app; split; assumption.
    + injection Hs as <-. unfold queues_ok; simpl. repeat split; auto.
Qed.

Lemma reachable_queues_ok (targets : list string) (w : W) (s : EngineState W) :
  reachable env cfg targets words calCache w s -> queues_ok cfg s.
Proof.
  induction 1 as [|s s' _ IH Hstep].
  - unfold queues_ok, initial; simpl. repeat split; try constructor. apply seedTasks_depth.
  - eapply step_keeps_queues_ok; eassumption.
Qed.

End Engine.

(** C10: every task sent on [tasks] has depth at least 1, and at most
    [MaxDepth] when recursion is enabled: seeded tasks have depth 1, a
    worker pushes a directory task only from a task strictly below
    [MaxDepth] and one level deeper, and the recursion consumer sends tasks
    only for a directory task of depth at most [MaxDepth]. *)
Theorem enqueued_depth_bound {W : Type} (env : Env W) (cfg : Config)
    (targets words : list string)
    (calCache : gmap string (list Calibration.ResponseSignature)) (w : W)
    (s : EngineState W) :
  GoInt.in_range (MaxDepth cfg) ->
  reachable env cfg targets words calCache w s ->
  Forall (depth_ok cfg) (enqueued s) /\
  Forall (fun t => Depth t = 1) (seedTasks targets words (Extensions cfg)) /\
  (forall task st t,
     depth_ok cfg task ->
     In t (newlyPushed env cfg calCache task st) ->
     Depth task < MaxDepth cfg /\ Depth t = Depth task + 1) /\
  (forall k s1 s2,
     consumerStep env cfg words k s1 = Some s2 ->
     enqueued s2 <> enqueued s1 ->
     exists newTask, head (newTaskChan s1) = Some newTask /\
                     Depth newTask <= MaxDepth cfg /\
                     Forall (fun t => Depth t = Depth newTask)
                            (skipn (length (enqueued s1)) (enqueued s2))).
Proof.
  intros Hrange Hreach. split; [|split; [|split]].
  - apply (reachable_queues_ok env cfg words calCache Hrange targets w s Hreach).
  - apply seedTasks_depth.
  - intros task st t Htask Hin.
    destruct (newlyPushed_depth env cfg calCache Hrange task st t Htask Hin) as (_ & H1 & H2).
    auto.
  - intros k s1 s2 Hs Hne. unfold consumerStep in Hs.
    destruct (newTaskChan s1) as [|newTask rest]; [discriminate|].
    exists newTask. split; [reflexivity|].
    destruct (ctxDone env (e_world s1)).
    { injection Hs as <-. simpl in Hne. contradiction. }
    destruct (negb _ && (Depth newTask <=? MaxDepth cfg)) eqn:Hguard.
    + injection Hs as <-. apply andb_true_iff in Hguard. destruct Hguard as [_ Hle].
      apply Z.leb_le in Hle. split; [exact Hle|]. simpl.
      rewrite skipn_app_length. apply Forall_firstn, fanOut_depth.
    + injection Hs as <-. simpl in Hne. contradiction.
Qed.

Lemma enqueued_depth_bound_witness :
  Forall (depth_ok (scenario_config 2)) (enqueued recursion_s7).
Proof.
  refine (proj1 (enqueued_depth_bound (scenario directory_server) (scenario_config 2)
                   ["http://example.com"] recursion_words ∅ tt recursion_s7 _ _)).
  - unfold GoInt.in_range, GoInt.min_int, GoInt.max_int. simpl. lia.
  - apply reachable_step with (s := recursion_s6);
      [|apply (step_worker _ _ _ _ 1%nat recursion_s6 recursion_s7); vm_compute; reflexivity].
    apply reachable_step with (s := recursion_s5);
      [|apply (step_worker _ _ _ _ 0%nat recursion_s5 recursion_s6); vm_compute; reflexivity].
    apply reachable_step with (s := recursion_s4);
      [|apply (step_worker _ _ _ _ 1%nat recursion_s4 recursion_s5); vm_compute; reflexivity].
    apply reachable_step with (s := recursion_s3);
      [|apply (step_consumer _ _ _ _ 2%nat recursion_s3 recursion_s4); vm_compute; reflexivity].
    apply reachable_step with (s := recursion_s2);
      [|apply (step_worker _ _ _ _ 0%nat recursion_s2 recursion_s3); vm_compute; reflexivity].
    apply reachable_step with (s := recursion_s1);
      [|apply (step_seed _ _ _ _ recursion_s1 recursion_s2); vm_compute; reflexivity].
    apply reachable_step with (s := recursion_s0);
      [|apply (step_seed _ _ _ _ recursion_s0 recursion_s1); vm_compute; reflexivity].
    apply reachable_initial.
Defined.

(** The run finds the directory and the page below it, and sends no task
    of a third level. *)
Example recursion_run_results :
  map URL (results recursion_s7) = ["http://example.com/api"; "http://example.com/api/users"] /\
  map Depth (enqueued recursion_s7) = [1; 1; 2; 2] /\
  taskChan recursion_s7 = [] /\ newTaskChan recursion_s7 = [] /\
  e_taskWg recursion_s7 = 0.
Proof. vm_compute. repeat split. Qed.

(** *** The WaitGroup *)



Section WaitGroup.
Context {W : Type} (env : Env W) (cfg : Config) (words : list string)
        (calCache : gmap string (list Calibration.ResponseSignature)).

(** No step but the seeder's return on cancellation changes the gap
    between the WaitGroup and the tasks in the queues; that one widens
    it by the tasks left unsent. *)
Lemma step_gap (s s' : EngineState W) :
  step env cfg words calCache s s' ->
  (e_taskWg s' - outstanding s' = e_taskWg s - outstanding s /\
   (toSeed s = [] -> toSeed s' = [])) \/
  (ctxDone env (e_world s) = true /\ s' = seedCancel s /\
   e_taskWg s' - outstanding s' = e_taskWg s - outstanding s + Z.of_nat (length (toSeed s))).
Proof.
  intros Hstep. destruct Hstep as [s s' Hs | s Hc | i s s' Hi Hs | k s s' Hd Hs].
  - left. unfold seedStep in Hs. destruct (toSeed s) as [|task rest] eqn:E; [discriminate|].
    injection Hs as <-. unfold outstanding. cbn. rewrite E, length_app. cbn.
    split; [lia|discriminate].
  - right. split; [exact Hc|]. split; [reflexivity|]. unfold outstanding. cbn. lia.
  - left. unfold workerStep in Hs. destruct (taskChan s) as [|task rest] eqn:E; [discriminate|].
    destruct (fold_left collect _ _) as [rs stats'].
    injection Hs as <-.
    destruct (processTask_detail env cfg calCache task
                {| world := e_world s; stats := e_stats s;
                   consecutiveErrors := default 0 (workerErrors s !! i);
                   sent := []; pushed := []; taskWg := e_taskWg s |})
      as (newTasks & Hp & Hw & _).
    unfold outstanding. cbn [e_taskWg toSeed taskChan newTaskChan].
    rewrite Hw, Hp, E, length_app. cbn. split; [lia|auto].
  - left. unfold consumerStep in Hs.
    destruct (newTaskChan s) as [|newTask rest] eqn:E; [discriminate|].
    destruct (ctxDone env (e_world s)).
    { injection Hs as <-. unfold outstanding. cbn. rewrite E. cbn. split; [lia|auto]. }
    destruct (negb _ && (Depth newTask <=? MaxDepth cfg)).
    + injection Hs as <-. unfold outstanding. cbn. rewrite E, length_app. cbn.
      split; [lia|auto].
    + injection Hs as <-. unfold outstanding. cbn. rewrite E. cbn. split; [lia|auto].
Qed.

Lemma steps_gap (s s' : EngineState W) :
  steps env cfg words calCache s s' ->
  e_taskWg s - outstanding s <= e_taskWg s' - outstanding s'.
Proof.
  induction 1 as [s|s s' s'' _ IH Hstep]; [lia|].
  destruct (step_gap s' s'' Hstep) as [[H _]|(_ & _ & H)]; lia.
Qed.

Lemma outstanding_nonneg (s : EngineState W) : 0 <= outstanding s.
Proof. unfold outstanding. lia. Qed.


End WaitGroup.




(** When the seeding goroutine returns on cancellation, the tasks it has
    not sent stay counted: from then on the WaitGroup exceeds the tasks in
    the queues by at least their number, whatever the workers and the
    recursion consumer do, and so it never comes back to zero. *)
Theorem cancelled_seeder_keeps_the_WaitGroup_positive {W : Type} (env : Env W) (cfg : Config)
    (words : list string) (calCache : gmap string (list Calibration.ResponseSignature))
    (s s' : EngineState W) :
  outstanding s <= e_taskWg s ->
  toSeed s <> [] ->
  steps env cfg words calCache (seedCancel s) s' ->
  Z.of_nat (length (toSeed s)) + outstanding s' <= e_taskWg s' /\ 0 < e_taskWg s'.
Proof.
  intros Hinv Hne Hsteps.
  pose proof (steps_gap env cfg words calCache _ _ Hsteps) as Hgap.
  pose proof (outstanding_nonneg s').
  assert (Hc : e_taskWg (seedCancel s) - outstanding (seedCancel s)
               = e_taskWg s - outstanding s + Z.of_nat (length (toSeed s))).
  { unfold outstanding. cbn. lia. }
  assert (Hpos : 0 < Z.of_nat (length (toSeed s))).
  { destruct (toSeed s); [contradiction|cbn; lia]. }
  lia.
Qed.

Lemma cancelled_seeder_keeps_the_WaitGroup_positive_witness :
  Z.of_nat (length (toSeed recursion_s1)) + outstanding (seedCancel recursion_s1)
    <= e_taskWg (seedCancel recursion_s1)
  /\ 0 < e_taskWg (seedCancel recursion_s1).
Proof.
  apply (cancelled_seeder_keeps_the_WaitGroup_positive (cancelled directory_server)
           (scenario_config 2) recursion_words ∅ recursion_s1 (seedCancel recursion_s1)).
  - vm_compute. discriminate.
  - vm_compute. discriminate.
  - apply steps_refl.
Defined.

(** After the cancellation of the scenario the worker drains the one task
    that was sent; the WaitGroup stays at one and the queues are empty. *)
Example cancelled_scan_never_reaches_zero :
  let s := advance (workerStep (cancelled directory_server) (scenario_config 2) ∅ 0)
                   (seedCancel recursion_s1) in
  outstanding s = 0 /\ e_taskWg s = 1.
Proof. vm_compute. split; reflexivity. Qed.

(** *** Directories already recursed into *)



End EngineFacts.

(** ** The calibration run and its cache *)

Module CalibrateFacts.
Import GoStrings Calibration Calibrate.

Lemma Get_Set (cache : CalibrationCache) (targetURL : string) (sigs : list ResponseSignature) :
  Get (Set_ cache targetURL sigs) targetURL = Some sigs.
Proof. apply lookup_insert_eq. Qed.

Lemma Get_Set_other (cache : CalibrationCache) (targetURL other : string)
    (sigs : list ResponseSignature) :
  other <> targetURL -> Get (Set_ cache targetURL sigs) other = Get cache other.
Proof. intros Hne. apply lookup_insert_ne. congruence. Qed.

Lemma fetchAll_length {W} (env : Env W) (targetURL : string) (headers : list (string * string))
    (randomPaths : list string) (signatures : list ResponseSignature) (w : W) :
  (length (fst (fetchAll env targetURL headers randomPaths signatures w))
   <= length signatures + length randomPaths)%nat.
Proof.
  revert signatures w. induction randomPaths as [|path rest IH]; intros signatures w; simpl.
  - lia.
  - destruct (fetchSignature env _ headers w) as [[sig|] w'].
    + specialize (IH (signatures ++ [sig]) w'). rewrite length_app in IH. simpl in IH. lia.
    + specialize (IH signatures w'). lia.
Qed.

(** A calibration run leaves its answer in the cache under the target and
    touches no other entry; a run that found no entry returns at most three
    signatures; and any later run for the same target returns the cached
    answer without a request or a random draw, whatever headers it is
    given. *)
Theorem PerformCalibration_fills_the_cache {W} (env : Env W) (targetURL : string)
    (headers : list (string * string)) (cache : CalibrationCache) (w : W) :
  let '(sigs, cache', w') := PerformCalibration env targetURL headers cache w in
  Get cache' targetURL = Some sigs /\
  (forall other, other <> targetURL -> Get cache' other = Get cache other) /\
  (Get cache targetURL = None -> (length sigs <= 3)%nat) /\
  (forall headers' w'',
     PerformCalibration env targetURL headers' cache' w'' = (sigs, cache', w'')).
Proof.
  unfold PerformCalibration.
  destruct (Get cache targetURL) as [cached|] eqn:Hget.
  - split; [exact Hget|]. split; [reflexivity|]. split; [discriminate|].
    intros headers' w''. rewrite Hget. reflexivity.
  - destruct (calRandIntn env 999999 w) as [n1 w1].
    destruct (calRandIntn env 999999 w1) as [n2 w2].
    destruct (calRandIntn env 999999 w2) as [n3 w3].
    pose proof (fetchAll_length env targetURL headers
                  [ "/capsaicin_cal_" +:+ pretty n1; "/nonexistent_" +:+ pretty n2;
                    "/test404_" +:+ pretty n3 ] [] w3) as Hlen.
    destruct (fetchAll env targetURL headers _ [] w3) as [signatures w4].
    split; [apply Get_Set|].
    split; [intros other Hne; apply Get_Set_other; exact Hne|].
    split; [intros _; exact Hlen|].
    intros headers' w''. rewrite Get_Set. reflexivity.
Qed.

Lemma fetchAll_all_fail {W} (env : Env W) (targetURL : string) (headers : list (string * string))
    (randomPaths : list string) (signatures : list ResponseSignature) (w : W) :
  (forall req w0, fst (clientDo env req w0) = None) ->
  fst (fetchAll env targetURL headers randomPaths signatures w) = signatures.
Proof.
  intros Hfail. revert w. induction randomPaths as [|path rest IH]; intros w; simpl.
  - reflexivity.
  - unfold fetchSignature.
    match goal with |- context [clientDo env ?r w] =>
      pose proof (Hfail r w) as H; destruct (clientDo env r w) as [[[resp body]|] w'] end.
    + discriminate H.
    + apply IH.
Qed.

(** A failed calibration is cached like a successful one: when none of the
    requests of a first run succeeds, the target gets the empty baseline,
    against which no response is ever filtered, and no later run tries
    again. *)
Theorem failed_calibration_is_cached {W} (env : Env W) (targetURL : string)
    (headers : list (string * string)) (cache : CalibrationCache) (w : W) :
  Get cache targetURL = None ->
  (forall req w0, fst (clientDo env req w0) = None) ->
  let '(sigs, cache', w') := PerformCalibration env targetURL headers cache w in
  sigs = [] /\
  Get cache' targetURL = Some [] /\
  (forall statusCode size,
     MatchesSignature statusCode size (default [] (Get cache' targetURL)) = false) /\
  (forall headers' w'',
     PerformCalibration env targetURL headers' cache' w'' = ([], cache', w'')).
Proof.
  intros Hget Hfail. unfold PerformCalibration. rewrite Hget.
  destruct (calRandIntn env 999999 w) as [n1 w1].
  destruct (calRandIntn env 999999 w1) as [n2 w2].
  destruct (calRandIntn env 999999 w2) as [n3 w3].
  pose proof (fetchAll_all_fail env targetURL headers
                [ "/capsaicin_cal_" +:+ pretty n1; "/nonexistent_" +:+ pretty n2;
                  "/test404_" +:+ pretty n3 ] [] w3 Hfail) as Hnone.
  destruct (fetchAll env targetURL headers _ [] w3) as [signatures w4].
  cbn [fst] in Hnone. subst signatures.
  rewrite Get_Set.
  split; [reflexivity|]. split; [reflexivity|]. split; [reflexivity|].
  intros headers' w''. reflexivity.
Qed.

Lemma failed_calibration_is_cached_witness :
  let '(sigs, cache', w') :=
    PerformCalibration unreachable_target "http://example.com" [] NewCalibrationCache 0 in
  sigs = [] /\
  Get cache' "http://example.com" = Some [] /\
  (forall statusCode size,
     MatchesSignature statusCode size (default [] (Get cache' "http://example.com")) = false) /\
  (forall headers' w'',
     PerformCalibration unreachable_target "http://example.com" headers' cache' w''
     = ([], cache', w'')).
Proof.
  apply (failed_calibration_is_cached unreachable_target "http://example.com" []
           NewCalibrationCache 0).
  - apply lookup_empty.
  - intros req w0. reflexivity.
Defined.

(** The first run for the unreachable target makes three requests, the
    second none. *)
Example unreachable_target_requests :
  snd (PerformCalibration unreachable_target "http://example.com" [] NewCalibrationCache 0) = 3 /\
  snd (PerformCalibration unreachable_target "http://example.com" []
         (snd (fst (PerformCalibration unreachable_target "http://example.com" []
                      NewCalibrationCache 0))) 3) = 3.
Proof. split; reflexivity. Qed.

End CalibrateFacts.

(** ** Credential detection *)

Module SecretsFacts.
Import Secrets.

(** [LastIndexRune] finds the last occurrence. *)
Lemma LastIndexRune_Some (m : text) (sep : rune) (idx : nat) :
  LastIndexRune m sep = Some idx <->
  nth_error m idx = Some sep /\ ~ In sep (skipn (S idx) m).
Proof.
  revert idx. induction m as [|r rest IH]; intros idx; simpl.
  - split; [discriminate|]. intros [H _]. destruct idx; discriminate H.
  - destruct (LastIndexRune rest sep) as [i|] eqn:E.
    + split.
      * intros H. injection H as <-. simpl. apply IH. reflexivity.
      * intros [Hn Hnot]. destruct idx as [|idx].
        -- exfalso. apply Hnot. simpl.
           destruct (proj1 (IH i) eq_refl) as [Hi _].
           eapply nth_error_In. exact Hi.
        -- assert (Hi : Some i = Some idx) by (apply IH; split; assumption).
           congruence.
    + assert (Hnone : ~ In sep rest).
      { intros Hin. apply In_nth_error in Hin. destruct Hin as [k Hk].
        revert k Hk. clear IH.
        assert (G : forall l k, nth_error l k = Some sep -> LastIndexRune l sep <> None).
        { induction l as [|x l IHl]; intros [|k] Hk; simpl in *; try discriminate.
          - injection Hk as ->. destruct (LastIndexRune l sep); [discriminate|].
            rewrite Z.eqb_refl. discriminate.
          - specialize (IHl k Hk). destruct (LastIndexRune l sep); [discriminate|contradiction]. }
        intros k Hk. exact (G rest k Hk E). }
      destruct (Z.eqb_spec r sep) as [->|Hne].
      * split.
        -- intros H. injection H as <-. simpl. split; [reflexivity|exact Hnone].
        -- intros [Hn Hnot]. destruct idx as [|idx]; [reflexivity|].
           simpl in Hn. exfalso. apply Hnone. eapply nth_error_In. exact Hn.
      * split; [discriminate|]. intros [Hn _]. destruct idx as [|idx].
        -- simpl in Hn. congruence.
        -- simpl in Hn. exfalso. apply Hnone. eapply nth_error_In. exact Hn.
Qed.

(** [extractValue] takes the separators in their order and returns the
    value of the first that yields one. *)
Lemma extractValueFrom_candidates (seps : list rune) (m : text) :
  extractValueFrom seps m = default m (head (omap (candidate m) seps)).
Proof.
  induction seps as [|sep rest IH]; simpl; [reflexivity|].
  unfold candidate at 1.
  destruct (LastIndexRune m sep) as [idx|]; [|exact IH].
  cbn zeta.
  match goal with |- context [Nat.ltb 0 ?n] => destruct (Nat.ltb 0 n) end;
    [reflexivity|exact IH].
Qed.

(** *** The entropy gate *)








Section RealEntropy.
Local Open Scope R_scope.









End RealEntropy.

Lemma Patterns_names_NoDup : NoDup (map Name Patterns).
Proof. apply (bool_decide_unpack _). vm_compute. reflexivity. Qed.






(** Values of the repository's entropy test: a repeated rune has entropy
    0, eight distinct runes have entropy exactly 3. *)
Example entropy_below_cases :
  entropy_below (runes "aaaaaaaa") 3 = true /\
  entropy_below (runes "abcdefgh") 3 = false /\
  entropy_below (runes "abcdefg") 3 = true /\
  entropy_below (runes "") 3 = true.
Proof. vm_compute. repeat split. Qed.

(** *** Redaction *)

(** The redacted form has the length of the secret and shows at most eight
    of its runes: a secret of up to eight runes is all asterisks, a longer
    one keeps its first four and last four runes and has asterisks
    everywhere between. *)
Theorem RedactSecret_shows_at_most_eight_runes (secret : text) :
  length (RedactSecret secret) = length secret /\
  (forall i,
     (i < length secret)%nat ->
     (length secret <= 8)%nat \/ (4 <= i < length secret - 4)%nat ->
     nth_error (RedactSecret secret) i = Some 42) /\
  (forall i,
     (8 < length secret)%nat ->
     (i < 4)%nat \/ (length secret - 4 <= i)%nat ->
     nth_error (RedactSecret secret) i = nth_error secret i).
Proof.
  unfold RedactSecret.
  destruct (Nat.leb_spec (length secret) 8) as [Hle|Hgt].
  - split; [apply repeat_length|]. split.
    + intros i Hi _. apply nth_error_repeat. exact Hi.
    + intros i H8. lia.
  - assert (Hlen4 : length (firstn 4 secret) = 4%nat) by (rewrite length_firstn; lia).
    split; [|split].
    + rewrite !length_app, Hlen4, repeat_length, length_skipn. lia.
    + intros i Hi [H8|Hmid]; [lia|].
      rewrite nth_error_app2 by lia. rewrite Hlen4.
      rewrite nth_error_app1 by (rewrite repeat_length; lia).
      apply nth_error_repeat. lia.
    + intros i _ [Hhead|Htail].
      * rewrite nth_error_app1 by lia. rewrite nth_error_firstn.
        destruct (Nat.ltb_spec i 4); [reflexivity|lia].
      * rewrite nth_error_app2 by lia. rewrite Hlen4.
        rewrite nth_error_app2 by (rewrite repeat_length; lia).
        rewrite repeat_length, nth_error_skipn. f_equal. lia.
Qed.

(** *** What [extractValue] returns *)

Lemma dropWhile_suffix (p : rune -> bool) (s : text) :
  exists before, s = before ++ dropWhile p s.
Proof.
  induction s as [|r s IH]; simpl; [exists []; reflexivity|].
  destruct (p r); [|exists []; reflexivity].
  destruct IH as (before & IH). exists (r :: before). simpl. rewrite <- IH. reflexivity.
Qed.

Lemma TrimFunc_infix (p : rune -> bool) (s : text) :
  exists before after, s = before ++ TrimFunc p s ++ after.
Proof.
  unfold TrimFunc.
  destruct (dropWhile_suffix p s) as (before & Hb).
  destruct (dropWhile_suffix p (rev (dropWhile p s))) as (after & Ha).
  exists before, (rev after).
  rewrite <- rev_app_distr, <- Ha, rev_involutive. exact Hb.
Qed.

Lemma candidate_infix (m : text) (sep : rune) (val : text) :
  candidate m sep = Some val ->
  val <> [] /\ exists before after, m = before ++ val ++ after.
Proof.
  unfold candidate. destruct (LastIndexRune m sep) as [idx|]; [|discriminate].
  destruct (TrimFunc_infix IsSpace (skipn (S idx) m)) as (b1 & a1 & H1).
  destruct (TrimFunc_infix (fun r => existsb (Z.eqb r) [quote; apostrophe; 32])
              (TrimSpace (skipn (S idx) m))) as (b2 & a2 & H2).
  fold (TrimSpace (skipn (S idx) m)) in H1.
  fold (Trim (TrimSpace (skipn (S idx) m)) [quote; apostrophe; 32]) in H2.
  cbn zeta.
  destruct (Trim (TrimSpace (skipn (S idx) m)) [quote; apostrophe; 32]) as [|r val0] eqn:E;
    [discriminate|].
  cbn. intros H. injection H as <-. split; [discriminate|].
  exists (firstn (S idx) m ++ b1 ++ b2), (a2 ++ a1).
  rewrite <- (firstn_skipn (S idx) m) at 1. rewrite H1 at 1. rewrite H2 at 1.
  rewrite <- !app_assoc. reflexivity.
Qed.

(** The gated value is always a part of the match, in one piece, and is
    empty only when the match is; a match in which none of the four
    separators occurs is gated as a whole. *)
Theorem extractValue_is_a_part_of_the_match (m : text) :
  (exists before after, m = before ++ extractValue m ++ after) /\
  (m <> [] -> extractValue m <> []) /\
  ((forall sep, In sep separators -> ~ In sep m) -> extractValue m = m).
Proof.
  unfold extractValue. rewrite extractValueFrom_candidates.
  split; [|split].
  - induction separators as [|sep seps IH]; simpl.
    + exists [], []. rewrite app_nil_r. reflexivity.
    + destruct (candidate m sep) as [val|] eqn:E; [|exact IH].
      simpl. exact (proj2 (candidate_infix m sep val E)).
  - intros Hm. induction separators as [|sep seps IH]; simpl; [exact Hm|].
    destruct (candidate m sep) as [val|] eqn:E; [|exact IH].
    simpl. exact (proj1 (candidate_infix m sep val E)).
  - intros Hnone. induction separators as [|sep seps IH]; simpl; [reflexivity|].
    assert (Hc : candidate m sep = None).
    { unfold candidate. destruct (LastIndexRune m sep) as [idx|] eqn:E; [|reflexivity].
      exfalso. apply (Hnone sep (or_introl eq_refl)).
      apply LastIndexRune_Some in E. destruct E as [E _].
      eapply nth_error_In. exact E. }
    rewrite Hc. apply IH. intros s Hs. apply Hnone. right. exact Hs.
Qed.

(** *** What [DetectSecrets] reports *)

Lemma detectLoop_sublist (find : Regexp) (content : text) (patterns : list SecretPattern)
    (secretMap : gset string) (foundSecrets : list SecretMatch) :
  exists more,
    map MatchName (detectLoop find patterns content secretMap foundSecrets)
      = map MatchName foundSecrets ++ more /\
    sublist more (map Name patterns).
Proof.
  revert secretMap foundSecrets.
  induction patterns as [|p rest IH]; intros secretMap foundSecrets; simpl.
  - exists []. rewrite app_nil_r. split; [reflexivity|constructor].
  - destruct (find (Pattern p) content) as [m|].
    + destruct (bool_decide (Name p ∈ secretMap)).
      * destruct (IH secretMap foundSecrets) as (more & Hm & Hs).
        exists more. split; [exact Hm|]. apply sublist_cons. exact Hs.
      * destruct (negb (Qle_bool (MinEntropy p) 0) && entropy_below (extractValue m) (MinEntropy p)).
        -- destruct (IH secretMap foundSecrets) as (more & Hm & Hs).
           exists more. split; [exact Hm|]. apply sublist_cons. exact Hs.
        -- destruct (IH ({[Name p]} ∪ secretMap)
                        (foundSecrets ++ [ {| MatchName := Name p;
                                              MatchSeverity := PatternSeverity p;
                                              Redacted := RedactSecret m |} ]))
             as (more & Hm & Hs).
           exists (Name p :: more). split.
           ++ rewrite Hm, map_app, <- app_assoc. reflexivity.
           ++ apply sublist_skip. exact Hs.
    + destruct (IH secretMap foundSecrets) as (more & Hm & Hs).
      exists more. split; [exact Hm|]. apply sublist_cons. exact Hs.
Qed.

(** Whatever the content and the matches of the expressions, the names
    reported are names of the pattern table, each at most once and in the
    order of the table; there are never more than fifteen. *)
Theorem DetectSecrets_reports_each_pattern_once (find : Regexp) (content : text) :
  sublist (DetectSecrets find content) (map Name Patterns) /\
  NoDup (DetectSecrets find content) /\
  (length (DetectSecrets find content) <= 15)%nat.
Proof.
  assert (Hsub : sublist (DetectSecrets find content) (map Name Patterns)).
  { unfold DetectSecrets, DetectSecretsDetailed.
    destruct (detectLoop_sublist find content Patterns ∅ []) as (more & Hm & Hs).
    rewrite Hm. exact Hs. }
  split; [exact Hsub|]. split.
  - eapply sublist_NoDup; [apply Patterns_names_NoDup|exact Hsub].
  - apply sublist_length in Hsub. exact Hsub.
Qed.

(** *** The entropy of a string *)





Section EntropyBounds.
Local Open Scope R_scope.







End EntropyBounds.

End SecretsFacts.

(** ** The body check for a WAF *)

Module WAFFacts.
Import GoStrings WAF.

(** Whatever the order of the visit, the answer is the name listed with a
    phrase the body contains, or empty when it contains none. *)
Lemma firstMatch_sound (visited : list (string * string)) (lowerBody : string) :
  (firstMatch visited lowerBody = EmptyString /\
   Forall (fun e => Contains lowerBody (ToLower (fst e)) = false \/ snd e = EmptyString) visited)
  \/ exists pattern,
       In (pattern, firstMatch visited lowerBody) visited /\
       Contains lowerBody (ToLower pattern) = true.
Proof.
  induction visited as [|[pattern wafName] rest IH]; simpl.
  - left. split; [reflexivity|constructor].
  - destruct (Contains lowerBody (ToLower pattern)) eqn:E.
    + right. exists pattern. split; [left; reflexivity|exact E].
    + destruct IH as [[H1 H2]|(p & Hin & Hp)].
      * left. split; [exact H1|]. constructor; [left; exact E|exact H2].
      * right. exists p. split; [right; exact Hin|exact Hp].
Qed.

(** When every phrase the body contains is listed with one name, every
    order of the visit gives that name. *)
Lemma firstMatch_one_name (visited : list (string * string)) (lowerBody name : string) :
  (forall pattern wafName,
     In (pattern, wafName) visited -> Contains lowerBody (ToLower pattern) = true ->
     wafName = name) ->
  (exists pattern wafName,
     In (pattern, wafName) visited /\ Contains lowerBody (ToLower pattern) = true) ->
  firstMatch visited lowerBody = name.
Proof.
  induction visited as [|[pattern wafName] rest IH]; simpl; intros Hall (p & n & Hin & Hp).
  - destruct Hin.
  - destruct (Contains lowerBody (ToLower pattern)) eqn:E.
    + apply (Hall pattern wafName); [left; reflexivity|exact E].
    + apply IH.
      * intros p' n' Hin' Hp'. apply (Hall p' n'); [right; exact Hin'|exact Hp'].
      * destruct Hin as [Heq|Hin]; [injection Heq as -> ->; congruence|].
        exists p, n. split; assumption.
Qed.

(** C7, on the code: the body check is not a function of the body alone.
    For a body that contains two phrases listed with different names, a
    visit of the map in the order of the source answers one name and a
    visit in the opposite order answers the other. *)
Theorem DetectWAFFromBody_depends_on_the_visit :
  iteration_order bodyPatterns /\
  iteration_order (rev bodyPatterns) /\
  DetectWAFFromBody bodyPatterns "Access Denied by ModSecurity" 403 = "Generic WAF" /\
  DetectWAFFromBody (rev bodyPatterns) "Access Denied by ModSecurity" 403 = "ModSecurity".
Proof.
  split; [apply Permutation_refl|].
  split; [apply Permutation_sym, Permutation_rev|].
  split; vm_compute; reflexivity.
Qed.

(** The cases of the repository's test of the body check, which hold for
    every order of the visit. *)
Example DetectWAFFromBody_test_cases (order : list (string * string)) :
  iteration_order order ->
  DetectWAFFromBody order "<title>Attention Required</title>" 403 = "Cloudflare" /\
  DetectWAFFromBody order "<html><body>Hello</body></html>" 403 = EmptyString.
Proof.
  intros Hperm. unfold DetectWAFFromBody. split.
  - apply firstMatch_one_name.
    + intros p n Hin Hp. apply (Permutation_in _ Hperm) in Hin.
      simpl in Hin. repeat (destruct Hin as [Heq|Hin];
        [injection Heq as <- <-; first [reflexivity | vm_compute in Hp; discriminate Hp]|]).
      destruct Hin.
    + exists "<title>Attention Required", "Cloudflare". split; [|vm_compute; reflexivity].
      apply (Permutation_in _ (Permutation_sym Hperm)). simpl. tauto.
  - destruct (firstMatch_sound order (ToLower "<html><body>Hello</body></html>"))
      as [[H _]|(p & Hin & Hp)]; [exact H|].
    apply (Permutation_in _ Hperm) in Hin. simpl in Hin.
    repeat (destruct Hin as [Heq|Hin];
      [injection Heq as <- _; vm_compute in Hp; discriminate Hp|]).
    destruct Hin.
Qed.

(** When the phrases the body contains are all listed with one name, the
    body check answers that name whatever the order of the visit, and the
    empty string when the body contains none of them; the status code it is
    given plays no part. *)
Theorem DetectWAFFromBody_when_one_name_matches
    (order : list (string * string)) (body : string) (statusCode : Z) (name : string) :
  iteration_order order ->
  (forall pattern wafName,
     In (pattern, wafName) bodyPatterns ->
     Contains (ToLower body) (ToLower pattern) = true -> wafName = name) ->
  DetectWAFFromBody order body statusCode
  = (if existsb (fun e => Contains (ToLower body) (ToLower (fst e))) bodyPatterns
     then name else EmptyString).
Proof.
  intros Hperm Hone. unfold DetectWAFFromBody.
  destruct (existsb _ bodyPatterns) eqn:Hex.
  - apply existsb_exists in Hex. destruct Hex as ([pattern wafName] & Hin & Hc).
    apply firstMatch_one_name.
    + intros p n Hp Hcp. apply (Hone p n); [|exact Hcp].
      apply (Permutation_in _ Hperm). exact Hp.
    + exists pattern, wafName. split; [|exact Hc].
      apply (Permutation_in _ (Permutation_sym Hperm)). exact Hin.
  - destruct (firstMatch_sound order (ToLower body)) as [[H _]|(p & Hin & Hp)]; [exact H|].
    apply (Permutation_in _ Hperm) in Hin.
    assert (Ht : existsb (fun e => Contains (ToLower body) (ToLower (fst e))) bodyPatterns = true).
    { apply existsb_exists. eexists. split; [exact Hin|exact Hp]. }
    congruence.
Qed.

Lemma DetectWAFFromBody_when_one_name_matches_witness :
  DetectWAFFromBody (rev bodyPatterns) "<title>Just a moment...</title>" 503
  = (if existsb (fun e => Contains (ToLower "<title>Just a moment...</title>")
                            (ToLower (fst e))) bodyPatterns
     then "Cloudflare" else EmptyString).
Proof.
  apply (DetectWAFFromBody_when_one_name_matches (rev bodyPatterns)
           "<title>Just a moment...</title>" 503 "Cloudflare").
  - apply Permutation_sym, Permutation_rev.
  - intros p n Hin Hp. simpl in Hin.
    repeat (destruct Hin as [Heq|Hin];
      [injection Heq as <- <-; first [reflexivity | vm_compute in Hp; discriminate Hp]|]).
    destruct Hin.
Defined.

(** *** The header check *)

Lemma existsb_perm {A} (f : A -> bool) (l l' : list A) :
  Permutation l l' -> existsb f l = existsb f l'.
Proof.
  induction 1 as [|x l l' _ IH|x y l|l l' l'' _ IH1 _ IH2]; simpl.
  - reflexivity.
  - rewrite IH. reflexivity.
  - destruct (f x), (f y); reflexivity.
  - congruence.
Qed.

Lemma header_get_perm (key : string) (h h' : list (string * string)) :
  Permutation h h' -> NoDup (map fst h) -> HTTP.header_get key h = HTTP.header_get key h'.
Proof.
  induction 1 as [|[k v] l l' Hp IH|[k1 v1] [k2 v2] l|l l' l'' Hp1 IH1 Hp2 IH2]; intros Hnd.
  - reflexivity.
  - simpl. rewrite IH; [reflexivity|]. simpl in Hnd. apply NoDup_cons in Hnd. apply Hnd.
  - simpl. simpl in Hnd. apply NoDup_cons in Hnd. destruct Hnd as [Hnot _].
    destruct (String.eqb_spec k1 key) as [->|]; destruct (String.eqb_spec k2 key) as [->|];
      try reflexivity.
    exfalso. apply Hnot. left.
  - rewrite IH1 by exact Hnd. apply IH2.
    apply (Permutation_map fst) in Hp1. rewrite <- Hp1. exact Hnd.
Qed.

Lemma firstSignature_names (signatures : list WAFSignature) (headers : list (string * string))
    (cookies : list string) :
  firstSignature signatures headers cookies = EmptyString \/
  In (firstSignature signatures headers cookies) (map Name signatures).
Proof.
  induction signatures as [|waf rest IH]; simpl; [left; reflexivity|].
  destruct (signatureMatches waf headers cookies); [right; left; reflexivity|].
  destruct IH as [H|H]; [left; exact H|right; right; exact H].
Qed.

(** Unlike the body check, the header check gives one answer for a
    response: it does not depend on the order in which the headers and
    the cookies are visited, and it is the empty string or the name of a
    signature of the table. *)
Theorem DetectWAF_ignores_the_order_of_headers
    (headers headers' : list (string * string)) (cookies cookies' : list string) :
  NoDup (map fst headers) ->
  Permutation headers headers' ->
  Permutation cookies cookies' ->
  DetectWAF headers cookies = DetectWAF headers' cookies' /\
  (DetectWAF headers cookies = EmptyString \/
   In (DetectWAF headers cookies) (map Name WAFSignatures)).
Proof.
  intros Hnd Hh Hc. split; [|apply firstSignature_names].
  unfold DetectWAF.
  assert (Hsame : forall waf, signatureMatches waf headers cookies
                              = signatureMatches waf headers' cookies').
  { intros waf. unfold signatureMatches.
    rewrite (header_get_perm "Server" headers headers' Hh Hnd).
    rewrite (existsb_perm _ headers headers' Hh), (existsb_perm _ cookies cookies' Hc).
    reflexivity. }
  induction WAFSignatures as [|waf rest IH]; simpl; [reflexivity|].
  rewrite Hsame, IH. reflexivity.
Qed.

Lemma DetectWAF_ignores_the_order_of_headers_witness :
  DetectWAF [("Server", "cloudflare-nginx"); ("X-Varnish", "1")] ["BIGipServer1"]
  = DetectWAF [("X-Varnish", "1"); ("Server", "cloudflare-nginx")] ["BIGipServer1"].
Proof.
  refine (proj1 (DetectWAF_ignores_the_order_of_headers
                   [("Server", "cloudflare-nginx"); ("X-Varnish", "1")]
                   [("X-Varnish", "1"); ("Server", "cloudflare-nginx")]
                   ["BIGipServer1"] ["BIGipServer1"] _ _ _)).
  - apply (bool_decide_unpack _). vm_compute. reflexivity.
  - apply perm_swap.
  - apply Permutation_refl.
Defined.

(** The first signature of the table that matches wins: a response with
    Cloudflare's server header, Varnish's header and a BIG-IP cookie is
    Cloudflare's. *)
Example DetectWAF_first_signature_wins :
  DetectWAF [("Server", "cloudflare-nginx"); ("X-Varnish", "1")] ["BIGipServer1"] = "Cloudflare" /\
  DetectWAF [("X-Varnish", "1")] ["BIGipServer1"] = "F5 BigIP" /\
  DetectWAF [("X-Varnish", "1")] [] = "Varnish" /\
  DetectWAF [] [] = EmptyString.
Proof. vm_compute. repeat split. Qed.

End WAFFacts.

(** ** The JSON report *)

Module ReportingFacts.
Import GoStrings Reporting.

Lemma ltb_lts (a b : string) : String.ltb a b = true <-> String_as_OT.lt a b.
Proof.
  unfold String.ltb. rewrite <- String_as_OT.cmp_lt. unfold String_as_OT.cmp.
  destruct (String.compare a b); split; congruence.
Qed.

Lemma ltb_asym (a b : string) : String.ltb a b = true -> String.ltb b a = false.
Proof.
  unfold String.ltb. rewrite (String.compare_antisym a b).
  destruct (String.compare b a); simpl; congruence.
Qed.

Lemma ltb_trans (a b c : string) :
  String.ltb a b = true -> String.ltb b c = true -> String.ltb a c = true.
Proof. rewrite !ltb_lts. apply String_as_OT.lt_trans. Qed.

Lemma ltb_total (a b : string) : String.ltb a b = true \/ a = b \/ String.ltb b a = true.
Proof.
  unfold String.ltb. rewrite (String.compare_antisym b a).
  destruct (String.compare a b) eqn:E; simpl; auto.
  apply String.compare_eq_iff in E. auto.
Qed.

Lemma less_asym (a b : Scanner.Result) : less a b = true -> less b a = false.
Proof.
  unfold less. rewrite (String.eqb_sym (Scanner.URL b)).
  destruct (String.eqb (Scanner.URL a) (Scanner.URL b)); simpl.
  - rewrite !Z.ltb_lt, Z.ltb_ge. lia.
  - apply ltb_asym.
Qed.

(** [b] is not less than [a] exactly when [a] may stand before [b]. *)
Lemma not_less_ordered (a b : Scanner.Result) : less b a = false <-> ordered a b.
Proof.
  unfold less, ordered.
  destruct (String.eqb_spec (Scanner.URL b) (Scanner.URL a)) as [E|E]; simpl.
  - rewrite E, Z.ltb_ge. split; [auto|].
    intros [H|[_ H]]; [|exact H].
    pose proof (ltb_asym _ _ H) as H'. congruence.
  - split.
    + intros H. left. destruct (ltb_total (Scanner.URL a) (Scanner.URL b)) as [?|[?|?]];
        [assumption|congruence|congruence].
    + intros [H|[H _]]; [apply ltb_asym; exact H|congruence].
Qed.

Lemma ordered_trans (a b c : Scanner.Result) : ordered a b -> ordered b c -> ordered a c.
Proof.
  unfold ordered. intros [H1|[E1 H1]] [H2|[E2 H2]].
  - left. eapply ltb_trans; eassumption.
  - left. rewrite <- E2. exact H1.
  - left. rewrite E1. exact H2.
  - right. split; [congruence|lia].
Qed.

Lemma sinkLeft_perm (x : Scanner.Result) (l : list Scanner.Result) :
  Permutation (x :: l) (sinkLeft x l).
Proof.
  induction l as [|p ps IH]; simpl; [reflexivity|].
  destruct (less x p); [|reflexivity].
  rewrite perm_swap. constructor. exact IH.
Qed.

Lemma sinkLeft_head (x : Scanner.Result) (l : list Scanner.Result) (q : Scanner.Result) :
  HdRel (fun a b => less a b = false) q l -> less q x = false ->
  HdRel (fun a b => less a b = false) q (sinkLeft x l).
Proof.
  destruct l as [|p ps]; simpl; intros Hhd Hx.
  - constructor. exact Hx.
  - destruct (less x p); constructor; [inversion Hhd; assumption | exact Hx].
Qed.

Lemma sinkLeft_descending (x : Scanner.Result) (l : list Scanner.Result) :
  descending l -> descending (sinkLeft x l).
Proof.
  unfold descending.
  induction l as [|p ps IH]; simpl; intros Hs.
  - repeat constructor.
  - inversion Hs as [|? ? Hps Hhd]; subst.
    destruct (less x p) eqn:E.
    + constructor; [apply IH; exact Hps|].
      apply sinkLeft_head; [exact Hhd|]. apply less_asym. exact E.
    + constructor; [exact Hs|]. constructor. exact E.
Qed.

Lemma fold_sinkLeft (l acc : list Scanner.Result) :
  descending acc ->
  descending (fold_left (fun sorted_rev x => sinkLeft x sorted_rev) l acc) /\
  Permutation (rev l ++ acc) (fold_left (fun sorted_rev x => sinkLeft x sorted_rev) l acc).
Proof.
  revert acc. induction l as [|x l IH]; simpl; intros acc Hacc.
  - split; [exact Hacc|reflexivity].
  - destruct (IH (sinkLeft x acc) (sinkLeft_descending x acc Hacc)) as [Hd Hp].
    split; [exact Hd|].
    rewrite <- Hp, <- app_assoc. simpl.
    apply Permutation_app_head. apply sinkLeft_perm.
Qed.

Lemma Sorted_snoc {A} (R : A -> A -> Prop) (l : list A) (x : A) :
  Sorted R l -> (forall y, last l = Some y -> R y x) -> Sorted R (l ++ [x]).
Proof.
  induction l as [|a l IH]; simpl; intros Hs Hlast.
  - repeat constructor.
  - inversion Hs as [|? ? Hl Hhd]; subst. constructor.
    + apply IH; [exact Hl|]. intros y Hy. apply Hlast.
      destruct l; [discriminate Hy|exact Hy].
    + destruct l as [|b l]; simpl.
      * constructor. apply Hlast. reflexivity.
      * constructor. inversion Hhd; assumption.
Qed.

Lemma descending_rev (l : list Scanner.Result) : descending l -> Sorted ordered (rev l).
Proof.
  unfold descending. induction l as [|a l IH]; simpl; intros Hs; [constructor|].
  inversion Hs as [|? ? Hl Hhd]; subst.
  apply Sorted_snoc; [apply IH; exact Hl|].
  intros y Hy. destruct l as [|b l]; [discriminate Hy|].
  simpl in Hy. rewrite last_snoc in Hy. injection Hy as <-.
  apply not_less_ordered. inversion Hhd; assumption.
Qed.

(** The sort returns its input rearranged in ascending order. *)
Lemma sortSlice_sorted (l : list Scanner.Result) :
  StronglySorted ordered (sortSlice l) /\ Permutation l (sortSlice l).
Proof.
  unfold sortSlice.
  destruct (fold_sinkLeft l [] ltac:(constructor)) as [Hd Hp]. split.
  - apply Sorted_StronglySorted; [intros a b c; apply ordered_trans|].
    apply descending_rev. exact Hd.
  - rewrite <- Permutation_rev, <- Hp, app_nil_r. apply Permutation_rev.
Qed.




(** [SaveJSON], which carries no clock reading, is a function of the
    results alone, and writes them in ascending order. *)
Example SaveJSON_ordering :
  forall results,
    StronglySorted ordered (sortSlice results) /\ Permutation results (sortSlice results).
Proof. apply sortSlice_sorted. Qed.

(** *** The order of the results in a report *)

Lemma ordered_antisym (a b : Scanner.Result) : ordered a b -> ordered b a -> sortKey a = sortKey b.
Proof.
  unfold ordered, sortKey. intros [H1|[E1 H1]] [H2|[E2 H2]].
  - pose proof (ltb_asym _ _ H1). congruence.
  - rewrite E2 in H1. pose proof (ltb_asym _ _ H1). congruence.
  - rewrite E1 in H2. pose proof (ltb_asym _ _ H2). congruence.
  - f_equal; [exact E1|lia].
Qed.

(** Two sorted lists of the same Results are equal when no two of the
    Results share URL and status code. *)
Lemma sorted_unique (l1 l2 : list Scanner.Result) :
  StronglySorted ordered l1 -> StronglySorted ordered l2 ->
  Permutation l1 l2 -> NoDup (map sortKey l1) -> l1 = l2.
Proof.
  revert l2. induction l1 as [|a t1 IH]; intros l2 Hs1 Hs2 Hperm Hnd.
  - apply Permutation_nil in Hperm. congruence.
  - destruct l2 as [|b t2]; [apply Permutation_sym, Permutation_nil in Hperm; discriminate|].
    apply StronglySorted_inv in Hs1. destruct Hs1 as [Hs1 Ha].
    apply StronglySorted_inv in Hs2. destruct Hs2 as [Hs2 Hb].
    cbn [map] in Hnd. apply NoDup_cons in Hnd. destruct Hnd as [Hfresh Hnd].
    assert (Hab : a = b).
    { assert (Hb_in : In b (a :: t1)).
      { apply (Permutation_in _ (Permutation_sym Hperm)). left. reflexivity. }
      assert (Ha_in : In a (b :: t2)).
      { apply (Permutation_in _ Hperm). left. reflexivity. }
      destruct Hb_in as [E|Hb_in]; [exact E|].
      destruct Ha_in as [E|Ha_in]; [symmetry; exact E|].
      exfalso. rewrite List.Forall_forall in Ha, Hb.
      pose proof (ordered_antisym a b (Ha b Hb_in) (Hb a Ha_in)) as Hkey.
      apply Hfresh. rewrite Hkey. apply list_elem_of_In, in_map. exact Hb_in. }
    subst b. f_equal. apply IH; try assumption.
    apply (Permutation_cons_inv Hperm).
Qed.

(** When no two Results share URL and status code, the reports do not
    depend on the order in which the workers delivered them: every
    rearrangement of the same Results is written as the same bytes. *)
Theorem reports_ignore_the_arrival_order (results results' : list Scanner.Result) :
  Permutation results results' ->
  NoDup (map sortKey results) ->
  sortSlice results = sortSlice results' /\
  SaveJSON results = SaveJSON results' /\
  (forall sha256_hex targets runID start finish,
     SaveJSONReport sha256_hex results targets runID start finish
     = SaveJSONReport sha256_hex results' targets runID start finish).
Proof.
  intros Hperm Hnd.
  destruct (sortSlice_sorted results) as [Hs Hp].
  destruct (sortSlice_sorted results') as [Hs' Hp'].
  assert (E : sortSlice results = sortSlice results').
  { apply sorted_unique; [exact Hs|exact Hs'| |].
    - rewrite <- Hp, <- Hp'. exact Hperm.
    - apply (Permutation_map sortKey) in Hp. rewrite <- Hp. exact Hnd. }
  split; [exact E|]. split.
  - unfold SaveJSON. rewrite E. reflexivity.
  - intros sha256_hex targets runID start finish.
    unfold SaveJSONReport, buildReport. rewrite E. reflexivity.
Qed.

Lemma reports_ignore_the_arrival_order_witness :
  sortSlice [sample "http://example.com/b" 200; sample "http://example.com/a" 403;
             sample "http://example.com/a" 200]
  = sortSlice [sample "http://example.com/a" 403; sample "http://example.com/a" 200;
               sample "http://example.com/b" 200].
Proof.
  refine (proj1 (reports_ignore_the_arrival_order
                   [sample "http://example.com/b" 200; sample "http://example.com/a" 403;
                    sample "http://example.com/a" 200]
                   [sample "http://example.com/a" 403; sample "http://example.com/a" 200;
                    sample "http://example.com/b" 200] _ _)).
  - apply (Permutation_cons_app [_; _] []). apply Permutation_refl.
  - apply (bool_decide_unpack _). vm_compute. reflexivity.
Defined.

(** Results that share URL and status code keep the order they arrived in. *)
Example ties_keep_the_arrival_order :
  map Scanner.Method
      (sortSlice [Scanner.set_Method (sample "http://example.com/a" 200) "POST";
                  sample "http://example.com/a" 200]) = ["POST"; "GET"] /\
  map Scanner.Method
      (sortSlice [sample "http://example.com/a" 200;
                  Scanner.set_Method (sample "http://example.com/a" 200) "POST"]) = ["GET"; "POST"].
Proof. vm_compute. split; reflexivity. Qed.

(** *** The hash of the targets *)

Lemma fold_left_append (ss : list string) (acc : string) :
  fold_left String.append ss acc = acc +:+ String.concat "" ss.
Proof.
  revert acc. induction ss as [|s ss IH]; intros acc; cbn [fold_left].
  - cbn. rewrite GoStringsFacts.append_nil_r. reflexivity.
  - rewrite IH, GoStringsFacts.append_assoc. f_equal.
    destruct ss as [|s' ss]; [cbn; rewrite GoStringsFacts.append_nil_r; reflexivity|reflexivity].
Qed.

(** The hash of the targets is taken over their concatenation: two lists
    of targets that read the same when written without separators get the
    same hash, which is never longer than sixteen bytes. *)
Theorem hashStrings_sees_the_concatenation (sha256_hex : string -> string)
    (ss ss' : list string) :
  String.concat "" ss = String.concat "" ss' ->
  hashStrings sha256_hex ss = hashStrings sha256_hex ss' /\
  len (hashStrings sha256_hex ss) <= 16.
Proof.
  intros H. unfold hashStrings. rewrite !fold_left_append, H. split; [reflexivity|].
  unfold len. rewrite TransportFacts.length_take. lia.
Qed.

Lemma hashStrings_sees_the_concatenation_witness :
  hashStrings (fun s => s) ["http://a.example"; ".com"]
  = hashStrings (fun s => s) ["http://a"; ".example.com"].
Proof.
  exact (proj1 (hashStrings_sees_the_concatenation (fun s => s)
                  ["http://a.example"; ".com"] ["http://a"; ".example.com"] eq_refl)).
Defined.

(** *** Counting by status *)

Ltac table_eq :=
  unfold increment, countTable; rewrite !list_to_map_cons, list_to_map_nil;
  apply map_eq; intros k; rewrite !lookup_insert;
  repeat case_decide; try congruence; try reflexivity.

Lemma increment_2xx (a b c d e f g : Z) :
  increment "2xx" (countTable a b c d e f g) = countTable (GoInt.add a 1) b c d e f g.
Proof. table_eq. Qed.

Lemma increment_3xx (a b c d e f g : Z) :
  increment "3xx" (countTable a b c d e f g) = countTable a (GoInt.add b 1) c d e f g.
Proof. table_eq. Qed.

Lemma increment_4xx (a b c d e f g : Z) :
  increment "4xx" (countTable a b c d e f g) = countTable a b (GoInt.add c 1) d e f g.
Proof. table_eq. Qed.

Lemma increment_5xx (a b c d e f g : Z) :
  increment "5xx" (countTable a b c d e f g) = countTable a b c (GoInt.add d 1) e f g.
Proof. table_eq. Qed.

Lemma increment_critical (a b c d e f g : Z) :
  increment "critical" (countTable a b c d e f g) = countTable a b c d (GoInt.add e 1) f g.
Proof. table_eq. Qed.

Lemma increment_secrets (a b c d e f g : Z) :
  increment "secrets" (countTable a b c d e f g) = countTable a b c d e (GoInt.add f 1) g.
Proof. table_eq. Qed.

Lemma increment_waf (a b c d e f g : Z) :
  increment "waf" (countTable a b c d e f g) = countTable a b c d e f (GoInt.add g 1).
Proof. table_eq. Qed.

Lemma countResult_table (a b c d e f g : Z) (r : Scanner.Result) :
  countResult (countTable a b c d e f g) r
  = countTable (if is2xx r then GoInt.add a 1 else a) (if is3xx r then GoInt.add b 1 else b)
               (if is4xx r then GoInt.add c 1 else c) (if is5xx r then GoInt.add d 1 else d)
               (if Scanner.Critical r then GoInt.add e 1 else e)
               (if Scanner.SecretFound r then GoInt.add f 1 else f)
               (if hasWAF r then GoInt.add g 1 else g).
Proof.
  unfold countResult, is2xx, is3xx, is4xx, is5xx, hasWAF. cbv zeta.
  destruct (Z.leb_spec 200 (Scanner.StatusCode r)), (Z.ltb_spec (Scanner.StatusCode r) 300),
    (Z.leb_spec 300 (Scanner.StatusCode r)), (Z.ltb_spec (Scanner.StatusCode r) 400),
    (Z.leb_spec 400 (Scanner.StatusCode r)), (Z.ltb_spec (Scanner.StatusCode r) 500),
    (Z.leb_spec 500 (Scanner.StatusCode r)); try lia; cbn [andb];
    destruct (Scanner.Critical r), (Scanner.SecretFound r),
      (String.eqb (Scanner.WAFDetected r) EmptyString); cbn [negb];
    rewrite ?increment_2xx, ?increment_3xx, ?increment_4xx, ?increment_5xx,
      ?increment_critical, ?increment_secrets, ?increment_waf; reflexivity.
Qed.

Lemma countIf_snoc (p : Scanner.Result -> bool) (l : list Scanner.Result) (r : Scanner.Result) :
  countIf p (l ++ [r]) = countIf p l + (if p r then 1 else 0).
Proof.
  unfold countIf. rewrite List.filter_app, length_app. cbn [List.filter].
  destruct (p r); cbn [length]; lia.
Qed.

Lemma countIf_bound (p : Scanner.Result -> bool) (l : list Scanner.Result) :
  0 <= countIf p l <= Z.of_nat (length l).
Proof.
  unfold countIf. pose proof (List.filter_length_le p l). lia.
Qed.

Lemma countIf_add (p : Scanner.Result -> bool) (l : list Scanner.Result) (r : Scanner.Result) :
  Z.of_nat (length (l ++ [r])) <= GoInt.max_int ->
  (if p r then GoInt.add (countIf p l) 1 else countIf p l) = countIf p (l ++ [r]).
Proof.
  intros Hmax. rewrite countIf_snoc. pose proof (countIf_bound p l) as Hb.
  rewrite length_app in Hmax. cbn [length] in Hmax.
  destruct (p r); [|lia]. unfold GoInt.add. apply GoIntFacts.wrap_id.
  unfold GoInt.in_range, GoInt.min_int, GoInt.max_int in *. lia.
Qed.

Lemma fold_countResult (l done : list Scanner.Result) :
  Z.of_nat (length (done ++ l)) <= GoInt.max_int ->
  fold_left countResult l (tableOf done) = tableOf (done ++ l).
Proof.
  revert done. induction l as [|r l IH]; intros done Hmax; cbn [fold_left].
  - rewrite app_nil_r. reflexivity.
  - assert (Hone : Z.of_nat (length (done ++ [r])) <= GoInt.max_int).
    { rewrite !length_app in *. cbn [length] in *. lia. }
    replace (done ++ r :: l) with ((done ++ [r]) ++ l) in * by (rewrite <- app_assoc; reflexivity).
    rewrite <- (IH (done ++ [r]) Hmax). f_equal.
    unfold tableOf at 1. rewrite countResult_table.
    rewrite !(countIf_add _ done r Hone). reflexivity.
Qed.

Lemma class_of_status (l : list Scanner.Result) :
  countIf is2xx l + countIf is3xx l + countIf is4xx l + countIf is5xx l
  = countIf (fun r => 200 <=? Scanner.StatusCode r) l.
Proof.
  induction l as [|r l IH] using rev_ind; [reflexivity|].
  rewrite !countIf_snoc, <- IH. unfold is2xx, is3xx, is4xx, is5xx.
  destruct (Z.leb_spec 200 (Scanner.StatusCode r)), (Z.ltb_spec (Scanner.StatusCode r) 300),
    (Z.leb_spec 300 (Scanner.StatusCode r)), (Z.ltb_spec (Scanner.StatusCode r) 400),
    (Z.leb_spec 400 (Scanner.StatusCode r)), (Z.ltb_spec (Scanner.StatusCode r) 500),
    (Z.leb_spec 500 (Scanner.StatusCode r)); cbn [andb]; lia.
Qed.

Lemma countOf_table (a b c d e f g : Z) :
  countOf (countTable a b c d e f g) "2xx" = a /\
  countOf (countTable a b c d e f g) "3xx" = b /\
  countOf (countTable a b c d e f g) "4xx" = c /\
  countOf (countTable a b c d e f g) "5xx" = d /\
  countOf (countTable a b c d e f g) "critical" = e /\
  countOf (countTable a b c d e f g) "secrets" = f /\
  countOf (countTable a b c d e f g) "waf" = g.
Proof.
  unfold countOf, countTable. rewrite !list_to_map_cons, list_to_map_nil.
  repeat split; rewrite !lookup_insert; repeat case_decide; try congruence; reflexivity.
Qed.

(** The map of counts always has its seven keys, also for no Results at
    all; each Result with a status code of 200 or more is counted in
    exactly one of the four status classes and a Result below 200 in
    none; and the other three counts are the numbers of critical Results,
    of Results with secrets and of Results behind a WAF. *)
Theorem CountByStatus_classes (results : list Scanner.Result) :
  Z.of_nat (length results) <= GoInt.max_int ->
  (forall key, is_Some (CountByStatus results !! key) <-> In key countKeys) /\
  countOf (CountByStatus results) "2xx" + countOf (CountByStatus results) "3xx"
  + countOf (CountByStatus results) "4xx" + countOf (CountByStatus results) "5xx"
  = countIf (fun r => 200 <=? Scanner.StatusCode r) results /\
  countOf (CountByStatus results) "critical" = countIf Scanner.Critical results /\
  countOf (CountByStatus results) "secrets" = countIf Scanner.SecretFound results /\
  countOf (CountByStatus results) "waf" = countIf hasWAF results.
Proof.
  intros Hmax.
  assert (E : CountByStatus results = tableOf results).
  { unfold CountByStatus. change (list_to_map (map (fun key => (key, 0)) countKeys))
      with (tableOf []). rewrite fold_countResult by exact Hmax. reflexivity. }
  rewrite E. unfold tableOf.
  destruct (countOf_table (countIf is2xx results) (countIf is3xx results)
              (countIf is4xx results) (countIf is5xx results)
              (countIf Scanner.Critical results) (countIf Scanner.SecretFound results)
              (countIf hasWAF results)) as (H2 & H3 & H4 & H5 & Hc & Hs & Hw).
  split; [|rewrite H2, H3, H4, H5, Hc, Hs, Hw; split; [apply class_of_status|auto]].
  intros key. unfold countTable, countKeys. rewrite !list_to_map_cons, list_to_map_nil.
  rewrite !lookup_insert. split.
  - repeat case_decide; subst; cbn; intros Hsome; try tauto.
    rewrite lookup_empty in Hsome. destruct Hsome as [x Hx]. discriminate Hx.
  - intros Hin. cbn in Hin.
    repeat (destruct Hin as [<-|Hin];
            [repeat case_decide; try congruence; eexists; reflexivity|]).
    destruct Hin.
Qed.

Lemma CountByStatus_classes_witness :
  countOf (CountByStatus [sample "http://example.com/a" 200; sample "http://example.com/b" 101])
          "2xx"
  + countOf (CountByStatus [sample "http://example.com/a" 200; sample "http://example.com/b" 101])
            "3xx"
  + countOf (CountByStatus [sample "http://example.com/a" 200; sample "http://example.com/b" 101])
            "4xx"
  + countOf (CountByStatus [sample "http://example.com/a" 200; sample "http://example.com/b" 101])
            "5xx"
  = countIf (fun r => 200 <=? Scanner.StatusCode r)
            [sample "http://example.com/a" 200; sample "http://example.com/b" 101].
Proof.
  refine (proj1 (proj2 (CountByStatus_classes
                          [sample "http://example.com/a" 200; sample "http://example.com/b" 101]
                          _))).
  vm_compute. discriminate.
Defined.

End ReportingFacts.
